(** * Store API: product schemas, Decimal128 precision adapter and route handlers

    A shallow embedding of [store/schemas/product.py] and
    [store/controllers/product.py], together with the parts of Python's
    [decimal] module and of [bson.decimal128] that [convert_decimal_128]
    runs through. *)

From Stdlib Require Import ZArith NArith QArith Qpower Ascii String DecimalString DecimalN List Lia.
From stdpp Require Import gmap strings list.

#[local] Open Scope string_scope.
#[local] Open Scope Z_scope.

(** ** Python exceptions and results *)

(** The exception classes the two source files raise, catch or let through. *)
Inductive exn :=
| ValidationError (errors : list (string * string))
| InvalidOperation
| Overflow
| Inexact
| ValueError (message : string)
| NotFoundException (message : string)
| InsertionException (message : string)
| HTTPException (status_code : Z) (detail : string).

Inductive result (A : Type) :=
| Ok (a : A)
| Raise (e : exn).

Arguments Ok {A} a.
Arguments Raise {A} e.

#[global] Instance result_ret : MRet result := fun A a => Ok a.

#[global] Instance result_bind : MBind result := fun A B k r =>
  match r with
  | Ok a => k a
  | Raise e => Raise e
  end.

(** ** Python's [decimal] module *)

Module decimal.

(** A [decimal.Decimal]: sign, coefficient and exponent, or a special value.
    The coefficient is the number the digit string [_int] denotes (the
    constructor strips leading zeros, so nothing is lost). *)
Inductive Decimal :=
| Finite (sign : bool) (coefficient : N) (exponent : Z)
| Infinity (sign : bool)
| NaN (sign : bool) (signaling : bool) (payload : N).

(** [str(n)] for a non-negative int. *)
Definition str_N (n : N) : string := NilZero.string_of_uint (N.to_uint n).

(** ["%+d" % z] *)
Definition str_signed (z : Z) : string :=
  (if z <? 0 then "-" else "+") +:+ str_N (Z.abs_N z).

(** ['0' * n] *)
Fixpoint zeros (n : nat) : string :=
  match n with
  | O => ""
  | S n => String "0" (zeros n)
  end.

Definition sign_str (sign : bool) : string := if sign then "-" else "".

(** [len(self._int)] *)
Definition ndigits (c : N) : Z := Z.of_nat (String.length (str_N c)).

(** [Decimal.__str__] (scientific notation, [capitals = 1]). *)
Definition Decimal_str (d : Decimal) : string :=
  match d with
  | Infinity s => sign_str s +:+ "Infinity"
  | NaN s sig p =>
      sign_str s +:+ (if sig then "sNaN" else "NaN")
        +:+ (if (p =? 0)%N then "" else str_N p)
  | Finite s c e =>
      let _int := str_N c in
      let len := ndigits c in
      let leftdigits := e + len in
      let dotplace :=
        if (e <=? 0) && (-6 <? leftdigits) then leftdigits else 1 in
      let intpart :=
        if dotplace <=? 0 then "0"
        else if len <=? dotplace then _int +:+ zeros (Z.to_nat (dotplace - len))
        else substring 0 (Z.to_nat dotplace) _int in
      let fracpart :=
        if dotplace <=? 0 then "." +:+ zeros (Z.to_nat (- dotplace)) +:+ _int
        else if len <=? dotplace then ""
        else "." +:+ substring (Z.to_nat dotplace) (Z.to_nat (len - dotplace)) _int in
      let exp :=
        if leftdigits =? dotplace then ""
        else "E" +:+ str_signed (leftdigits - dotplace) in
      sign_str s +:+ intpart +:+ fracpart +:+ exp
  end.

(** *** The numeric-string parser of [Decimal.__new__] *)

Definition is_digit (a : ascii) : bool :=
  match a with
  | "0" | "1" | "2" | "3" | "4" | "5" | "6" | "7" | "8" | "9" => true
  | _ => false
  end%char.

(** The longest prefix of digits ([\d*]) and what follows it. *)
Fixpoint span_digits (s : string) : string * string :=
  match s with
  | String a s' =>
      if is_digit a
      then let '(ds, rest) := span_digits s' in (String a ds, rest)
      else ("", s)
  | "" => ("", "")
  end.

(** [int(s)] for a string of digits. *)
Definition int_of_digits (s : string) : N :=
  match NilEmpty.uint_of_string s with
  | Some u => N.of_uint u
  | None => 0%N
  end.

Definition is_empty (s : string) : bool :=
  match s with
  | "" => true
  | _ => false
  end.

(** The group [[-+]?\d+] up to the end of the string. *)
Definition parse_exponent (s : string) : option Z :=
  let '(neg, s1) :=
    match s with
    | String "-" r => (true, r)
    | String "+" r => (false, r)
    | _ => (false, s)
    end in
  let '(ds, rest) := span_digits s1 in
  if is_empty ds || negb (is_empty rest) then None
  else Some (if neg then - Z.of_N (int_of_digits ds) else Z.of_N (int_of_digits ds)).

(** A number with at least one digit: integer part, optional fraction,
    optional exponent ([E] in either case), then the end of the string. *)
Definition parse_number (s : string) : option (N * Z) :=
  let '(intpart, r1) := span_digits s in
  let '(fracpart, r2) :=
    match r1 with
    | String "." r => span_digits r
    | _ => ("", r1)
    end in
  if is_empty intpart && is_empty fracpart then None
  else
    let exp :=
      match r2 with
      | "" => Some 0
      | String "E" r | String "e" r => parse_exponent r
      | _ => None
      end in
    match exp with
    | Some x =>
        Some (int_of_digits (intpart +:+ fracpart),
              x - Z.of_nat (String.length fracpart))
    | None => None
    end.

Definition lower (a : ascii) : ascii :=
  let n := N_of_ascii a in
  if ((65 <=? n) && (n <=? 90))%N then ascii_of_N (n + 32) else a.

Fixpoint lower_str (s : string) : string :=
  match s with
  | "" => ""
  | String a s' => String (lower a) (lower_str s')
  end.

(** [Inf(inity)?] or [s?NaN\d*], case-insensitive. *)
Definition parse_special (sign : bool) (s : string) : option Decimal :=
  let l := lower_str s in
  if String.eqb l "inf" || String.eqb l "infinity" then Some (Infinity sign)
  else
    let '(sig, r) :=
      match l with
      | String "s" r => (true, r)
      | _ => (false, l)
      end in
    match r with
    | String "n" (String "a" (String "n" diag)) =>
        let '(ds, rest) := span_digits diag in
        if is_empty rest then Some (NaN sign sig (int_of_digits ds)) else None
    | _ => None
    end.

(** [Decimal(s)] for a string without surrounding whitespace or
    underscores; [None] is the [ConversionSyntax] condition. *)
Definition Decimal_of_str (s : string) : option Decimal :=
  let '(sign, r) :=
    match s with
    | String "-" r => (true, r)
    | String "+" r => (false, r)
    | _ => (false, s)
    end in
  match parse_number r with
  | Some (c, e) => Some (Finite sign c e)
  | None => parse_special sign r
  end.

(** [str.isspace] for a character of code below 256. *)
Definition is_space (a : ascii) : bool :=
  let n := N_of_ascii a in
  ((9 <=? n) && (n <=? 13) || (28 <=? n) && (n <=? 32)
   || (n =? 133) || (n =? 160))%N.

(** [s.lstrip()] and [s.rstrip()] *)
Fixpoint lstrip (s : string) : string :=
  match s with
  | String a s' => if is_space a then lstrip s' else s
  | "" => ""
  end.

Fixpoint rstrip (s : string) : string :=
  match s with
  | String a s' =>
      let r := rstrip s' in
      if is_empty r && is_space a then "" else String a r
  | "" => ""
  end.

(** [s.replace("_", "")] *)
Fixpoint remove_underscores (s : string) : string :=
  match s with
  | String a s' =>
      if Ascii.eqb a "_" then remove_underscores s'
      else String a (remove_underscores s')
  | "" => ""
  end.

(** [Decimal(value)] for a string: [value.strip().replace("_", "")] goes
    to the parser; [None] is the [ConversionSyntax] condition. *)
Definition Decimal_new (value : string) : option Decimal :=
  Decimal_of_str (remove_underscores (rstrip (lstrip value))).

(** [Decimal(value)] for an int. *)
Definition Decimal_of_int (value : Z) : Decimal :=
  Finite (value <? 0) (Z.abs_N value) 0.

End decimal.

(** ** [bson.decimal128] *)

Module bson.
Import decimal.

Definition _EXPONENT_MASK : Z := Z.shiftl 3 61.
Definition _EXPONENT_BIAS : Z := 6176.
Definition _EXPONENT_MAX : Z := 6144.
Definition _EXPONENT_MIN : Z := -6143.
Definition _MAX_DIGITS : Z := 34.

Definition _INF : Z := 0x7800000000000000.
Definition _NAN : Z := 0x7C00000000000000.
Definition _SNAN : Z := 0x7E00000000000000.
Definition _SIGN : Z := 0x8000000000000000.

Definition _NINF : Z * Z := (_INF + _SIGN, 0).
Definition _PINF : Z * Z := (_INF, 0).
Definition _NNAN : Z * Z := (_NAN + _SIGN, 0).
Definition _PNAN : Z * Z := (_NAN, 0).
Definition _NSNAN : Z * Z := (_SNAN + _SIGN, 0).
Definition _PSNAN : Z * Z := (_SNAN, 0).

(** [_DEC128_CTX]: [prec = 34], [Emin = -6143], [Emax = 6144],
    [rounding = ROUND_HALF_EVEN], [clamp = 1],
    [traps = [InvalidOperation, Overflow, Inexact]]. *)
Definition Etiny : Z := _EXPONENT_MIN - _MAX_DIGITS + 1.
Definition Etop : Z := _EXPONENT_MAX - _MAX_DIGITS + 1.

(** [Decimal._fix] under [_DEC128_CTX]: the value rounded to the context,
    or the first trapped signal. Rounding that discards only zeros is
    exact ([Rounded] is not trapped); any other rounding raises. *)
Definition _fix (d : Decimal) : result Decimal :=
  match d with
  | Infinity _ => Ok d
  | NaN _ _ _ => Ok d
  | Finite s c e =>
      if (c =? 0)%N then Ok (Finite s 0 (Z.min (Z.max e Etiny) Etop))
      else
        let exp_min := ndigits c + e - _MAX_DIGITS in
        if Etop <? exp_min then Raise Overflow
        else
          let exp_min := Z.max exp_min Etiny in
          if e <? exp_min then
            let p := (10 ^ Z.to_N (exp_min - e))%N in
            let coeff := (c / p)%N in
            let discarded := (c mod p)%N in
            if (discarded =? 0)%N then Ok (Finite s coeff exp_min)
            else
              let changed_up :=
                ((p <? 2 * discarded) || ((2 * discarded =? p) && N.odd coeff))%N in
              if changed_up
                 && (_MAX_DIGITS <? ndigits (coeff + 1))
                 && (Etop <? exp_min + 1)
              then Raise Overflow
              else Raise Inexact
          else if Etop <? e then
            Ok (Finite s (c * 10 ^ Z.to_N (e - Etop)) Etop)
          else Ok d
  end.

(** [_DEC128_CTX.create_decimal(num)] for a string. *)
Definition create_decimal (num : string) : result Decimal :=
  match Decimal_of_str num with
  | None => Raise InvalidOperation
  | Some (NaN s sig p) =>
      if (_MAX_DIGITS - 1 <? (if (p =? 0)%N then 0 else ndigits p))
      then Raise InvalidOperation
      else _fix (NaN s sig p)
  | Some d => _fix d
  end.

(** The two 64-bit halves of the BID encoding. *)
Record Decimal128 := { high : Z; low : Z }.

(** [int.bit_length] of a non-negative int. *)
Definition bit_length (n : Z) : Z :=
  if n =? 0 then 0 else Z.log2 n + 1.

(** [for i in range(n): if x & (1 << (i + offset)): acc |= 1 << i],
    from [acc = 0]. *)
Definition copy_bits (x offset : Z) (n : nat) : Z :=
  fold_left
    (fun acc i =>
       if Z.land x (Z.shiftl 1 (Z.of_nat i + offset)) =? 0 then acc
       else Z.lor acc (Z.shiftl 1 (Z.of_nat i)))
    (seq 0 n) 0.

Definition _decimal_to_128 (value : string) : result (Z * Z) :=
  value ← create_decimal value;
  match value with
  | Infinity sign => Ok (if sign then _NINF else _PINF)
  | NaN sign sig payload =>
      if negb (payload =? 0)%N
      then Raise (ValueError "NaN with debug payload is not supported")
      else if sig then Ok (if sign then _NSNAN else _PSNAN)
      else Ok (if sign then _NNAN else _PNAN)
  | Finite sign digits exponent =>
      let significand := Z.of_N digits in
      let bit_length := bit_length significand in
      let low := copy_bits significand 0 (Z.to_nat (Z.min 64 bit_length)) in
      let high :=
        copy_bits significand 64 (Z.to_nat (Z.max 0 (bit_length - 64))) in
      let biased_exponent := exponent + _EXPONENT_BIAS in
      let high :=
        if Z.shiftr high 49 =? 1 then
          Z.lor (Z.lor (Z.land high 0x7FFFFFFFFFFF) _EXPONENT_MASK)
                (Z.shiftl (Z.land biased_exponent 0x3FFF) 47)
        else Z.lor high (Z.shiftl biased_exponent 49) in
      let high := if sign then Z.lor high _SIGN else high in
      Ok (high, low)
  end.

(** [Decimal128(value)] for a string. *)
Definition Decimal128_of_str (value : string) : result Decimal128 :=
  hl ← _decimal_to_128 value;
  Ok {| high := fst hl; low := snd hl |}.

(** The fifteen bytes [arr] of [to_decimal]: [arr[0]] is bit 48 of
    [high], [arr[1..6]] are the low six bytes of [high], most significant
    first, and [arr[7..14]] the eight bytes of [low]. *)
Definition significand_bytes (high low : Z) : list Z :=
  Z.shiftr (Z.land high 0x0001000000000000) 48
  :: map (fun i =>
            Z.shiftr (Z.land high (Z.shiftl 0xFF (Z.shiftl (6 - i) 3)))
                     (Z.shiftl (6 - i) 3))
         [1; 2; 3; 4; 5; 6]
  ++ map (fun i =>
            Z.shiftr (Z.land low (Z.shiftl 0xFF (Z.shiftl (14 - i) 3)))
                     (Z.shiftl (14 - i) 3))
         [7; 8; 9; 10; 11; 12; 13; 14].

(** [int.from_bytes(arr, "big")] *)
Definition int_from_bytes_big (arr : list Z) : Z :=
  fold_left (fun acc b => acc * 256 + b) arr 0.

(** [Decimal128.to_decimal] *)
Definition to_decimal (self : Decimal128) : result Decimal :=
  let high := high self in
  let low := low self in
  let sign := negb (Z.land high _SIGN =? 0) in
  if Z.land high _SNAN =? _SNAN then Ok (NaN sign true 0)
  else if Z.land high _NAN =? _NAN then Ok (NaN sign false 0)
  else if Z.land high _INF =? _INF then Ok (Infinity sign)
  else if Z.land high _EXPONENT_MASK =? _EXPONENT_MASK then
    Ok (Finite sign 0
          (Z.shiftr (Z.land high 0x1FFFE00000000000) 47 - _EXPONENT_BIAS))
  else
    let exponent :=
      Z.shiftr (Z.land high 0x7FFF800000000000) 49 - _EXPONENT_BIAS in
    let significand := int_from_bytes_big (significand_bytes high low) in
    _fix (Finite sign (Z.to_N significand) exponent).

(** [Decimal128.__str__] *)
Definition Decimal128_str (self : Decimal128) : result string :=
  dec ← to_decimal self;
  match dec with
  | NaN _ _ _ => Ok "NaN"
  | _ => Ok (Decimal_str dec)
  end.

End bson.

(** ** Python values *)

(** [pydantic.UUID4] and [datetime.datetime], as numbers: the 128 bits
    of the identifier and the microseconds since the epoch. *)
Definition UUID : Type := N.
Definition datetime : Type := Z.

(** A finite [float] is [m * 2 ^ e]; the specials are kept apart. *)
Inductive float :=
| Float (m e : Z)
| FloatInf (sign : bool)
| FloatNaN.

(** The values keyword arguments, documents and patches hold: one
    constructor per Python type the schemas mention. *)
Inductive value :=
| VNone
| VBool (b : bool)
| VInt (z : Z)
| VStr (s : string)
| VFloat (f : float)
| VDecimal (d : decimal.Decimal)
| VDecimal128 (d : bson.Decimal128)
| VDatetime (t : datetime)
| VUUID (u : UUID).

#[global] Instance Decimal_eq_dec : EqDecision decimal.Decimal.
Proof. solve_decision. Defined.

#[global] Instance Decimal128_eq_dec : EqDecision bson.Decimal128.
Proof. solve_decision. Defined.

#[global] Instance float_eq_dec : EqDecision float.
Proof. solve_decision. Defined.

#[global] Instance value_eq_dec : EqDecision value.
Proof. unfold UUID, datetime. solve_decision. Defined.

(** ** [pydantic]: building a model from keyword arguments *)

Module pydantic.
Import decimal.

(** One line of a [ValidationError] is a field and an error type. A
    validator yields the validated value or an error type.

    The models validate in pydantic's default (lax) mode: a value that is
    not of the field's own type is converted when pydantic-core has a
    conversion for it. The conversions to [Decimal] are embedded in full,
    but for the text [str(x)] of a float, which [Decimal(str(x))] reads.
    That text and the conversions to [int], [bool], [datetime] and
    [UUID4] of values of other types belong to Python and to
    pydantic-core; they are parameters of the development, known only
    not to report a field as missing. *)
Class Conversions := {
  float_repr : float -> string;
  int_of_value : value -> Z + string;
  bool_of_value : value -> bool + string;
  datetime_of_value : value -> datetime + string;
  uuid_of_value : value -> UUID + string;
  int_of_value_error :
    forall v type, int_of_value v = inr type -> type <> "missing";
  bool_of_value_error :
    forall v type, bool_of_value v = inr type -> type <> "missing";
  datetime_of_value_error :
    forall v type, datetime_of_value v = inr type -> type <> "missing";
  uuid_of_value_error :
    forall v type, uuid_of_value v = inr type -> type <> "missing";
}.

Definition str_validator (v : value) : string + string :=
  match v with
  | VStr s => inl s
  | _ => inr "string_type"
  end.

Definition int_validator `{!Conversions} (v : value) : Z + string :=
  match v with
  | VInt z => inl z
  | _ => int_of_value v
  end.

Definition bool_validator `{!Conversions} (v : value) : bool + string :=
  match v with
  | VBool b => inl b
  | _ => bool_of_value v
  end.

(** The [Decimal] validator refuses what is not finite
    ([allow_inf_nan] is off for decimals). *)
Definition finite_number (d : Decimal) : Decimal + string :=
  match d with
  | Finite _ _ _ => inl d
  | _ => inr "finite_number"
  end.

(** A [Decimal] is taken as it is; an int (not a bool) and a string go
    through [Decimal(value)], a float through [Decimal(str(value))]. *)
Definition decimal_validator `{!Conversions} (v : value) : Decimal + string :=
  match v with
  | VDecimal d => finite_number d
  | VInt z => finite_number (Decimal_of_int z)
  | VStr s =>
      match Decimal_new s with
      | Some d => finite_number d
      | None => inr "decimal_parsing"
      end
  | VFloat x =>
      match Decimal_new (float_repr x) with
      | Some d => finite_number d
      | None => inr "decimal_parsing"
      end
  | _ => inr "decimal_type"
  end.

Definition datetime_validator `{!Conversions} (v : value) : datetime + string :=
  match v with
  | VDatetime t => inl t
  | _ => datetime_of_value v
  end.

(** [uuid.UUID.version]: the four bits from bit 76 of an RFC 4122
    identifier (bit 63 set, bit 62 clear), nothing for another variant. *)
Definition UUID_version (u : UUID) : option N :=
  if N.testbit u 63 && negb (N.testbit u 62)
  then Some (N.land (N.shiftr u 76) 0xF)
  else None.

(** [UUID4]: a [uuid.UUID] (128 bits) whose version is 4. *)
Definition uuid_validator `{!Conversions} (v : value) : UUID + string :=
  match v with
  | VUUID u =>
      if negb (u <? 2 ^ 128)%N then inr "uuid_type"
      else if decide (UUID_version u = Some 4%N) then inl u
      else inr "uuid_version"
  | _ => uuid_of_value v
  end.

(** [field: T = Field(...)] *)
Definition required {A} (validator : value -> A + string) (field : string)
    (data : gmap string value) : A + string * string :=
  match data !! field with
  | None => inr (field, "missing")
  | Some v =>
      match validator v with
      | inl a => inl a
      | inr type => inr (field, type)
      end
  end.

(** [field: Optional[T] = Field(None)] *)
Definition optional {A} (validator : value -> A + string) (field : string)
    (data : gmap string value) : option A + string * string :=
  match data !! field with
  | None | Some VNone => inl None
  | Some v =>
      match validator v with
      | inl a => inl (Some a)
      | inr type => inr (field, type)
      end
  end.

Definition errors_of {A} (r : A + string * string) : list (string * string) :=
  match r with
  | inl _ => []
  | inr e => [e]
  end.

End pydantic.

(** ** [store/schemas/product.py] *)

Module schemas.
Import decimal bson pydantic.

Module ProductIn.
(** [ProductBase] and [ProductIn], which adds nothing to it. *)
Record t := mk {
  name : string;
  quantity : Z;
  price : Decimal;
  status : bool;
}.
Definition model_fields : list string :=
  ["name"; "quantity"; "price"; "status"].
End ProductIn.

Module ProductOut.
(** [ProductOut] and [ProductUpdateOut], which adds nothing to it. The
    [id] field comes from [OutSchema]. *)
Record t := mk {
  id : UUID;
  name : string;
  quantity : Z;
  price : Decimal;
  status : bool;
  created_at : datetime;
  updated_at : datetime;
}.
Definition model_fields : list string :=
  ["id"; "created_at"; "updated_at"; "name"; "quantity"; "price"; "status"].
End ProductOut.

Definition convert_decimal_128 (v : Decimal) : result Decimal128 :=
  Decimal128_of_str (Decimal_str v).

Module ProductUpdate.
Record t := mk {
  quantity : option Z;
  price : option Decimal128;
  status : option bool;
  updated_at : option datetime;
}.
Definition model_fields : list string :=
  ["quantity"; "price"; "status"; "updated_at"].
End ProductUpdate.

(** Building a [ProductIn] from keyword arguments. *)
Definition ProductIn_init `{!Conversions} (data : gmap string value)
    : result ProductIn.t :=
  let name := required str_validator "name" data in
  let quantity := required int_validator "quantity" data in
  let price := required decimal_validator "price" data in
  let status := required bool_validator "status" data in
  match name, quantity, price, status with
  | inl n, inl q, inl p, inl s =>
      Ok (ProductIn.mk n q p s)
  | _, _, _, _ =>
      Raise (ValidationError
               (errors_of name ++ errors_of quantity ++ errors_of price
                  ++ errors_of status))
  end.

(** Building a [ProductOut] (or a [ProductUpdateOut]) from keyword
    arguments: the fields of [ProductIn], the two timestamps [ProductOut]
    declares and the [id] of [OutSchema]. *)
Definition ProductOut_init `{!Conversions} (data : gmap string value)
    : result ProductOut.t :=
  let id := required uuid_validator "id" data in
  let created_at := required datetime_validator "created_at" data in
  let updated_at := required datetime_validator "updated_at" data in
  let name := required str_validator "name" data in
  let quantity := required int_validator "quantity" data in
  let price := required decimal_validator "price" data in
  let status := required bool_validator "status" data in
  match id, created_at, updated_at, name, quantity, price, status with
  | inl i, inl c, inl u, inl n, inl q, inl p, inl s =>
      Ok (ProductOut.mk i n q p s c u)
  | _, _, _, _, _, _, _ =>
      Raise (ValidationError
               (errors_of id ++ errors_of created_at ++ errors_of updated_at
                  ++ errors_of name ++ errors_of quantity ++ errors_of price
                  ++ errors_of status))
  end.

(** [Decimal_]: the [Decimal] validator, then [convert_decimal_128]. An
    [AfterValidator] that raises [ValueError] gives a validation error;
    any other exception leaves the validation as it is. *)
Definition Decimal__validator `{!Conversions} (v : value)
    : result (Decimal128 + string) :=
  match decimal_validator v with
  | inr type => Ok (inr type)
  | inl d =>
      match convert_decimal_128 d with
      | Ok x => Ok (inl x)
      | Raise (ValueError _) => Ok (inr "value_error")
      | Raise e => Raise e
      end
  end.

(** Building a [ProductUpdate] from keyword arguments. *)
Definition ProductUpdate_init `{!Conversions} (data : gmap string value)
    : result ProductUpdate.t :=
  let quantity := optional int_validator "quantity" data in
  price ←
    match data !! "price" with
    | None | Some VNone => Ok (inl None)
    | Some v =>
        r ← Decimal__validator v;
        match r with
        | inl x => Ok (inl (Some x))
        | inr type => Ok (inr ("price", type))
        end
    end;
  let status := optional bool_validator "status" data in
  let updated_at := optional datetime_validator "updated_at" data in
  match quantity, price, status, updated_at with
  | inl q, inl p, inl s, inl u =>
      Ok (ProductUpdate.mk q p s u)
  | _, _, _, _ =>
      Raise (ValidationError
               (errors_of quantity ++ errors_of price ++ errors_of status
                  ++ errors_of updated_at))
  end.

End schemas.

(** ** The storage collaborator and the use case *)

Module usecases.
Import decimal bson pydantic schemas.

(** An operation on the store: the result, or the exception raised, and
    the store afterwards. *)
Definition action (S A : Type) : Type := S -> result A * S.

(** Modelled from the spec: the document store ([store/db] is not among
    the sources). A document maps field names to values; the collection
    keeps its documents in storage-native order. *)
Abbreviation database := (list (gmap string value)).

(** Modelled from the spec: the order the store compares prices and
    bounds in (the store is not among the sources). Numbers of different
    types are compared by their exact numeric value. *)
Inductive number :=
| NumNaN
| NegInf
| Fin (q : Q)
| PosInf.

Definition number_le (x y : number) : bool :=
  match x, y with
  | NumNaN, _ | _, NumNaN => false
  | NegInf, _ => true
  | _, PosInf => true
  | Fin p, Fin q => Qle_bool p q
  | _, _ => false
  end.

Definition number_of_float (f : float) : number :=
  match f with
  | Float m e => Fin (inject_Z m * Qpower 2 e)
  | FloatInf sign => if sign then NegInf else PosInf
  | FloatNaN => NumNaN
  end.

Definition number_of_Decimal (d : Decimal) : number :=
  match d with
  | Finite sign c e =>
      Fin (inject_Z (if sign then - Z.of_N c else Z.of_N c) * Qpower 10 e)
  | Infinity sign => if sign then NegInf else PosInf
  | NaN _ _ _ => NumNaN
  end.

Definition number_of_value (v : value) : option number :=
  match v with
  | VInt z => Some (Fin (inject_Z z))
  | VFloat f => Some (number_of_float f)
  | VDecimal d => Some (number_of_Decimal d)
  | VDecimal128 x =>
      match to_decimal x with
      | Ok d => Some (number_of_Decimal d)
      | Raise _ => None
      end
  | _ => None
  end.

(** The price a document stores, as a number. *)
Definition price_number (doc : gmap string value) : option number :=
  doc !! "price" ≫= number_of_value.

(** Modelled from the spec: the filter of [query] (section 4.4 of the
    specification: [price >= price_min] and/or [price <= price_max], each
    bound independently omittable). *)
Definition price_filter (price_min price_max : option float)
    (doc : gmap string value) : bool :=
  match price_min with
  | None => true
  | Some x =>
      match price_number doc with
      | Some p => number_le (number_of_float x) p
      | None => false
      end
  end
  &&
  match price_max with
  | None => true
  | Some y =>
      match price_number doc with
      | Some p => number_le p (number_of_float y)
      | None => false
      end
  end.

Definition has_id (id : UUID) (doc : gmap string value) : bool :=
  bool_decide (doc !! "id" = Some (VUUID id)).

(** Modelled from the spec: [find_many(filter)] of the storage
    collaborator (section 6). *)
Definition find_many (filter : gmap string value -> bool) (db : database)
    : list (gmap string value) :=
  List.filter filter db.

(** Modelled from the spec: [update_one(id, patch)] of the storage
    collaborator: the patch merged into the document [id], the fields of
    the patch overwriting the stored ones; the merged document, or
    nothing when no document has that id. *)
Fixpoint update_one (id : UUID) (patch : gmap string value) (db : database)
    : option (gmap string value * database) :=
  match db with
  | [] => None
  | doc :: db' =>
      if has_id id doc then Some (patch ∪ doc, (patch ∪ doc) :: db')
      else
        match update_one id patch db' with
        | Some (merged, db'') => Some (merged, doc :: db'')
        | None => None
        end
  end.

(** Modelled from the spec: [delete_one(id)] of the storage collaborator:
    the number of documents affected, and the collection afterwards. *)
Fixpoint delete_one (id : UUID) (db : database) : nat * database :=
  match db with
  | [] => (O, [])
  | doc :: db' =>
      if has_id id doc then (1%nat, db')
      else let '(n, db'') := delete_one id db' in (n, doc :: db'')
  end.

(** Modelled from the spec: how a stored document is read back
    ([OutSchema] of [store/schemas/base.py] is not among the sources): a
    stored high-precision decimal becomes a decimal again, the other
    fields are taken as they are. *)
Definition set_schema (data : gmap string value) : gmap string value :=
  (fun v =>
     match v with
     | VDecimal128 x =>
         match to_decimal x with
         | Ok d => VDecimal d
         | Raise _ => v
         end
     | _ => v
     end) <$> data.

(** Modelled from the spec: the Output Form of a stored document. *)
Definition output_form `{!Conversions} (doc : gmap string value)
    : result ProductOut.t :=
  ProductOut_init (set_schema doc).

(** [getattr(body, field)], when [field] is a field of [ProductUpdate]
    and is not [None]. *)
Definition getattr (body : ProductUpdate.t) (field : string) : option value :=
  if decide (field = "quantity") then VInt <$> ProductUpdate.quantity body
  else if decide (field = "price") then VDecimal128 <$> ProductUpdate.price body
  else if decide (field = "status") then VBool <$> ProductUpdate.status body
  else if decide (field = "updated_at")
       then VDatetime <$> ProductUpdate.updated_at body
  else None.

(** Modelled from the spec: [build_patch] (section 4.3): the mapping of
    the fields of the Update Input that are set to their values. *)
Definition build_patch (body : ProductUpdate.t) : gmap string value :=
  list_to_map
    (omap (fun field => pair field <$> getattr body field)
          ProductUpdate.model_fields).

Section ProductUsecase.
Context `{!Conversions}.
(** The text a [NotFoundException] for an identifier carries. *)
Variable not_found_message : UUID -> string.

(** Modelled from the spec: [get] (section 4.4). *)
Definition get (id : UUID) : action database ProductOut.t :=
  fun db =>
    match List.find (has_id id) db with
    | None => (Raise (NotFoundException (not_found_message id)), db)
    | Some doc => (output_form doc, db)
    end.

(** Modelled from the spec: [query] (section 4.4): the Output Forms of
    the documents the filter keeps, in storage order. *)
Definition query (price_min price_max : option float)
    : action database (list ProductOut.t) :=
  fun db =>
    (mapM output_form (find_many (price_filter price_min price_max) db),
     db).

(** Modelled from the spec: [update] (section 4.4): the patch of 4.3
    applied by the store; [NotFoundError] when the document is absent,
    else the Update Output view of the merged document. *)
Definition update (id : UUID) (body : ProductUpdate.t)
    : action database ProductOut.t :=
  fun db =>
    match update_one id (build_patch body) db with
    | None => (Raise (NotFoundException (not_found_message id)), db)
    | Some (merged, db') => (output_form merged, db')
    end.

(** Modelled from the spec: [delete] (section 4.4): [NotFoundError]
    when no document was affected, else a confirmation. *)
Definition delete (id : UUID) : action database bool :=
  fun db =>
    match delete_one id db with
    | (O, db') => (Raise (NotFoundException (not_found_message id)), db')
    | (_, db') => (Ok true, db')
    end.
End ProductUsecase.

End usecases.

(** ** [store/controllers/product.py] *)

Module status.
Definition HTTP_200_OK : Z := 200.
Definition HTTP_201_CREATED : Z := 201.
Definition HTTP_204_NO_CONTENT : Z := 204.
Definition HTTP_400_BAD_REQUEST : Z := 400.
Definition HTTP_404_NOT_FOUND : Z := 404.
Definition HTTP_422_UNPROCESSABLE_ENTITY : Z := 422.
Definition HTTP_500_INTERNAL_SERVER_ERROR : Z := 500.
End status.

(** The use case a route receives through [Depends()]: its five
    operations, over whatever store it talks to. *)
Module ProductUsecase.
Import schemas usecases.
Record t (S : Type) := mk {
  create : ProductIn.t -> action S ProductOut.t;
  get : UUID -> action S ProductOut.t;
  query : option float -> option float -> action S (list ProductOut.t);
  update : UUID -> ProductUpdate.t -> action S ProductOut.t;
  delete : UUID -> action S bool;
}.
Arguments mk {S}.
Arguments create {S}.
Arguments get {S}.
Arguments query {S}.
Arguments update {S}.
Arguments delete {S}.
End ProductUsecase.

Module controllers.
Import pydantic schemas usecases status.

(** [try: ... except E as exc: raise ...]: the handler names the
    exception raised instead, for the exceptions the clause catches. *)
Definition try_except {S A} (body : action S A) (handler : exn -> option exn)
    : action S A :=
  fun s =>
    match body s with
    | (Raise exc, s') =>
        match handler exc with
        | Some exc' => (Raise exc', s')
        | None => (Raise exc, s')
        end
    | r => r
    end.

Definition except_InsertionException (exc : exn) : option exn :=
  match exc with
  | InsertionException message =>
      Some (HTTPException HTTP_400_BAD_REQUEST message)
  | _ => None
  end.

Definition except_NotFoundException (exc : exn) : option exn :=
  match exc with
  | NotFoundException message =>
      Some (HTTPException HTTP_404_NOT_FOUND message)
  | _ => None
  end.

(** [body.updated_at = ...] *)
Definition set_updated_at (body : ProductUpdate.t) (v : option datetime)
    : ProductUpdate.t :=
  ProductUpdate.mk (ProductUpdate.quantity body) (ProductUpdate.price body)
    (ProductUpdate.status body) v.

Section router.
Context `{!Conversions} {S : Type}.
Variable usecase : ProductUsecase.t S.

Definition post (body : ProductIn.t) : action S ProductOut.t :=
  try_except (ProductUsecase.create usecase body) except_InsertionException.

Definition get (id : UUID) : action S ProductOut.t :=
  try_except (ProductUsecase.get usecase id) except_NotFoundException.

(** Line 42 of the source closes the return annotation of [query] as
    [List<ProductOut]], which Python does not parse; the handler is
    embedded with the annotation read as [List[ProductOut]]. *)
Definition query (price_min price_max : option float)
    : action S (list ProductOut.t) :=
  ProductUsecase.query usecase price_min price_max.

(** [utcnow] is what [datetime.utcnow()] returns when the route runs. *)
Definition patch (id : UUID) (body : ProductUpdate.t) (utcnow : datetime)
    : action S ProductOut.t :=
  try_except
    (let body := set_updated_at body (Some utcnow) in
     ProductUsecase.update usecase id body)
    except_NotFoundException.

Definition delete (id : UUID) : action S unit :=
  try_except
    (fun s => let '(r, s') := ProductUsecase.delete usecase id s in
              (_ ← r; Ok tt, s'))
    except_NotFoundException.

(** The status FastAPI answers with: the route's own on success, the
    one an [HTTPException] carries, 500 for any other exception. *)
Definition response_status {A} (status_code : Z) (r : result A) : Z :=
  match r with
  | Ok _ => status_code
  | Raise (HTTPException status_code' _) => status_code'
  | Raise _ => HTTP_500_INTERNAL_SERVER_ERROR
  end.

(** The [PATCH /{id}] route on a request body: [Body(...)] builds the
    [ProductUpdate] first, and a validation error there is answered
    with 422 before [patch] runs. [id] is the identifier the path
    parameter was read as. *)
Definition patch_route (id : UUID) (data : gmap string value)
    (utcnow : datetime) : S -> Z * S :=
  fun s =>
    match ProductUpdate_init data with
    | Ok body =>
        let '(r, s') := patch id body utcnow s in
        (response_status HTTP_200_OK r, s')
    | Raise (ValidationError _) => (HTTP_422_UNPROCESSABLE_ENTITY, s)
    | Raise _ => (HTTP_500_INTERNAL_SERVER_ERROR, s)
    end.

(** The [DELETE /{id}] route. *)
Definition delete_route (id : UUID) : S -> Z * S :=
  fun s =>
    let '(r, s') := delete id s in
    (response_status HTTP_204_NO_CONTENT r, s').

(** The [POST /] route on a request body: [Body(...)] builds the
    [ProductIn] first. *)
Definition post_route (data : gmap string value) : S -> Z * S :=
  fun s =>
    match ProductIn_init data with
    | Ok body =>
        let '(r, s') := post body s in
        (response_status HTTP_201_CREATED r, s')
    | Raise (ValidationError _) => (HTTP_422_UNPROCESSABLE_ENTITY, s)
    | Raise _ => (HTTP_500_INTERNAL_SERVER_ERROR, s)
    end.

(** The [GET /{id}] route. *)
Definition get_route (id : UUID) : S -> Z * S :=
  fun s =>
    let '(r, s') := get id s in
    (response_status HTTP_200_OK r, s').

(** The [GET /] route. *)
Definition query_route (price_min price_max : option float) : S -> Z * S :=
  fun s =>
    let '(r, s') := query price_min price_max s in
    (response_status HTTP_200_OK r, s').
End router.

(** Modelled from the spec: the use case the routes depend on
    ([store/usecases/product.py] is not among the sources), made of the
    operations above; its [create] is left to the caller. *)
Definition usecase `{!Conversions} (not_found_message : UUID -> string)
    (create : ProductIn.t -> action database ProductOut.t)
    : ProductUsecase.t database :=
  ProductUsecase.mk create
    (usecases.get not_found_message)
    usecases.query
    (usecases.update not_found_message)
    (usecases.delete not_found_message).

End controllers.

(** ** Predicates the statements use *)

Module facts.
Import decimal bson pydantic usecases.

(** A string of decimal digits only. *)
Fixpoint digits_only (s : string) : Prop :=
  match s with
  | "" => True
  | String a s' => is_digit a = true /\ digits_only s'
  end.

(** A string that does not go on with a digit. *)
Definition no_digit_ahead (s : string) : Prop :=
  match s with
  | "" => True
  | String a _ => is_digit a = false
  end.

(** What [Decimal.__str__] prints after the sign, for a finite value. *)
Definition unsigned_str (c : N) (e : Z) : string :=
  Decimal_str (Finite false c e).

(** Two finite decimals with the same numeric value: [c * 10 ^ e] and
    [c' * 10 ^ e'], compared after scaling both by the smaller exponent. *)
Definition same_value (c : N) (e : Z) (c' : N) (e' : Z) : Prop :=
  Z.of_N c * 10 ^ (e - Z.min e e') = Z.of_N c' * 10 ^ (e' - Z.min e e').

(** The finite decimals the Decimal128 context holds as they are: at most
    34 digits, exponent from [Etiny] to [Etop]. *)
Definition canonical (c : N) (e : Z) : Prop :=
  Z.of_N c < 10 ^ _MAX_DIGITS /\ Etiny <= e <= Etop.

(** A finite decimal some Decimal128 has the value of. *)
Definition representable (c : N) (e : Z) : Prop :=
  exists c' e', canonical c' e' /\ same_value c e c' e'.

(** A magnitude of at least [(10 ^ 34 - 1/2) * 10 ^ Etop]: rounded to 34
    digits it would need an exponent above [Etop]. Both sides are
    doubled and scaled by the smaller exponent. *)
Definition overflows (c : N) (e : Z) : Prop :=
  (2 * 10 ^ _MAX_DIGITS - 1) * 10 ^ (Etop - Z.min e Etop)
  <= 2 * Z.of_N c * 10 ^ (e - Z.min e Etop).

(** A bound and a price the store compares as equal: each is at most the
    other. *)
Definition same_number (x y : number) : bool :=
  number_le x y && number_le y x.

(** A double [m * 2 ^ e] with a significand of 53 bits that lies within
    half a unit in the last place of the decimal [c / 10 ^ k]: what the
    text of that decimal is read as when it is read as a [float]. *)
Definition rounds_to (c k : Z) (f : float) : Prop :=
  match f with
  | Float m e =>
      2 ^ 52 <= m < 2 ^ 53 /\ e <= 0
      /\ 2 * Z.abs (10 ^ k * m - c * 2 ^ (- e)) <= 10 ^ k
  | _ => False
  end.

End facts.

(** ** Sample data *)

Module samples.
Import decimal bson pydantic schemas usecases.

(** Two version 4 identifiers. *)
Definition widget_id : UUID := 0x00000000000040008000000000000007%N.
Definition other_id : UUID := 0x00000000000040008000000000000008%N.

(** A stored product: ten widgets at 19.99. *)
Definition widget : gmap string value :=
  {[ "id" := VUUID widget_id;
     "name" := VStr "Widget";
     "quantity" := VInt 10;
     "price" := VDecimal128 {| high := 0x303C000000000000; low := 1999 |};
     "status" := VBool true;
     "created_at" := VDatetime 100;
     "updated_at" := VDatetime 100 ]}.

(** The double a bound of 19.99 is read as, [0x1.3fd70a3d70a3dp+4]. *)
Definition float_19_99 : float := Float 5626684784446013 (-48).

Definition not_found_message (id : UUID) : string :=
  "Product not found with filter: " +:+ decimal.str_N id.

(** A [create] that the store always rejects. *)
Definition rejected_create (body : ProductIn.t)
    : action database ProductOut.t :=
  fun db => (Raise (InsertionException "Insertion Error"), db).

End samples.

(** * Properties *)

Import decimal bson pydantic schemas usecases controllers facts samples.


(** ** Digit strings *)

Lemma append_nil_l s : "" +:+ s = s.
Proof. reflexivity. Qed.

Lemma append_cons a s t : String a s +:+ t = String a (s +:+ t).
Proof. reflexivity. Qed.

Lemma append_nil_r s : s +:+ "" = s.
Proof. induction s as [|a s IH]; [done|]. by rewrite append_cons, IH. Qed.

Lemma append_assoc s t u : (s +:+ t) +:+ u = s +:+ t +:+ u.
Proof. induction s as [|a s IH]; [done|]. by rewrite !append_cons, IH. Qed.

Lemma length_append s t :
  String.length (s +:+ t) = (String.length s + String.length t)%nat.
Proof. induction s as [|a s IH]; [done|]. rewrite append_cons. simpl. by rewrite IH. Qed.

Lemma digits_only_append s t :
  digits_only s -> digits_only t -> digits_only (s +:+ t).
Proof.
  induction s as [|a s IH]; [done|]. rewrite append_cons. simpl. intros [? ?] ?. auto.
Qed.

Lemma digits_only_zeros n : digits_only (zeros n).
Proof. induction n; simpl; auto. Qed.

Lemma length_zeros n : String.length (zeros n) = n.
Proof. induction n; simpl; auto. Qed.

Lemma digits_only_string_of_uint d : digits_only (NilEmpty.string_of_uint d).
Proof. induction d; simpl; auto. Qed.

Lemma str_N_unfold n :
  str_N n = NilEmpty.string_of_uint (N.to_uint n) /\ N.to_uint n <> Decimal.Nil.
Proof.
  unfold str_N. destruct n as [|p]; [done|]. simpl.
  pose proof (DecimalPos.Unsigned.to_uint_nonnil p) as H.
  unfold NilZero.string_of_uint. by destruct (Pos.to_uint p).
Qed.

Lemma digits_only_str_N n : digits_only (str_N n).
Proof.
  destruct (str_N_unfold n) as [-> _]. apply digits_only_string_of_uint.
Qed.

Lemma str_N_nonempty n : str_N n <> "".
Proof.
  destruct (str_N_unfold n) as [-> H]. by destruct (N.to_uint n).
Qed.

Lemma span_digits_append ds rest :
  digits_only ds -> no_digit_ahead rest -> span_digits (ds +:+ rest) = (ds, rest).
Proof.
  induction ds as [|a ds IH]; intros Hd Hr.
  - rewrite append_nil_l. destruct rest as [|b rest]; [done|].
    simpl in *. by rewrite Hr.
  - rewrite append_cons. destruct Hd as [Ha Hd]. simpl. by rewrite Ha, IH.
Qed.

Lemma span_digits_all ds : digits_only ds -> span_digits ds = (ds, "").
Proof.
  intros H. rewrite <- (append_nil_r ds) at 1. by apply span_digits_append.
Qed.

Lemma uint_of_string_digits s :
  digits_only s -> exists u, NilEmpty.uint_of_string s = Some u.
Proof.
  induction s as [|a s IH]; [by exists Decimal.Nil|].
  intros [Ha Hs]. destruct (IH Hs) as [u Hu]. simpl. rewrite Hu.
  destruct a as [[] [] [] [] [] [] [] []]; try discriminate; simpl; eauto.
Qed.

Lemma int_of_digits_str_N n : int_of_digits (str_N n) = n.
Proof.
  destruct (str_N_unfold n) as [-> _]. unfold int_of_digits.
  rewrite NilEmpty.usu. apply Unsigned.of_to.
Qed.

Lemma int_of_digits_zero s :
  digits_only s -> int_of_digits (String "0" s) = int_of_digits s.
Proof.
  intros [u Hu]%uint_of_string_digits. unfold int_of_digits. simpl. by rewrite Hu.
Qed.

Lemma int_of_digits_zeros n s :
  digits_only s -> int_of_digits (zeros n +:+ s) = int_of_digits s.
Proof.
  intros Hs. induction n as [|n IH]; [done|].
  simpl. rewrite append_cons, int_of_digits_zero; [done|].
  by apply digits_only_append; [apply digits_only_zeros|].
Qed.

Lemma digits_only_substring n m s : digits_only s -> digits_only (substring n m s).
Proof.
  revert n m. induction s as [|a s IH]; intros n m Hs.
  - by destruct n, m.
  - destruct Hs as [Ha Hs]. destruct n as [|n]; [destruct m as [|m]|]; simpl; auto.
Qed.

Lemma substring_split k s :
  (k <= String.length s)%nat ->
  substring 0 k s +:+ substring k (String.length s - k) s = s.
Proof.
  revert s. induction k as [|k IH]; intros s Hk.
  - rewrite Nat.sub_0_r. destruct s as [|a s]; [done|].
    simpl. rewrite append_nil_l. f_equal.
    clear Hk. induction s as [|b s IHs]; [done|]. simpl. by rewrite IHs.
  - destruct s as [|a s]; [simpl in Hk; lia|].
    simpl. rewrite append_cons. f_equal. apply IH. simpl in Hk. lia.
Qed.

Lemma length_substring_0 k s :
  (k <= String.length s)%nat -> String.length (substring 0 k s) = k.
Proof.
  revert s. induction k as [|k IH]; intros s Hk.
  - by destruct s.
  - destruct s as [|a s]; [simpl in Hk; lia|].
    simpl. rewrite IH; [done|]. simpl in Hk. lia.
Qed.

Lemma length_substring_tail k s :
  (k <= String.length s)%nat ->
  String.length (substring k (String.length s - k) s) = (String.length s - k)%nat.
Proof.
  intros Hk. pose proof (substring_split k s Hk) as H.
  apply (f_equal String.length) in H. rewrite length_append in H.
  rewrite length_substring_0 in H by done. lia.
Qed.

Lemma span_digits_str_N n rest :
  no_digit_ahead rest -> span_digits (str_N n +:+ rest) = (str_N n, rest).
Proof. apply span_digits_append, digits_only_str_N. Qed.

Lemma is_empty_str_N n : is_empty (str_N n) = false.
Proof. pose proof (str_N_nonempty n). by destruct (str_N n). Qed.

Lemma str_N_head_digit n :
  exists a s, str_N n = String a s /\ is_digit a = true.
Proof.
  pose proof (digits_only_str_N n) as H. pose proof (str_N_nonempty n) as Hn.
  destruct (str_N n) as [|a s]; [done|]. destruct H. eauto.
Qed.

Lemma parse_exponent_str_signed x : parse_exponent (str_signed x) = Some x.
Proof.
  unfold str_signed, parse_exponent.
  destruct (Z.ltb_spec x 0) as [Hx|Hx]; rewrite append_cons, append_nil_l.
  - rewrite span_digits_all by apply digits_only_str_N.
    rewrite is_empty_str_N, int_of_digits_str_N. simpl. f_equal. lia.
  - rewrite span_digits_all by apply digits_only_str_N.
    rewrite is_empty_str_N, int_of_digits_str_N. simpl. f_equal. lia.
Qed.

(** The numbers [Decimal.__str__] prints are read back as they were. *)
Lemma parse_number_intpart_exp ds x :
  digits_only ds -> ds <> "" ->
  parse_number (ds +:+ "E" +:+ str_signed x)
  = Some (int_of_digits ds, x).
Proof.
  intros Hd Hne. unfold parse_number.
  rewrite span_digits_append by done.
  rewrite append_cons, append_nil_l.
  assert (is_empty ds = false) as -> by by destruct ds.
  simpl. rewrite parse_exponent_str_signed. rewrite append_nil_r.
  f_equal. f_equal. lia.
Qed.

Lemma parse_number_intpart ds :
  digits_only ds -> ds <> "" ->
  parse_number ds = Some (int_of_digits ds, 0).
Proof.
  intros Hd Hne. unfold parse_number.
  rewrite span_digits_all by done.
  assert (is_empty ds = false) as -> by by destruct ds.
  simpl. by rewrite append_nil_r.
Qed.

Lemma parse_number_frac ds fs :
  digits_only ds -> digits_only fs -> ds <> "" ->
  parse_number (ds +:+ "." +:+ fs)
  = Some (int_of_digits (ds +:+ fs), - Z.of_nat (String.length fs)).
Proof.
  intros Hd Hf Hne. unfold parse_number.
  rewrite span_digits_append by done.
  rewrite append_cons, append_nil_l.
  rewrite span_digits_all by done.
  assert (is_empty ds = false) as -> by by destruct ds.
  simpl. done.
Qed.

Lemma parse_number_frac_exp ds fs x :
  digits_only ds -> digits_only fs -> ds <> "" ->
  parse_number (ds +:+ ("." +:+ fs) +:+ "E" +:+ str_signed x)
  = Some (int_of_digits (ds +:+ fs), x - Z.of_nat (String.length fs)).
Proof.
  intros Hd Hf Hne. unfold parse_number.
  rewrite span_digits_append by done.
  rewrite !append_cons, !append_nil_l.
  rewrite span_digits_append by done.
  assert (is_empty ds = false) as -> by by destruct ds.
  simpl. by rewrite parse_exponent_str_signed.
Qed.

Lemma Decimal_of_str_unsigned a r :
  is_digit a = true ->
  Decimal_of_str (String a r)
  = match parse_number (String a r) with
    | Some (c, e) => Some (Finite false c e)
    | None => parse_special false (String a r)
    end.
Proof.
  destruct a as [[] [] [] [] [] [] [] []]; try discriminate; reflexivity.
Qed.

Lemma ndigits_pos c : 1 <= ndigits c.
Proof.
  unfold ndigits. pose proof (str_N_nonempty c).
  destruct (str_N c); [done|]. simpl. lia.
Qed.

Lemma Decimal_str_sign s c e :
  Decimal_str (Finite s c e) = sign_str s +:+ unsigned_str c e.
Proof. unfold unsigned_str. by destruct s. Qed.

Lemma unsigned_str_head c e :
  exists a r, unsigned_str c e = String a r /\ is_digit a = true.
Proof.
  unfold unsigned_str, Decimal_str. rewrite append_nil_l.
  destruct (str_N_head_digit c) as (a & r & Hs & Ha).
  pose proof (ndigits_pos c) as Hn.
  destruct (_ <=? 0) eqn:H0.
  { rewrite append_cons. eauto. }
  destruct (ndigits c <=? _) eqn:H1.
  { rewrite Hs, !append_cons. eauto. }
  apply Z.leb_gt in H0, H1.
  set (dp := if _ && _ then _ else _) in *.
  destruct (Z.to_nat dp) as [|k] eqn:Hk; [lia|].
  rewrite Hs. simpl. rewrite append_cons. eauto.
Qed.

Lemma parse_number_unsigned_str c e :
  parse_number (unsigned_str c e) = Some (c, e).
Proof.
  unfold unsigned_str, Decimal_str. rewrite append_nil_l.
  pose proof (ndigits_pos c) as Hn.
  pose proof (digits_only_str_N c) as Hd.
  pose proof (str_N_nonempty c) as Hne.
  assert (Hlen : ndigits c = Z.of_nat (String.length (str_N c))) by done.
  destruct ((e <=? 0) && (-6 <? e + ndigits c)) eqn:Hcase.
  - (* positional notation *)
    apply andb_true_iff in Hcase as [He Hl]. apply Z.leb_le in He.
    rewrite Z.eqb_refl, !append_nil_r.
    destruct (Z.leb_spec (e + ndigits c) 0) as [Hdp|Hdp].
    + rewrite parse_number_frac;
        [|done|apply digits_only_append; [apply digits_only_zeros|done]|done].
      rewrite append_cons, append_nil_l.
      rewrite int_of_digits_zero
        by (apply digits_only_append; [apply digits_only_zeros|done]).
      rewrite int_of_digits_zeros, int_of_digits_str_N by done.
      rewrite length_append, length_zeros. f_equal. f_equal. lia.
    + destruct (Z.leb_spec (ndigits c) (e + ndigits c)) as [Hfull|Hfrac].
      * assert (e = 0) as -> by lia.
        replace (0 + ndigits c - ndigits c) with 0 by lia. simpl zeros.
        rewrite !append_nil_r.
        by rewrite parse_number_intpart, int_of_digits_str_N.
      * rewrite parse_number_frac;
          [|by apply digits_only_substring..|].
        2:{ destruct (Z.to_nat (e + ndigits c)) as [|k] eqn:Hk; [lia|].
            destruct (str_N c); [done|]. done. }
        replace (Z.to_nat (ndigits c - (e + ndigits c)))
          with (String.length (str_N c) - Z.to_nat (e + ndigits c))%nat by lia.
        rewrite substring_split by lia.
        rewrite length_substring_tail by lia.
        rewrite int_of_digits_str_N. f_equal. f_equal. lia.
  - (* scientific notation *)
    assert (Hexp : (e + ndigits c =? 1) = false).
    { apply Z.eqb_neq. intros H1.
      apply andb_false_iff in Hcase as [H|H];
        [apply Z.leb_gt in H|apply Z.ltb_ge in H]; lia. }
    rewrite Hexp. change (1 <=? 0) with false. cbv iota.
    destruct (Z.leb_spec (ndigits c) 1) as [Hone|Hmany].
    + replace (1 - ndigits c) with 0 by lia. simpl zeros. rewrite !append_nil_r.
      rewrite append_nil_l.
      rewrite parse_number_intpart_exp, int_of_digits_str_N by done.
      f_equal. f_equal. lia.
    + rewrite parse_number_frac_exp;
        [|by apply digits_only_substring..|].
      2:{ destruct (str_N c); [done|]. done. }
      replace (Z.to_nat (ndigits c - 1))
        with (String.length (str_N c) - Z.to_nat 1)%nat by lia.
      rewrite substring_split by lia.
      rewrite length_substring_tail by lia.
      rewrite int_of_digits_str_N. f_equal. f_equal. lia.
Qed.

(** Reading back what [Decimal.__str__] printed gives the same sign,
    coefficient and exponent. *)
Lemma Decimal_of_str_Decimal_str s c e :
  Decimal_of_str (Decimal_str (Finite s c e)) = Some (Finite s c e).
Proof.
  rewrite Decimal_str_sign.
  destruct (unsigned_str_head c e) as (a & r & Hu & Ha).
  destruct s; simpl sign_str.
  - rewrite append_cons, append_nil_l. unfold Decimal_of_str.
    by rewrite parse_number_unsigned_str.
  - rewrite append_nil_l, Hu, Decimal_of_str_unsigned by done.
    by rewrite <- Hu, parse_number_unsigned_str.
Qed.

Lemma Decimal_str_inj s c e s' c' e' :
  Decimal_str (Finite s c e) = Decimal_str (Finite s' c' e') ->
  Finite s c e = Finite s' c' e'.
Proof.
  intros H. apply (f_equal Decimal_of_str) in H.
  rewrite !Decimal_of_str_Decimal_str in H. congruence.
Qed.

(** ** The number of digits of a coefficient *)

Lemma length_string_of_uint d :
  String.length (NilEmpty.string_of_uint d) = Decimal.nb_digits d.
Proof. induction d; simpl; auto. Qed.

Lemma of_uint_acc_bounds d acc :
  Z.pos acc * 10 ^ Z.of_nat (Decimal.nb_digits d)
  <= Z.pos (Pos.of_uint_acc d acc)
  < (Z.pos acc + 1) * 10 ^ Z.of_nat (Decimal.nb_digits d).
Proof.
  revert acc. induction d as [|d IH|d IH|d IH|d IH|d IH|d IH|d IH|d IH|d IH|d IH];
    intros acc; cbn [Pos.of_uint_acc Decimal.nb_digits];
    [rewrite Z.pow_0_r; lia|..];
    rewrite Nat2Z.inj_succ, Z.pow_succ_r by lia;
    match goal with
    | |- context [Pos.of_uint_acc ?l ?a] =>
        specialize (IH a);
        assert (0 < 10 ^ Z.of_nat (Decimal.nb_digits l))
          by (apply Z.pow_pos_nonneg; lia)
    end;
    nia.
Qed.

Lemma nzhead_not_D0 d d' : Decimal.nzhead d <> Decimal.D0 d'.
Proof. induction d; simpl; try discriminate; auto. Qed.

Lemma of_uint_bounds d :
  Decimal.nzhead d = d -> d <> Decimal.Nil ->
  10 ^ (Z.of_nat (Decimal.nb_digits d) - 1)
  <= Z.of_N (N.of_uint d)
  < 10 ^ Z.of_nat (Decimal.nb_digits d).
Proof.
  intros Hh Hn. destruct d as [|d|d|d|d|d|d|d|d|d|d]; [done|..].
  { exfalso. by apply (nzhead_not_D0 (Decimal.D0 d) d). }
  all: cbn [N.of_uint Pos.of_uint Decimal.nb_digits Z.of_N];
    rewrite Nat2Z.inj_succ;
    match goal with
    | |- context [Pos.of_uint_acc ?l ?a] =>
        pose proof (of_uint_acc_bounds l a);
        assert (0 < 10 ^ Z.of_nat (Decimal.nb_digits l))
          by (apply Z.pow_pos_nonneg; lia);
        replace (Z.succ (Z.of_nat (Decimal.nb_digits l)) - 1)
          with (Z.of_nat (Decimal.nb_digits l)) by lia
    end;
    rewrite Z.pow_succ_r by lia;
    nia.
Qed.

Lemma to_uint_nzhead p : Decimal.nzhead (Pos.to_uint p) = Pos.to_uint p.
Proof.
  pose proof (Unsigned.to_of (N.to_uint (N.pos p))) as H.
  rewrite Unsigned.of_to in H. simpl in H.
  pose proof (DecimalPos.Unsigned.to_uint_nonzero p) as Hz.
  unfold Decimal.unorm in H.
  destruct (Decimal.nzhead (Pos.to_uint p)); congruence.
Qed.

Lemma ndigits_0 : ndigits 0 = 1.
Proof. reflexivity. Qed.

Lemma ndigits_bounds c :
  c <> 0%N -> 10 ^ (ndigits c - 1) <= Z.of_N c < 10 ^ ndigits c.
Proof.
  intros Hc. destruct c as [|p]; [done|].
  unfold ndigits. destruct (str_N_unfold (N.pos p)) as [-> Hn].
  rewrite length_string_of_uint.
  rewrite <- (Unsigned.of_to (N.pos p)) at 2 3.
  apply of_uint_bounds; [apply to_uint_nzhead|done].
Qed.

Lemma ndigits_le c n : Z.of_N c < 10 ^ n -> 1 <= n -> ndigits c <= n.
Proof.
  intros Hc Hn. destruct (N.eq_dec c 0%N) as [->|H0]; [by rewrite ndigits_0|].
  destruct (ndigits_bounds c H0) as [Hlo _].
  destruct (Z.le_gt_cases (ndigits c) n) as [|Hgt]; [done|].
  assert (10 ^ n <= 10 ^ (ndigits c - 1)) by (apply Z.pow_le_mono_r; lia). lia.
Qed.

Lemma ndigits_lt_pow c : Z.of_N c < 10 ^ ndigits c.
Proof.
  destruct (N.eq_dec c 0%N) as [->|H0]; [done|]. by apply ndigits_bounds.
Qed.

(** ** Rounding to the Decimal128 context *)

Lemma pow10_N k : 0 <= k -> Z.of_N (10 ^ Z.to_N k) = 10 ^ k.
Proof. intros Hk. rewrite N2Z.inj_pow, Z2N.id by done. done. Qed.

Lemma pow10_pos k : 0 <= k -> 0 < 10 ^ k.
Proof. intros. apply Z.pow_pos_nonneg; lia. Qed.

Lemma context_bounds :
  _MAX_DIGITS = 34 /\ Etiny = -6176 /\ Etop = 6111 /\ _EXPONENT_BIAS = 6176.
Proof. done. Qed.

Lemma _fix_canonical s c e :
  canonical c e -> _fix (Finite s c e) = Ok (Finite s c e).
Proof.
  intros [Hc He]. destruct context_bounds as (Hd & Hi & Ht & _).
  unfold _fix. destruct (N.eqb_spec c 0) as [->|H0].
  - do 2 f_equal. lia.
  - assert (ndigits c <= _MAX_DIGITS) by (apply ndigits_le; lia).
    rewrite (proj2 (Z.ltb_ge _ _)) by lia.
    rewrite (proj2 (Z.ltb_ge _ _)) by lia.
    by rewrite (proj2 (Z.ltb_ge _ _)) by lia.
Qed.

Lemma _fix_Ok s c e d :
  _fix (Finite s c e) = Ok d ->
  exists c' e',
    d = Finite s c' e' /\ canonical c' e' /\ same_value c e c' e'.
Proof.
  destruct context_bounds as (Hd & Hi & Ht & _).
  unfold _fix, canonical, same_value.
  destruct (N.eqb_spec c 0) as [->|H0].
  { intros [= <-]. eexists _, _. split; [done|]. rewrite Hd. repeat split; lia. }
  pose proof (ndigits_lt_pow c) as Hlt. pose proof (ndigits_pos c) as Hn1.
  destruct (Z.ltb_spec Etop (ndigits c + e - _MAX_DIGITS)) as [|Hov]; [done|].
  destruct (Z.ltb_spec e (Z.max (ndigits c + e - _MAX_DIGITS) Etiny))
    as [Hround|Hnoround].
  - set (exp_min := Z.max (ndigits c + e - _MAX_DIGITS) Etiny) in *.
    set (k := exp_min - e) in *.
    destruct (N.eqb_spec (c mod 10 ^ Z.to_N k) 0) as [Hexact|];
      [|by repeat match goal with
                  | |- context [if ?b then _ else _] => destruct b
                  end].
    intros [= <-]. eexists _, _. split; [done|].
    assert (Hk : 0 < k) by (unfold k; lia).
    assert (Hp : 0 < 10 ^ k) by (apply pow10_pos; lia).
    assert (Hdiv : Z.of_N c = Z.of_N (c / 10 ^ Z.to_N k) * 10 ^ k).
    { rewrite N2Z.inj_div, pow10_N by lia.
      apply (f_equal Z.of_N) in Hexact.
      rewrite N2Z.inj_mod, pow10_N in Hexact by lia.
      pose proof (Z.div_mod (Z.of_N c) (10 ^ k)). simpl in Hexact. lia. }
    repeat split.
    + assert (10 ^ ndigits c <= 10 ^ (_MAX_DIGITS + k))
        by (apply Z.pow_le_mono_r; unfold k, exp_min; lia).
      rewrite Z.pow_add_r in * by lia.
      set (q := Z.of_N (c / 10 ^ Z.to_N k)) in *. nia.
    + unfold exp_min. lia.
    + unfold exp_min. lia.
    + replace (Z.min e exp_min) with e by lia.
      replace (e - e) with 0 by lia. replace (exp_min - e) with k by done.
      rewrite Z.pow_0_r. lia.
  - destruct (Z.ltb_spec Etop e) as [Hfold|Hin]; intros [= <-];
      eexists _, _; (split; [done|]); repeat split; try lia.
    + rewrite N2Z.inj_mul, pow10_N by lia.
      assert (10 ^ (ndigits c + (e - Etop)) <= 10 ^ _MAX_DIGITS)
        by (apply Z.pow_le_mono_r; lia).
      rewrite Z.pow_add_r in * by lia.
      assert (0 < 10 ^ (e - Etop)) by (apply pow10_pos; lia). nia.
    + replace (Z.min e Etop) with Etop by lia.
      replace (Etop - Etop) with 0 by lia.
      rewrite N2Z.inj_mul, pow10_N, Z.pow_0_r by lia. lia.
    + assert (10 ^ ndigits c <= 10 ^ _MAX_DIGITS)
        by (apply Z.pow_le_mono_r; lia). lia.
Qed.

Lemma pow10_le a b : 0 <= a <= b -> 10 ^ a <= 10 ^ b.
Proof. intros. apply Z.pow_le_mono_r; lia. Qed.

(** A coefficient of [n] digits at exponent [e] is too large for a
    canonical decimal whose 34 digits end below [n + e]. *)
Lemma too_large_for_canonical c e c' e' :
  c <> 0%N -> canonical c' e' -> same_value c e c' e' ->
  ndigits c + e <= e' + _MAX_DIGITS.
Proof.
  intros H0 [Hc' He'] Hv. destruct context_bounds as (Hd & _).
  rewrite Hd in *. unfold same_value in Hv.
  destruct (Z.le_gt_cases (ndigits c + e) (e' + 34)) as [|Hgt]; [done|].
  exfalso. destruct (ndigits_bounds c H0) as [Hlo _].
  set (m := Z.min e e') in *.
  assert (Hm1 : 0 <= e - m) by (unfold m; lia).
  assert (Hm2 : 0 <= e' - m) by (unfold m; lia).
  pose proof (ndigits_pos c) as Hn.
  assert (H1 : 10 ^ (ndigits c - 1) * 10 ^ (e - m) <= Z.of_N c * 10 ^ (e - m)).
  { apply Z.mul_le_mono_nonneg_r; [apply Z.lt_le_incl, pow10_pos; lia|done]. }
  rewrite <- Z.pow_add_r in H1 by lia.
  assert (H2 : Z.of_N c' * 10 ^ (e' - m) < 10 ^ 34 * 10 ^ (e' - m)).
  { apply Z.mul_lt_mono_pos_r; [apply pow10_pos; lia|done]. }
  rewrite <- Z.pow_add_r in H2 by lia.
  assert (H3 : 10 ^ (34 + (e' - m)) <= 10 ^ (ndigits c - 1 + (e - m)))
    by (apply pow10_le; lia).
  lia.
Qed.

(** The context holds every representable decimal: rounding it raises
    nothing. *)
Lemma _fix_representable s c e :
  representable c e -> exists d, _fix (Finite s c e) = Ok d.
Proof.
  intros (c' & e' & Hcan & Hv). pose proof Hcan as [Hc' He'].
  destruct context_bounds as (Hd & Hi & Ht & _).
  unfold _fix. destruct (N.eqb_spec c 0) as [->|H0]; [eauto|].
  pose proof (too_large_for_canonical c e c' e' H0 Hcan Hv) as Hsize.
  destruct (Z.ltb_spec Etop (ndigits c + e - _MAX_DIGITS)) as [Hov|_]; [lia|].
  set (exp_min := Z.max (ndigits c + e - _MAX_DIGITS) Etiny).
  destruct (Z.ltb_spec e exp_min) as [Hround|_];
    [|destruct (Z.ltb_spec Etop e); eauto].
  assert (Hexp : exp_min <= e') by (unfold exp_min; lia).
  unfold same_value in Hv. rewrite Z.min_l in Hv by lia.
  replace (e - e) with 0 in Hv by lia. rewrite Z.pow_0_r, Z.mul_1_r in Hv.
  replace (e' - e) with ((e' - exp_min) + (exp_min - e)) in Hv by lia.
  rewrite Z.pow_add_r in Hv by lia.
  assert (Hmod : (c mod 10 ^ Z.to_N (exp_min - e))%N = 0%N).
  { apply N2Z.inj. rewrite N2Z.inj_mod, pow10_N by lia. rewrite Hv.
    rewrite Z.mul_assoc. apply Z.mod_mul.
    apply Z.neq_sym, Z.lt_neq, pow10_pos. lia. }
  rewrite Hmod. simpl. eauto.
Qed.

(** ** The BID encoding *)

Lemma testbit_above a n m :
  0 <= a < 2 ^ n -> n <= m -> Z.testbit a m = false.
Proof.
  intros [Ha Hlt] Hm. destruct (Z.eq_dec a 0) as [->|Hne].
  - apply Z.testbit_0_l.
  - apply Z.bits_above_log2; [done|].
    assert (Z.log2 a < n); [|lia].
    apply Z.log2_lt_pow2; lia.
Qed.

Lemma lor_shiftl_add a b n :
  0 <= n -> 0 <= a < 2 ^ n -> Z.lor a (Z.shiftl b n) = a + b * 2 ^ n.
Proof.
  intros Hn Ha. rewrite <- Z.shiftl_mul_pow2 by done.
  symmetry. apply Z.add_nocarry_lor.
  apply Z.bits_inj'. intros m Hm.
  rewrite Z.land_spec, Z.testbit_0_l.
  destruct (Z.lt_ge_cases m n) as [Hlt|Hge].
  - rewrite Z.shiftl_spec_low by done. apply andb_false_r.
  - by rewrite (testbit_above a n m).
Qed.

Lemma land_mask x w l :
  0 <= w -> 0 <= l ->
  Z.land x (Z.shiftl (Z.ones w) l) = (x / 2 ^ l) mod 2 ^ w * 2 ^ l.
Proof.
  intros Hw Hl.
  rewrite <- Z.shiftl_mul_pow2, <- Z.land_ones, <- Z.shiftr_div_pow2 by done.
  apply Z.bits_inj'. intros m Hm.
  rewrite Z.land_spec.
  destruct (Z.lt_ge_cases m l) as [Hlt|Hge].
  - rewrite !Z.shiftl_spec_low by done. apply andb_false_r.
  - rewrite !Z.shiftl_spec by done.
    rewrite Z.land_spec, Z.shiftr_spec by lia.
    by replace (m - l + l) with m by lia.
Qed.


Lemma land_bit x k :
  0 <= k -> Z.land x (Z.shiftl 1 k) = (x / 2 ^ k) mod 2 * 2 ^ k.
Proof. intros Hk. apply (land_mask x 1 k); lia. Qed.

Lemma copy_bits_spec x offset n :
  0 <= offset ->
  copy_bits x offset n = (x / 2 ^ offset) mod 2 ^ Z.of_nat n.
Proof.
  intros Hoff. unfold copy_bits. induction n as [|n IH].
  - simpl. by rewrite Z.mod_1_r.
  - rewrite seq_S, fold_left_app, IH. cbn [fold_left Nat.add].
    rewrite Nat2Z.inj_succ, Z.pow_succ_r by lia.
    rewrite (Z.mul_comm 2), Z.rem_mul_r by lia.
    rewrite land_bit by lia.
    rewrite (Z.add_comm (Z.of_nat n)), Z.pow_add_r, <- Z.div_div by lia.
    set (y := x / 2 ^ offset).
    assert (Hp : 0 < 2 ^ Z.of_nat n) by (apply Z.pow_pos_nonneg; lia).
    assert (Hq : 0 < 2 ^ offset) by (apply Z.pow_pos_nonneg; lia).
    pose proof (Z.mod_pos_bound y (2 ^ Z.of_nat n) Hp) as Hacc.
    pose proof (Z.mod_pos_bound (y / 2 ^ Z.of_nat n) 2 ltac:(lia)) as Hbit.
    set (b := (y / 2 ^ Z.of_nat n) mod 2) in *.
    set (acc := y mod 2 ^ Z.of_nat n) in *.
    set (p := 2 ^ Z.of_nat n) in *. set (q := 2 ^ offset) in *.
    destruct (Z.eqb_spec (b * (q * p)) 0) as [H0|H0].
    + assert (b = 0) as -> by nia. lia.
    + assert (b = 1) as -> by nia.
      unfold p. rewrite lor_shiftl_add by (fold p; lia). lia.
Qed.

Lemma bit_length_spec n : 0 <= n -> 0 <= bit_length n /\ n < 2 ^ bit_length n.
Proof.
  intros Hn. unfold bit_length. destruct (Z.eqb_spec n 0) as [->|H0]; [done|].
  pose proof (Z.log2_nonneg n). pose proof (Z.log2_spec n ltac:(lia)).
  rewrite <- Z.add_1_r in *. lia.
Qed.

(** The two bit-copying loops split the significand at bit 64. *)
Lemma copy_bits_low n :
  0 <= n ->
  copy_bits n 0 (Z.to_nat (Z.min 64 (bit_length n))) = n mod 2 ^ 64.
Proof.
  intros Hn. destruct (bit_length_spec n Hn) as [Hb Hlt].
  rewrite copy_bits_spec, Z.pow_0_r, Z.div_1_r, Z2Nat.id by lia.
  destruct (Z.le_gt_cases 64 (bit_length n)) as [Hle|Hgt].
  - by rewrite Z.min_l by lia.
  - rewrite Z.min_r by lia.
    assert (2 ^ bit_length n <= 2 ^ 64) by (apply Z.pow_le_mono_r; lia).
    rewrite !Z.mod_small; lia.
Qed.

Lemma copy_bits_high n :
  0 <= n ->
  copy_bits n 64 (Z.to_nat (Z.max 0 (bit_length n - 64))) = n / 2 ^ 64.
Proof.
  intros Hn. destruct (bit_length_spec n Hn) as [Hb Hlt].
  rewrite copy_bits_spec, Z2Nat.id by lia.
  assert (0 <= n / 2 ^ 64) by (apply Z.div_pos; lia).
  destruct (Z.le_gt_cases (bit_length n) 64) as [Hle|Hgt].
  - rewrite Z.max_l by lia.
    assert (2 ^ bit_length n <= 2 ^ 64) by (apply Z.pow_le_mono_r; lia).
    rewrite (Z.div_small n) by lia. done.
  - rewrite Z.max_r by lia. apply Z.mod_small. split; [done|].
    apply Z.div_lt_upper_bound; [lia|].
    rewrite <- Z.pow_add_r by lia.
    by replace (64 + (bit_length n - 64)) with (bit_length n) by lia.
Qed.

Lemma byte_at x k :
  0 <= k ->
  Z.shiftr (Z.land x (Z.shiftl 0xFF k)) k = (x / 2 ^ k) mod 2 ^ 8.
Proof.
  intros Hk. change 0xFF with (Z.ones 8).
  rewrite land_mask, Z.shiftr_div_pow2 by lia.
  apply Z.div_mul. apply Z.neq_sym, Z.lt_neq, Z.pow_pos_nonneg; lia.
Qed.

(** The fifteen bytes of [to_decimal], read as a big-endian integer, are
    the low 49 bits of [high] followed by the 64 bits of [low]. *)
Lemma int_from_bytes_significand hi lo :
  int_from_bytes_big (significand_bytes hi lo)
  = hi mod 2 ^ 49 * 2 ^ 64 + lo mod 2 ^ 64.
Proof.
  unfold significand_bytes, int_from_bytes_big. cbn [map app].
  change 0x0001000000000000 with (Z.shiftl 1 48).
  rewrite land_bit, Z.shiftr_div_pow2, Z.div_mul by lia.
  repeat match goal with
    | |- context [Z.shiftl (?a - ?b) 3] =>
        let k := eval compute in (Z.shiftl (a - b) 3) in
        change (Z.shiftl (a - b) 3) with k
    end.
  rewrite !byte_at by lia. cbn [fold_left].
  change (2 ^ 0) with 1. rewrite !Z.div_1_r.
  Z.div_mod_to_equations. lia.
Qed.

Lemma decimal128_masks :
  _SIGN = Z.shiftl (Z.ones 1) 63
  /\ _SNAN = Z.shiftl (Z.ones 6) 57
  /\ _NAN = Z.shiftl (Z.ones 5) 58
  /\ _INF = Z.shiftl (Z.ones 4) 59
  /\ _EXPONENT_MASK = Z.shiftl (Z.ones 2) 61
  /\ 0x7FFF800000000000 = Z.shiftl (Z.ones 16) 47.
Proof. repeat split. Qed.

(** The [high] word of a finite value, as a sum: the top 49 bits of the
    significand, the biased exponent from bit 49 and the sign at bit 63. *)
Lemma high_word_sum (sign : bool) hi b :
  0 <= hi < 2 ^ 49 -> 0 <= b < 2 ^ 14 ->
  (if sign then Z.lor (Z.lor hi (Z.shiftl b 49)) _SIGN
   else Z.lor hi (Z.shiftl b 49))
  = hi + b * 2 ^ 49 + (if sign then 2 ^ 63 else 0).
Proof.
  intros Hhi Hb. rewrite (lor_shiftl_add hi b 49) by lia.
  destruct sign; [|lia].
  change _SIGN with (Z.shiftl 1 63).
  rewrite lor_shiftl_add; lia.
Qed.

(** Decoding the two words of a canonical decimal gives it back. *)
Lemma to_decimal_high_low (sign : bool) c e :
  canonical c e ->
  to_decimal
    {| high := Z.of_N c / 2 ^ 64 + (e + _EXPONENT_BIAS) * 2 ^ 49
               + (if sign then 2 ^ 63 else 0);
       low := Z.of_N c mod 2 ^ 64 |}
  = Ok (Finite sign c e).
Proof.
  intros Hcan. pose proof Hcan as [Hc He].
  destruct context_bounds as (Hd & Hi & Ht & Hb).
  destruct decimal128_masks as (Ms & Msn & Mn & Mi & Me & Mx).
  rewrite Hd in Hc. rewrite Hi, Ht in He.
  unfold to_decimal. cbn [high low].
  rewrite int_from_bytes_significand.
  rewrite Mx, Ms, Msn, Mn, Mi, Me.
  rewrite !land_mask by lia. rewrite Hb.
  set (C := Z.of_N c) in *.
  assert (HC : 0 <= C) by (unfold C; lia).
  set (H := C / 2 ^ 64 + (e + 6176) * 2 ^ 49 + (if sign then 2 ^ 63 else 0)).
  assert (Hhi : 0 <= C / 2 ^ 64 < 2 ^ 49).
  { split; [apply Z.div_pos; lia|]. apply Z.div_lt_upper_bound; lia. }
  assert (Hlo : 0 <= C mod 2 ^ 64 < 2 ^ 64) by (apply Z.mod_pos_bound; lia).
  assert (Hs : (H / 2 ^ 63) mod 2 ^ 1 = if sign then 1 else 0).
  { unfold H. destruct sign; Z.div_mod_to_equations; lia. }
  assert (Hx : (H / 2 ^ 47) mod 2 ^ 16 * 2 ^ 47 / 2 ^ 49 = e + 6176).
  { unfold H. destruct sign; Z.div_mod_to_equations; lia. }
  assert (Hm : H mod 2 ^ 49 = C / 2 ^ 64).
  { unfold H. destruct sign; Z.div_mod_to_equations; lia. }
  assert (Hn1 : (H / 2 ^ 57) mod 2 ^ 6 <> 63).
  { unfold H. destruct sign; Z.div_mod_to_equations; lia. }
  assert (Hn2 : (H / 2 ^ 58) mod 2 ^ 5 <> 31).
  { unfold H. destruct sign; Z.div_mod_to_equations; lia. }
  assert (Hn3 : (H / 2 ^ 59) mod 2 ^ 4 <> 15).
  { unfold H. destruct sign; Z.div_mod_to_equations; lia. }
  assert (Hn4 : (H / 2 ^ 61) mod 2 ^ 2 <> 3).
  { unfold H. destruct sign; Z.div_mod_to_equations; lia. }
  rewrite Hs.
  rewrite (proj2 (Z.eqb_neq _ _))
    by (change (Z.shiftl (Z.ones 6) 57) with (63 * 2 ^ 57); lia).
  rewrite (proj2 (Z.eqb_neq _ _))
    by (change (Z.shiftl (Z.ones 5) 58) with (31 * 2 ^ 58); lia).
  rewrite (proj2 (Z.eqb_neq _ _))
    by (change (Z.shiftl (Z.ones 4) 59) with (15 * 2 ^ 59); lia).
  rewrite (proj2 (Z.eqb_neq _ _))
    by (change (Z.shiftl (Z.ones 2) 61) with (3 * 2 ^ 61); lia).
  rewrite Z.shiftr_div_pow2, Hx by lia.
  rewrite Hm, Z.mod_mod by lia.
  replace (C / 2 ^ 64 * 2 ^ 64 + C mod 2 ^ 64) with C
    by (pose proof (Z.div_mod C (2 ^ 64)); lia).
  replace (e + 6176 - 6176) with e by lia.
  unfold C. rewrite N2Z.id.
  replace (negb ((if sign then 1 else 0) * 2 ^ 63 =? 0)) with sign
    by (by destruct sign).
  by apply _fix_canonical.
Qed.
(** ** What the precision adapter can raise *)

Lemma _fix_raises d e : _fix d = Raise e -> e = Overflow \/ e = Inexact.
Proof.
  unfold _fix. destruct d as [s c x| |]; try discriminate.
  repeat match goal with
    | |- context [if ?b then _ else _] => destruct b
    end; try discriminate; intros [= <-]; auto.
Qed.

Lemma create_decimal_raises num e :
  create_decimal num = Raise e ->
  e = InvalidOperation \/ e = Overflow \/ e = Inexact.
Proof.
  unfold create_decimal.
  destruct (Decimal_of_str num) as [[s c x|s|s sg p]|]; [| | |intros [= <-]; auto].
  - intros H. apply _fix_raises in H. tauto.
  - intros H. apply _fix_raises in H. tauto.
  - destruct (_ <? _); [intros [= <-]; auto|]. intros H. apply _fix_raises in H. tauto.
Qed.

Lemma convert_decimal_128_raises v e :
  convert_decimal_128 v = Raise e ->
  e = InvalidOperation \/ e = Overflow \/ e = Inexact
  \/ exists message, e = ValueError message.
Proof.
  unfold convert_decimal_128, Decimal128_of_str, _decimal_to_128.
  destruct (create_decimal (Decimal_str v)) as [d|e0] eqn:Hc;
    cbn [mbind result_bind].
  - destruct d as [s c x|s|s sg p]; cbn [mbind result_bind]; try discriminate.
    destruct (negb _); cbn [mbind result_bind]; [intros [= <-]; eauto 6|].
    destruct sg; discriminate.
  - intros [= <-]. apply create_decimal_raises in Hc. tauto.
Qed.

Lemma convert_decimal_128_not_ValidationError v errors :
  convert_decimal_128 v = Raise (ValidationError errors) -> False.
Proof.
  intros [H|[H|[H|[m H]]]]%convert_decimal_128_raises; discriminate.
Qed.


(** ** [convert_decimal_128] on finite decimals *)


Lemma convert_decimal_128_fix_raises s c e x :
  _fix (Finite s c e) = Raise x ->
  convert_decimal_128 (Finite s c e) = Raise x.
Proof.
  intros H. unfold convert_decimal_128, Decimal128_of_str, _decimal_to_128,
    create_decimal.
  by rewrite Decimal_of_str_Decimal_str, H.
Qed.

Lemma convert_decimal_128_fix_Ok s c e s' c' e' :
  _fix (Finite s c e) = Ok (Finite s' c' e') -> canonical c' e' ->
  convert_decimal_128 (Finite s c e)
  = Ok {| high := Z.of_N c' / 2 ^ 64 + (e' + _EXPONENT_BIAS) * 2 ^ 49
                  + (if s' then 2 ^ 63 else 0);
          low := Z.of_N c' mod 2 ^ 64 |}.
Proof.
  intros H [Hc He]. destruct context_bounds as (Hd & Hi & Ht & Hb).
  rewrite Hd in Hc. rewrite Hi, Ht in He.
  unfold convert_decimal_128, Decimal128_of_str, _decimal_to_128,
    create_decimal.
  rewrite Decimal_of_str_Decimal_str, H. cbn [mbind result_bind fst snd].
  assert (Hhi : 0 <= Z.of_N c' / 2 ^ 64 < 2 ^ 49).
  { split; [apply Z.div_pos; lia|]. apply Z.div_lt_upper_bound; lia. }
  rewrite copy_bits_low, copy_bits_high by lia.
  rewrite !Z.shiftr_div_pow2 by lia.
  rewrite (Z.div_small (Z.of_N c' / 2 ^ 64) (2 ^ 49)) by done.
  change (0 =? 1) with false. cbv iota.
  rewrite high_word_sum by (rewrite ?Hb; lia).
  done.
Qed.

Lemma convert_decimal_128_canonical s c e :
  canonical c e ->
  convert_decimal_128 (Finite s c e)
  = Ok {| high := Z.of_N c / 2 ^ 64 + (e + _EXPONENT_BIAS) * 2 ^ 49
                  + (if s then 2 ^ 63 else 0);
          low := Z.of_N c mod 2 ^ 64 |}.
Proof.
  intros H. apply convert_decimal_128_fix_Ok; [|done]. by apply _fix_canonical.
Qed.

Lemma Decimal128_str_finite x s c e :
  to_decimal x = Ok (Finite s c e) ->
  Decimal128_str x = Ok (Decimal_str (Finite s c e)).
Proof. intros H. unfold Decimal128_str. by rewrite H. Qed.

(** What a successful conversion of a finite decimal holds: the
    canonical decimal of the same sign and value. *)
Lemma convert_decimal_128_Ok s c e x :
  convert_decimal_128 (Finite s c e) = Ok x ->
  exists c' e',
    canonical c' e' /\ same_value c e c' e'
    /\ to_decimal x = Ok (Finite s c' e').
Proof.
  intros H. destruct (_fix (Finite s c e)) as [d|err] eqn:Hf.
  - destruct (_fix_Ok _ _ _ _ Hf) as (c' & e' & -> & Hcan & Hval).
    rewrite (convert_decimal_128_fix_Ok _ _ _ _ _ _ Hf Hcan) in H.
    injection H as <-. exists c', e'.
    split; [done|]. split; [done|]. by apply to_decimal_high_low.
  - by rewrite (convert_decimal_128_fix_raises _ _ _ _ Hf) in H.
Qed.

Lemma convert_decimal_128_finite_raises s c e x :
  convert_decimal_128 (Finite s c e) = Raise x -> x = Overflow \/ x = Inexact.
Proof.
  intros H. destruct (_fix (Finite s c e)) as [d|err] eqn:Hf.
  - destruct (_fix_Ok _ _ _ _ Hf) as (c' & e' & -> & Hcan & Hval).
    by rewrite (convert_decimal_128_fix_Ok _ _ _ _ _ _ Hf Hcan) in H.
  - rewrite (convert_decimal_128_fix_raises _ _ _ _ Hf) in H.
    injection H as <-. by apply _fix_raises in Hf.
Qed.

(** The conversion of a finite decimal succeeds exactly when some
    Decimal128 has its value. *)
Lemma convert_decimal_128_succeeds_iff_representable s c e :
  (exists x, convert_decimal_128 (Finite s c e) = Ok x) <-> representable c e.
Proof.
  split.
  - intros [x Hx]. destruct (convert_decimal_128_Ok _ _ _ _ Hx)
      as (c' & e' & ? & ? & _). by exists c', e'.
  - intros [d Hd]%(_fix_representable s).
    destruct (_fix_Ok _ _ _ _ Hd) as (c' & e' & -> & Hcan & _).
    rewrite (convert_decimal_128_fix_Ok _ _ _ _ _ _ Hd Hcan). eauto.
Qed.

(** C3, as amended. For a finite decimal the Decimal128 context holds as
    it is (at most 34 digits, exponent from -6176 to 6111) the conversion
    succeeds, the stored value converts back to the very same decimal,
    and its text is the text of the original; the conversion is a
    function of its argument. *)
Theorem decimal128_round_trip_of_canonical (sign : bool) (c : N) (e : Z) :
  canonical c e ->
  exists x,
    convert_decimal_128 (Finite sign c e) = Ok x
    /\ to_decimal x = Ok (Finite sign c e)
    /\ Decimal128_str x = Ok (Decimal_str (Finite sign c e))
    /\ Decimal_of_str (Decimal_str (Finite sign c e)) = Some (Finite sign c e)
    /\ forall x', convert_decimal_128 (Finite sign c e) = Ok x' -> x' = x.
Proof.
  intros Hcan. eexists. split; [by apply convert_decimal_128_canonical|].
  assert (Ht := to_decimal_high_low sign c e Hcan).
  split; [done|]. split; [by apply Decimal128_str_finite|].
  split; [apply Decimal_of_str_Decimal_str|].
  intros x'. rewrite convert_decimal_128_canonical by done. congruence.
Qed.

Lemma decimal128_round_trip_witness :
  canonical 1999 (-2)
  /\ exists x,
      convert_decimal_128 (Finite false 1999 (-2)) = Ok x
      /\ to_decimal x = Ok (Finite false 1999 (-2))
      /\ Decimal128_str x = Ok (Decimal_str (Finite false 1999 (-2)))
      /\ Decimal_of_str (Decimal_str (Finite false 1999 (-2)))
         = Some (Finite false 1999 (-2))
      /\ forall x', convert_decimal_128 (Finite false 1999 (-2)) = Ok x' -> x' = x.
Proof.
  assert (H : canonical 1999 (-2)) by (split; [reflexivity | split; discriminate]).
  split; [exact H | exact (decimal128_round_trip_of_canonical false 1999 (-2) H)].
Defined.

(** The text survives the round trip only for canonical decimals: when
    the conversion succeeds and gives back the same text, the decimal
    was canonical. *)
Lemma decimal128_round_trip_only_canonical sign c e x :
  convert_decimal_128 (Finite sign c e) = Ok x ->
  Decimal128_str x = Ok (Decimal_str (Finite sign c e)) ->
  canonical c e.
Proof.
  intros Hc Hs. destruct (convert_decimal_128_Ok _ _ _ _ Hc)
    as (c' & e' & Hcan & _ & Ht).
  rewrite (Decimal128_str_finite _ _ _ _ Ht) in Hs.
  injection Hs as Hs. apply Decimal_str_inj in Hs. by injection Hs as <- <-.
Qed.

(** C3, as stated, fails: a decimal of 35 significant digits is not
    converted at all, and one of 36 digits that ends in zeros comes back
    with two digits fewer. *)
Lemma decimal128_round_trip_fails :
  Decimal_str (Finite false (10 ^ 34 + 1) (-34))
  = "1.0000000000000000000000000000000001"
  /\ convert_decimal_128 (Finite false (10 ^ 34 + 1) (-34)) = Raise Inexact
  /\ Decimal_str (Finite false (10 ^ 35) (-35))
     = "1.00000000000000000000000000000000000"
  /\ (x ← convert_decimal_128 (Finite false (10 ^ 35) (-35)); Decimal128_str x)
     = Ok "1.000000000000000000000000000000000".
Proof. split; [|split; [|split]]; vm_compute; reflexivity. Qed.
(** ** The patch of an update *)

Lemma list_to_map_omap_lookup (g : string -> option value) (l : list string)
    (k : string) :
  (list_to_map (omap (fun f => pair f <$> g f) l) : gmap string value) !! k
  = if decide (k ∈ l) then g k else None.
Proof.
  induction l as [|a l IH].
  - rewrite decide_False by apply not_elem_of_nil. apply lookup_empty.
  - assert (Hne : a <> k -> k ∈ l <-> k ∈ a :: l).
    { intros Hne. rewrite elem_of_cons. split; [auto|]. by intros [->|?]. }
    cbn [omap list_omap]. destruct (g a) as [v|] eqn:Ha;
      cbn [fmap option_fmap option_map list_to_map foldr].
    + destruct (decide (a = k)) as [->|Hak].
      * rewrite lookup_insert_eq.
        by rewrite decide_True by apply list_elem_of_here.
      * rewrite lookup_insert_ne by done. rewrite IH.
        by apply decide_ext, Hne.
    + rewrite IH. destruct (decide (a = k)) as [->|Hak].
      * rewrite Ha, (decide_True (P := k ∈ k :: l))
          by apply list_elem_of_here.
        by destruct (decide (k ∈ l)).
      * by apply decide_ext, Hne.
Qed.

Lemma getattr_not_field body k :
  k ∉ ProductUpdate.model_fields -> getattr body k = None.
Proof.
  intros H. unfold getattr, ProductUpdate.model_fields in *.
  repeat case_decide; subst; try done; exfalso; apply H; set_solver.
Qed.

Lemma build_patch_lookup body k : build_patch body !! k = getattr body k.
Proof.
  unfold build_patch. rewrite list_to_map_omap_lookup.
  case_decide; [done|]. by rewrite getattr_not_field.
Qed.

Lemma getattr_set_updated_at body v k :
  getattr (set_updated_at body v) k
  = if decide (k = "updated_at") then VDatetime <$> v else getattr body k.
Proof.
  unfold getattr, set_updated_at; simpl.
  repeat case_decide; subst; done.
Qed.

Lemma build_patch_set_updated_at body utcnow k :
  build_patch (set_updated_at body (Some utcnow)) !! k
  = if decide (k = "updated_at") then Some (VDatetime utcnow)
    else getattr body k.
Proof. by rewrite build_patch_lookup, getattr_set_updated_at. Qed.

(** ** The storage collaborator *)

Lemma has_id_true id doc : has_id id doc = true <-> doc !! "id" = Some (VUUID id).
Proof. unfold has_id. by rewrite bool_decide_eq_true. Qed.

Lemma has_id_false id doc : has_id id doc = false <-> doc !! "id" ≠ Some (VUUID id).
Proof. unfold has_id. by rewrite bool_decide_eq_false. Qed.

Lemma update_one_absent id patch (db : database) :
  (forall doc, doc ∈ db -> doc !! "id" ≠ Some (VUUID id)) ->
  update_one id patch db = None.
Proof.
  induction db as [|doc db IH]; intros H; simpl; [done|].
  rewrite (proj2 (has_id_false id doc)) by (apply H; left).
  rewrite IH; [done|]. intros d Hd. apply H. by right.
Qed.

Lemma update_one_merged id patch (db : database) merged db' :
  update_one id patch db = Some (merged, db') ->
  exists i doc,
    db !! i = Some doc /\ doc !! "id" = Some (VUUID id)
    /\ merged = patch ∪ doc /\ db' = <[i:=merged]> db.
Proof.
  revert merged db'. induction db as [|doc db IH]; intros merged db'; simpl; [done|].
  destruct (has_id id doc) eqn:Hid.
  - intros [= <- <-]. exists 0%nat, doc. by rewrite has_id_true in Hid.
  - destruct (update_one id patch db) as [[m d]|] eqn:Hu; [|done].
    intros [= <- <-]. destruct (IH m d eq_refl) as (i & doc' & ? & ? & ? & ->).
    by exists (S i), doc'.
Qed.

Lemma delete_one_absent id (db : database) :
  (forall doc, doc ∈ db -> doc !! "id" ≠ Some (VUUID id)) ->
  delete_one id db = (O, db).
Proof.
  induction db as [|doc db IH]; intros H; simpl; [done|].
  rewrite (proj2 (has_id_false id doc)) by (apply H; left).
  rewrite IH; [done|]. intros d Hd. apply H. by right.
Qed.

Lemma ProductOut_init_raises {conversions : Conversions} data e :
  ProductOut_init data = Raise e -> exists errors, e = ValidationError errors.
Proof.
  unfold ProductOut_init.
  destruct (required uuid_validator "id" data),
    (required datetime_validator "created_at" data),
    (required datetime_validator "updated_at" data),
    (required str_validator "name" data),
    (required int_validator "quantity" data),
    (required decimal_validator "price" data),
    (required bool_validator "status" data);
    intros [= <-]; eauto.
Qed.

Lemma output_form_raises {conversions : Conversions} doc e :
  output_form doc = Raise e -> exists errors, e = ValidationError errors.
Proof. apply ProductOut_init_raises. Qed.

Lemma patch_usecase {conversions : Conversions} not_found_message create id body utcnow (db : database) :
  patch (usecase not_found_message create) id body utcnow db
  = match update_one id (build_patch (set_updated_at body (Some utcnow))) db with
    | Some (merged, db') => (output_form merged, db')
    | None =>
        (Raise (HTTPException status.HTTP_404_NOT_FOUND (not_found_message id)),
         db)
    end.
Proof.
  unfold patch, try_except; simpl.
  unfold update. destruct (update_one _ _ db) as [[m d]|]; [|done].
  destruct (output_form m) as [out|e] eqn:Ho; [done|].
  by destruct (output_form_raises _ _ Ho) as [errors ->].
Qed.

Lemma patch_store_keeps_unset_fields {conversions : Conversions} not_found_message create id body utcnow
    (db : database) i doc :
  db !! i = Some doc ->
  exists doc',
    (patch (usecase not_found_message create) id body utcnow db).2 !! i
    = Some doc'
    /\ (forall field,
          field ≠ "updated_at" -> getattr body field = None ->
          doc' !! field = doc !! field)
    /\ (doc' = doc \/ doc' !! "updated_at" = Some (VDatetime utcnow)).
Proof.
  intros Hi. rewrite patch_usecase.
  destruct (update_one _ _ db) as [[m d]|] eqn:Hu; simpl;
    [|exists doc; auto].
  destruct (update_one_merged _ _ _ _ _ Hu) as (j & doc0 & Hj & _ & -> & ->).
  destruct (decide (j = i)) as [->|Hne].
  - rewrite Hi in Hj. injection Hj as <-. eexists. split; [|split].
    + apply list_lookup_insert_eq. by eapply lookup_lt_Some.
    + intros field Hf Hnone. apply lookup_union_r.
      rewrite build_patch_set_updated_at. by rewrite decide_False.
    + right. apply lookup_union_Some_l.
      rewrite build_patch_set_updated_at. by rewrite decide_True.
  - exists doc. rewrite list_lookup_insert_ne by done. auto.
Qed.

(** ** Claims on the update path *)

(** C5. The route assigns [updated_at] itself before the use case runs:
    whatever the caller put there, the use case receives the body with
    [updated_at] set to the current time, so the answer and the store
    afterwards are the same for every caller-supplied [updated_at]. *)
Theorem patch_overrides_caller_updated_at {S : Type}
    (usecase : ProductUsecase.t S) (id : UUID) (body : ProductUpdate.t)
    (caller : option datetime) (utcnow : datetime) (s : S) :
  patch usecase id (set_updated_at body caller) utcnow s
  = patch usecase id body utcnow s
  /\ patch usecase id body utcnow s
     = try_except
         (ProductUsecase.update usecase id (set_updated_at body (Some utcnow)))
         except_NotFoundException s
  /\ ProductUpdate.updated_at (set_updated_at body (Some utcnow)) = Some utcnow.
Proof. by destruct body. Qed.

(** C4. The patch of an update holds the fields the caller set, each
    with the value the Update Input holds, and the [updated_at] the route
    assigned; it never holds [id] or [created_at]; and it is this patch
    that the store merges. *)
Theorem patch_has_set_fields_and_updated_at {conversions : Conversions} (body : ProductUpdate.t)
    (utcnow : datetime) :
  let patch := build_patch (set_updated_at body (Some utcnow)) in
  (forall field,
      is_Some (patch !! field) <->
      field = "updated_at"
      \/ field = "quantity" /\ is_Some (ProductUpdate.quantity body)
      \/ field = "price" /\ is_Some (ProductUpdate.price body)
      \/ field = "status" /\ is_Some (ProductUpdate.status body))
  /\ patch !! "updated_at" = Some (VDatetime utcnow)
  /\ patch !! "quantity" = VInt <$> ProductUpdate.quantity body
  /\ patch !! "price" = VDecimal128 <$> ProductUpdate.price body
  /\ patch !! "status" = VBool <$> ProductUpdate.status body
  /\ patch !! "id" = None
  /\ patch !! "created_at" = None
  /\ (forall not_found_message create id db,
        controllers.patch (usecase not_found_message create) id body utcnow db
        = match update_one id patch db with
          | Some (merged, db') => (output_form merged, db')
          | None =>
              (Raise (HTTPException status.HTTP_404_NOT_FOUND
                        (not_found_message id)), db)
          end).
Proof.
  cbv zeta. repeat split; try (rewrite build_patch_set_updated_at; reflexivity).
  - rewrite build_patch_set_updated_at. unfold getattr.
    destruct body as [q p s u]; simpl.
    repeat case_decide; subst; rewrite ?fmap_is_Some; intros Hs; auto 10;
      by destruct Hs.
  - rewrite build_patch_set_updated_at. unfold getattr.
    destruct body as [q p s u]; simpl.
    intros [->|[[-> H]|[[-> H]|[-> H]]]]; simpl; rewrite ?fmap_is_Some; eauto.
  - intros nfm create id db. apply patch_usecase.
Qed.

(** C7. When no stored document has the identifier, [update] and
    [delete] raise [NotFoundException] with the text for that identifier
    and nothing else, the store is left as it was, and the routes turn
    the exception into a 404 answer. *)
Theorem update_delete_absent_id_not_found {conversions : Conversions}
    (not_found_message : UUID -> string)
    (create : ProductIn.t -> action database ProductOut.t)
    (id : UUID) (body : ProductUpdate.t) (utcnow : datetime) (db : database) :
  (forall doc, doc ∈ db -> doc !! "id" ≠ Some (VUUID id)) ->
  usecases.update not_found_message id body db
  = (Raise (NotFoundException (not_found_message id)), db)
  /\ usecases.delete not_found_message id db
     = (Raise (NotFoundException (not_found_message id)), db)
  /\ patch (usecase not_found_message create) id body utcnow db
     = (Raise (HTTPException status.HTTP_404_NOT_FOUND (not_found_message id)),
        db)
  /\ delete (usecase not_found_message create) id db
     = (Raise (HTTPException status.HTTP_404_NOT_FOUND (not_found_message id)),
        db)
  /\ (forall data,
        ProductUpdate_init data = Ok body ->
        patch_route (usecase not_found_message create) id data utcnow db
        = (status.HTTP_404_NOT_FOUND, db))
  /\ delete_route (usecase not_found_message create) id db
     = (status.HTTP_404_NOT_FOUND, db).
Proof.
  intros Habsent.
  assert (Hu : forall b, usecases.update not_found_message id b db
                 = (Raise (NotFoundException (not_found_message id)), db)).
  { intros b. unfold update. by rewrite update_one_absent. }
  assert (Hd : usecases.delete not_found_message id db
               = (Raise (NotFoundException (not_found_message id)), db)).
  { unfold usecases.delete. by rewrite delete_one_absent. }
  assert (Hp : patch (usecase not_found_message create) id body utcnow db
               = (Raise (HTTPException status.HTTP_404_NOT_FOUND
                           (not_found_message id)), db)).
  { unfold patch, try_except; simpl. by rewrite Hu. }
  assert (Hdel : delete (usecase not_found_message create) id db
               = (Raise (HTTPException status.HTTP_404_NOT_FOUND
                           (not_found_message id)), db)).
  { unfold delete, try_except; simpl. by rewrite Hd. }
  repeat split; try done.
  - intros data Hdata. unfold patch_route. by rewrite Hdata, Hp.
  - unfold delete_route. by rewrite Hdel.
Qed.

Lemma optional_delete_eq {A} (validator : value -> A + string) field
    (data : gmap string value) :
  optional validator field (base.delete field data) = inl None.
Proof. unfold optional. by rewrite lookup_delete_eq. Qed.

Lemma optional_delete_ne {A} (validator : value -> A + string) field field'
    (data : gmap string value) :
  field ≠ field' ->
  optional validator field (base.delete field' data)
  = optional validator field data.
Proof. intros H. unfold optional. by rewrite lookup_delete_ne. Qed.

(** A payload that builds an Update Input still builds one when a key is
    taken out of it: the field of that key is unset, the others are as
    before. *)
Lemma ProductUpdate_init_delete {conversions : Conversions} data body field :
  ProductUpdate_init data = Ok body ->
  exists body',
    ProductUpdate_init (base.delete field data) = Ok body'
    /\ forall k,
        getattr body' k = if decide (k = field) then None else getattr body k.
Proof.
  unfold ProductUpdate_init. intros H.
  destruct (decide (field = "quantity")) as [->|Hq];
    [|destruct (decide (field = "price")) as [->|Hp];
      [|destruct (decide (field = "status")) as [->|Hs];
        [|destruct (decide (field = "updated_at")) as [->|Hu]]]].
  all: rewrite ?optional_delete_eq, ?lookup_delete_eq;
    rewrite ?optional_delete_ne, ?lookup_delete_ne by congruence.
  all: match type of H with
       | ?P ≫= _ = _ => destruct P as [[p|e]|ex]
       end;
    cbn [mbind result_bind] in H |- *; try discriminate.
  all: destruct (optional int_validator "quantity" data) as [q|],
      (optional bool_validator "status" data) as [s|],
      (optional datetime_validator "updated_at" data) as [u|];
    try discriminate; injection H as <-;
    (eexists; split; [reflexivity|]);
    intros k; unfold getattr; cbn [ProductUpdate.quantity ProductUpdate.price
      ProductUpdate.status ProductUpdate.updated_at];
    repeat case_decide; subst; try congruence; reflexivity.
Qed.

(** C1, as amended. The Update Input has the four fields [quantity],
    [price], [status] and [updated_at], every one optional (a payload
    that mentions none of them, whatever else it holds, builds the Update
    Input with all four unset, and a payload that builds still builds
    when a key is taken out of it, with that field unset and the others
    as before). The handler sets [updated_at] to the current time before
    the use case runs: the use case receives the body with [updated_at]
    set and the other fields as they were. An update leaves every stored
    field the Update Input does not set as it was, for every document of
    the store, and the document it changes holds the [updated_at] the
    handler set. *)
Theorem update_input_optional_fields_keep_stored_values
    {conversions : Conversions} :
  ProductUpdate.model_fields = ["quantity"; "price"; "status"; "updated_at"]
  /\ (forall data,
        (forall field, field ∈ ProductUpdate.model_fields -> data !! field = None) ->
        ProductUpdate_init data = Ok (ProductUpdate.mk None None None None))
  /\ (forall data body field,
        ProductUpdate_init data = Ok body ->
        exists body',
          ProductUpdate_init (base.delete field data) = Ok body'
          /\ forall k,
              getattr body' k
              = if decide (k = field) then None else getattr body k)
  /\ (forall S (usecase : ProductUsecase.t S) id body utcnow s,
        patch usecase id body utcnow s
        = try_except
            (ProductUsecase.update usecase id
               (ProductUpdate.mk (ProductUpdate.quantity body)
                  (ProductUpdate.price body) (ProductUpdate.status body)
                  (Some utcnow)))
            except_NotFoundException s)
  /\ (forall not_found_message create id body utcnow (db : database),
        let db' :=
          (patch (usecase not_found_message create) id body utcnow db).2 in
        forall i doc,
          db !! i = Some doc ->
          exists doc',
            db' !! i = Some doc'
            /\ (ProductUpdate.quantity body = None ->
                doc' !! "quantity" = doc !! "quantity")
            /\ (ProductUpdate.price body = None ->
                doc' !! "price" = doc !! "price")
            /\ (ProductUpdate.status body = None ->
                doc' !! "status" = doc !! "status")
            /\ (forall field,
                  field ∉ ProductUpdate.model_fields ->
                  doc' !! field = doc !! field)
            /\ (doc' = doc
                \/ doc' !! "updated_at" = Some (VDatetime utcnow))).
Proof.
  split; [done|]. split; [|split; [|split]].
  - intros data Hnone. unfold ProductUpdate_init, optional.
    rewrite !Hnone
      by (unfold ProductUpdate.model_fields;
          repeat first [apply list_elem_of_here | apply list_elem_of_further]).
    done.
  - apply ProductUpdate_init_delete.
  - intros S usecase id body utcnow s. reflexivity.
  - intros nfm create id body utcnow db db' i doc Hi.
    destruct (patch_store_keeps_unset_fields nfm create id body utcnow db i doc Hi)
      as (doc' & Hdoc' & Hkeep & Hset).
    exists doc'. split; [done|].
    split; [|split; [|split; [|split]]].
    + intros Hq. apply Hkeep; [done|]. unfold getattr; simpl. by rewrite Hq.
    + intros Hq. apply Hkeep; [done|]. unfold getattr; simpl. by rewrite Hq.
    + intros Hq. apply Hkeep; [done|]. unfold getattr; simpl. by rewrite Hq.
    + intros field Hf. apply Hkeep.
      * intros ->. apply Hf. unfold ProductUpdate.model_fields.
        repeat first [apply list_elem_of_here | apply list_elem_of_further].
      * by apply getattr_not_field.
    + exact Hset.
Qed.

(** C1, as stated, fails: [name] is not a field of the Update Input (a
    payload that names it builds an Update Input that holds no name), and
    [updated_at] is unset unless the route sets it. *)
Lemma update_input_has_no_name_field :
  ("name" ∉ ProductUpdate.model_fields)
  /\ (forall conversions : Conversions,
        ProductUpdate_init {[ "name" := VStr "Gadget" ]}
        = Ok (ProductUpdate.mk None None None None))
  /\ build_patch (ProductUpdate.mk None None None None) !! "name" = None.
Proof.
  split; [|split].
  - unfold ProductUpdate.model_fields. intros H.
    repeat (apply elem_of_cons in H as [H|H]; [discriminate|]).
    by apply elem_of_nil in H.
  - intros conversions. reflexivity.
  - by rewrite build_patch_lookup.
Qed.

(** ** Claims on [query] *)

Lemma price_filter_spec price_min price_max doc :
  price_filter price_min price_max doc = true <->
  (forall X, price_min = Some X ->
     exists p, price_number doc = Some p
               /\ number_le (number_of_float X) p = true)
  /\ (forall Y, price_max = Some Y ->
        exists p, price_number doc = Some p
                  /\ number_le p (number_of_float Y) = true).
Proof.
  unfold price_filter. rewrite andb_true_iff.
  destruct price_min as [x|], price_max as [y|];
    destruct (price_number doc) as [p|]; split.
  all: try (intros [H1 H2]; split; intros ? [= <-]; eauto; done).
  all: try (intros [H1 H2]; split; try done;
            try (destruct (H1 _ eq_refl) as (? & [= <-] & ?); done);
            try (destruct (H2 _ eq_refl) as (? & [= <-] & ?); done);
            try (destruct (H1 _ eq_refl) as (? & [=] & ?); done);
            try (destruct (H2 _ eq_refl) as (? & [=] & ?); done)).
Qed.

Lemma filter_all {A} (f : A -> bool) (l : list A) :
  (forall x, f x = true) -> List.filter f l = l.
Proof.
  intros H. induction l as [|a l IH]; simpl; [done|]. by rewrite H, IH.
Qed.

Lemma mapM_output_forms {conversions : Conversions} (docs : list (gmap string value)) :
  (forall doc, doc ∈ docs -> exists out, output_form doc = Ok out) ->
  exists outs,
    mapM output_form docs = Ok outs
    /\ Forall2 (fun doc out => output_form doc = Ok out) docs outs.
Proof.
  induction docs as [|doc docs IH]; intros H.
  - exists []. by split.
  - destruct (H doc) as [out Hout]; [by left|].
    destruct IH as (outs & Hm & Hf); [intros d Hd; apply H; by right|].
    exists (out :: outs). split; [|by constructor].
    simpl. rewrite Hout. simpl. by rewrite Hm.
Qed.

(** With the return annotation of the handler read as
    [List[ProductOut]], [query] answers with the Output Forms of the
    stored documents whose price lies between the bounds, in storage order: a
    document is selected when [price_min <= price] for a [price_min] that
    is given and [price <= price_max] for a [price_max] that is given;
    without bounds every document is selected; and when nothing is
    selected the answer is the empty list, not an error. The store is
    left as it was. *)
Theorem query_selects_documents_in_price_range {conversions : Conversions}
    (not_found_message : UUID -> string)
    (create : ProductIn.t -> action database ProductOut.t)
    (price_min price_max : option float) (db : database) :
  let selected := find_many (price_filter price_min price_max) db in
  query (usecase not_found_message create) price_min price_max db
  = (mapM output_form selected, db)
  /\ (forall doc,
        doc ∈ selected <->
        doc ∈ db
        /\ (forall X, price_min = Some X ->
              exists p, price_number doc = Some p
                        /\ number_le (number_of_float X) p = true)
        /\ (forall Y, price_max = Some Y ->
              exists p, price_number doc = Some p
                        /\ number_le p (number_of_float Y) = true))
  /\ selected `sublist_of` db
  /\ (price_min = None -> price_max = None -> selected = db)
  /\ (selected = [] ->
      query (usecase not_found_message create) price_min price_max db
      = (Ok [], db))
  /\ ((forall doc, doc ∈ selected -> exists out, output_form doc = Ok out) ->
      exists outs,
        query (usecase not_found_message create) price_min price_max db
        = (Ok outs, db)
        /\ Forall2 (fun doc out => output_form doc = Ok out) selected outs).
Proof.
  cbv zeta. unfold query, usecase, usecases.query, find_many.
  cbn [ProductUsecase.query].
  split; [done|]. split; [|split; [|split; [|split]]].
  - intros doc. rewrite <- price_filter_spec.
    rewrite !list_elem_of_In. apply filter_In.
  - induction db as [|doc db IH]; simpl; [constructor|].
    destruct (price_filter _ _ doc); by constructor.
  - intros -> ->. by apply filter_all.
  - by intros ->.
  - intros H. destruct (mapM_output_forms _ H) as (outs & -> & Hf). eauto.
Qed.

Lemma Qdiv_eq_Z a b c d :
  0 < b -> 0 < d ->
  (inject_Z a * / inject_Z b == inject_Z c * / inject_Z d)%Q ->
  a * d = c * b.
Proof.
  intros Hb Hd H.
  assert (Hb' : ~ (inject_Z b == 0)%Q).
  { change 0%Q with (inject_Z 0). rewrite inject_Z_injective. lia. }
  assert (Hd' : ~ (inject_Z d == 0)%Q).
  { change 0%Q with (inject_Z 0). rewrite inject_Z_injective. lia. }
  apply inject_Z_injective. rewrite !inject_Z_mult.
  transitivity ((inject_Z a * / inject_Z b) * (inject_Z b * inject_Z d))%Q;
    [field; assumption|].
  rewrite H. field. assumption.
Qed.

Lemma Qpower_inject_Z (b e : Z) :
  0 < b ->
  (inject_Z b ^ e == inject_Z (if 0 <=? e then b ^ e else 1)
                     * / inject_Z (if 0 <=? e then 1 else b ^ (- e)))%Q.
Proof.
  intros Hb. destruct (Z.leb_spec 0 e) as [He|He].
  - rewrite <- Zpower_Qpower by done. change (inject_Z 1) with 1%Q. field.
  - replace e with (- - e) at 1 by lia. rewrite Qpower_opp.
    rewrite <- Zpower_Qpower by lia. change (inject_Z 1) with 1%Q. field.
    change 0%Q with (inject_Z 0). rewrite inject_Z_injective.
    pose proof (Z.pow_pos_nonneg b (- e)). lia.
Qed.

(** A binary fraction [m * 2 ^ e] that equals [z * 10 ^ x] with [x < 0]:
    [z] holds every factor 5 of [10 ^ (- x)]. *)
Lemma float_value_is_decimal_value m e z x :
  x < 0 ->
  (inject_Z m * 2 ^ e == inject_Z z * 10 ^ x)%Q ->
  (5 ^ (- x) | z).
Proof.
  intros Hx H.
  change 2%Q with (inject_Z 2) in H. change 10%Q with (inject_Z 10) in H.
  rewrite (Qpower_inject_Z 2 e), (Qpower_inject_Z 10 x) in H by lia.
  destruct (Z.leb_spec 0 x) as [?|_]; [lia|].
  rewrite !Qmult_assoc, <- !inject_Z_mult in H.
  apply Qdiv_eq_Z in H.
  - rewrite Z.mul_1_r in H.
    assert (H10 : 10 ^ (- x) = 5 ^ (- x) * 2 ^ (- x))
      by (rewrite <- Z.pow_mul_l; reflexivity).
    destruct (Z.leb_spec 0 e) as [He|He].
    + exists (m * 2 ^ e * 2 ^ (- x)). rewrite Z.mul_1_r in H. lia.
    + apply (Z.gauss _ (2 ^ (- e))).
      * exists (m * 2 ^ (- x)). lia.
      * apply Z.coprime_pow_l; [lia|]. apply Z.coprime_pow_r; [lia|].
        reflexivity.
  - destruct (Z.leb_spec 0 e); [lia|]. apply Z.pow_pos_nonneg; lia.
  - apply Z.pow_pos_nonneg; lia.
Qed.

Lemma same_number_Fin p q :
  same_number (Fin p) (Fin q) = true <-> (p == q)%Q.
Proof.
  unfold same_number. simpl. rewrite andb_true_iff, !Qle_bool_iff. split.
  - intros [H1 H2]. by apply Qle_antisym.
  - intros H. rewrite H. split; apply Qle_refl.
Qed.

Lemma widget_price_number :
  price_number widget = Some (number_of_Decimal (Finite false 1999 (-2))).
Proof. reflexivity. Qed.

(** C10. The bounds of [query] are binary floating-point numbers: the
    handler takes [price_min] and [price_max] as [float]s and hands them
    to the use case as they are, so what is compared with a stored
    decimal price is the value [m * 2 ^ e] of a double. A double equals
    a decimal [c * 10 ^ x] with [x < 0] only when [5 ^ (- x)] divides
    [c]; so no double equals 19.99, and no query with
    [price_min = price_max] selects a product priced 19.99. The double
    the text 19.99 is read as, the nearest one, lies below 19.99: as
    [price_max] it leaves out the product priced 19.99, which a bound of
    20 keeps. *)
Theorem query_bounds_are_binary_floats :
  (forall S (u : ProductUsecase.t S) (price_min price_max : option float) s,
     query u price_min price_max s
     = ProductUsecase.query u price_min price_max s)
  /\ (forall m e sign c x,
        x < 0 ->
        same_number (number_of_float (Float m e))
                    (number_of_Decimal (Finite sign c x)) = true ->
        (5 ^ (- x) | Z.of_N c))
  /\ (forall f,
        same_number (number_of_float f)
                    (number_of_Decimal (Finite false 1999 (-2))) = false)
  /\ (forall f, price_filter (Some f) (Some f) widget = false)
  /\ rounds_to 1999 2 float_19_99
  /\ price_filter None (Some float_19_99) widget = false
  /\ price_filter None (Some (Float 20 0)) widget = true
  /\ (forall (conversions : Conversions) not_found_message create,
        query (usecase not_found_message create) None (Some float_19_99)
              [widget]
        = (Ok [], [widget])).
Proof.
  assert (Hdiv : forall m e sign c x,
            x < 0 ->
            same_number (number_of_float (Float m e))
                        (number_of_Decimal (Finite sign c x)) = true ->
            (5 ^ (- x) | Z.of_N c)).
  { intros m e sign c x Hx H. apply same_number_Fin in H.
    destruct sign.
    - apply Z.divide_opp_r. by apply (float_value_is_decimal_value m e).
    - by apply (float_value_is_decimal_value m e). }
  assert (H1999 : forall f,
            same_number (number_of_float f)
                        (number_of_Decimal (Finite false 1999 (-2))) = false).
  { intros [m e|[]|]; [|reflexivity..].
    destruct (same_number _ _) eqn:H; [|reflexivity].
    apply Hdiv in H; [|lia]. destruct H as [k Hk]. simpl in Hk. lia. }
  split; [reflexivity|]. split; [exact Hdiv|]. split; [exact H1999|].
  split; [|split; [|split; [|split]]].
  - intros f. unfold price_filter. rewrite widget_price_number.
    apply H1999.
  - unfold rounds_to, float_19_99. lia.
  - reflexivity.
  - reflexivity.
  - intros conversions not_found_message create. reflexivity.
Qed.

(** One half is a double and a decimal: [1 * 2 ^ (-1)] and
    [5 * 10 ^ (-1)]. *)
Lemma query_bounds_are_binary_floats_witness :
  same_number (number_of_float (Float 1 (-1)))
              (number_of_Decimal (Finite false 5 (-1))) = true
  /\ (5 ^ (- -1) | Z.of_N 5).
Proof.
  split; [reflexivity|].
  apply (proj1 (proj2 query_bounds_are_binary_floats) 1 (-1) false 5%N (-1));
    [lia|reflexivity].
Defined.

(** ** Claims on the construction of the views *)

Lemma required_present {A} (validator : value -> A + string) field
    (data : gmap string value) v a :
  data !! field = Some v -> validator v = inl a ->
  required validator field data = inl a.
Proof. intros Hv Ha. unfold required. by rewrite Hv, Ha. Qed.

Lemma required_missing {A} (validator : value -> A + string) field
    (data : gmap string value) :
  data !! field = None ->
  required validator field data = inr (field, "missing").
Proof. intros Hv. unfold required. by rewrite Hv. Qed.

Lemma required_error_field {A} (validator : value -> A + string) field
    (data : gmap string value) e :
  required validator field data = inr e -> e.1 = field.
Proof.
  unfold required. destruct (data !! field) as [v|]; [|by intros [= <-]].
  destruct (validator v); [done|by intros [= <-]].
Qed.

Lemma optional_error_field {A} (validator : value -> A + string) field
    (data : gmap string value) e :
  optional validator field data = inr e -> e.1 = field.
Proof.
  unfold optional. destruct (data !! field) as [v|]; [|done].
  destruct v; try done; destruct (validator _); try done; by intros [= <-].
Qed.

Lemma errors_of_field {A} (r : A + string * string) field e :
  (forall e', r = inr e' -> e'.1 = field) -> e ∈ errors_of r -> e.1 = field.
Proof.
  intros H. destruct r as [a|e']; simpl.
  - by intros ?%elem_of_nil.
  - intros ->%list_elem_of_singleton. by apply H.
Qed.

(** C2, as stated, fails: an empty name, a negative quantity and a
    negative price build a Creation Input, with the price given as a
    decimal or as the text of one, and a negative quantity and price
    build an Update Input. *)
Lemma views_accept_empty_name_and_negative_numbers :
  (forall conversions : Conversions,
      ProductIn_init
        {[ "name" := VStr ""; "quantity" := VInt (-1);
           "price" := VDecimal (Finite true 1 (-2)); "status" := VBool true ]}
      = Ok (ProductIn.mk "" (-1) (Finite true 1 (-2)) true))
  /\ (forall conversions : Conversions,
        ProductIn_init
          {[ "name" := VStr ""; "quantity" := VInt (-1);
             "price" := VStr "-0.01"; "status" := VBool true ]}
        = Ok (ProductIn.mk "" (-1) (Finite true 1 (-2)) true))
  /\ (forall conversions : Conversions,
        ProductUpdate_init
          {[ "quantity" := VInt (-1); "price" := VStr "-0.01" ]}
        = Ok (ProductUpdate.mk (Some (-1))
                (Some {| high := 0xB03C000000000000; low := 1 |}) None None)).
Proof. split; [|split]; intros conversions; reflexivity. Qed.

(** An error list made of [errors_of] lines names fields of the view
    only: each line comes from a field's own check, and the hypotheses at
    hand say which field that check reports. *)
Ltac error_fields Herr :=
  simpl in Herr;
  repeat (apply elem_of_cons in Herr as [->|Herr];
          [match goal with
           | H : forall e', _ = inr e' -> _ |- _ => rewrite (H _ eq_refl)
           end;
           cbv [ProductIn.model_fields ProductOut.model_fields
                  ProductUpdate.model_fields];
           repeat first [apply list_elem_of_here | apply list_elem_of_further]|]);
  by apply elem_of_nil in Herr.

Lemma ProductIn_init_raises {conversions : Conversions} data e :
  ProductIn_init data = Raise e ->
  exists errors,
    e = ValidationError errors
    /\ forall err, err ∈ errors -> err.1 ∈ ProductIn.model_fields.
Proof.
  unfold ProductIn_init.
  pose proof (required_error_field str_validator "name" data) as Hn.
  pose proof (required_error_field int_validator "quantity" data) as Hq.
  pose proof (required_error_field decimal_validator "price" data) as Hp.
  pose proof (required_error_field bool_validator "status" data) as Hs.
  destruct (required str_validator "name" data),
    (required int_validator "quantity" data),
    (required decimal_validator "price" data),
    (required bool_validator "status" data);
    intros [= <-]; eexists; (split; [reflexivity|]);
    intros err Herr; error_fields Herr.
Qed.

Lemma ProductOut_init_error_fields {conversions : Conversions} data errors :
  ProductOut_init data = Raise (ValidationError errors) ->
  forall err, err ∈ errors -> err.1 ∈ ProductOut.model_fields.
Proof.
  unfold ProductOut_init.
  pose proof (required_error_field uuid_validator "id" data) as Hi.
  pose proof (required_error_field datetime_validator "created_at" data) as Hc.
  pose proof (required_error_field datetime_validator "updated_at" data) as Hu.
  pose proof (required_error_field str_validator "name" data) as Hn.
  pose proof (required_error_field int_validator "quantity" data) as Hq.
  pose proof (required_error_field decimal_validator "price" data) as Hp.
  pose proof (required_error_field bool_validator "status" data) as Hs.
  destruct (required uuid_validator "id" data),
    (required datetime_validator "created_at" data),
    (required datetime_validator "updated_at" data),
    (required str_validator "name" data),
    (required int_validator "quantity" data),
    (required decimal_validator "price" data),
    (required bool_validator "status" data);
    intros [= <-]; intros err Herr; error_fields Herr.
Qed.

(** What the [price] of a payload becomes in the Update Input. *)
Lemma ProductUpdate_init_price {conversions : Conversions} data body :
  ProductUpdate_init data = Ok body ->
  match data !! "price" with
  | None | Some VNone => ProductUpdate.price body = None
  | Some v =>
      exists d x,
        decimal_validator v = inl d /\ convert_decimal_128 d = Ok x
        /\ ProductUpdate.price body = Some x
  end.
Proof.
  unfold ProductUpdate_init.
  destruct (optional int_validator "quantity" data) as [q|eq];
    destruct (optional bool_validator "status" data) as [s|es];
    destruct (optional datetime_validator "updated_at" data) as [u|eu];
    (destruct (data !! "price") as [v|]; cbn [mbind result_bind];
     [|try (intros [= <-]; reflexivity); try discriminate]);
    (destruct (decide (v = VNone)) as [->|Hne];
     [try (intros [= <-]; reflexivity); try discriminate|]);
    (assert (Hv : forall T (a b : T),
               match v with VNone => a | _ => b end = b)
       by (by destruct v));
    unfold Decimal__validator;
    (destruct (decimal_validator v) as [d|type] eqn:Hd;
     [destruct (convert_decimal_128 d) as [x|[]] eqn:Hc|]);
    destruct v; try done; cbn [mbind result_bind]; try discriminate;
    intros [= <-]; eauto.
Qed.

Lemma ProductUpdate_init_raises {conversions : Conversions} data e :
  ProductUpdate_init data = Raise e ->
  (exists errors,
      e = ValidationError errors
      /\ forall err, err ∈ errors -> err.1 ∈ ProductUpdate.model_fields)
  \/ (exists v d, data !! "price" = Some v
                  /\ decimal_validator v = inl d
                  /\ convert_decimal_128 d = Raise e).
Proof.
  unfold ProductUpdate_init.
  pose proof (optional_error_field int_validator "quantity" data) as Hq.
  pose proof (optional_error_field bool_validator "status" data) as Hs.
  pose proof (optional_error_field datetime_validator "updated_at" data) as Hu.
  assert (Hok : forall (q : option Z + string * string)
                       (p : option Decimal128 + string * string)
                       (s : option bool + string * string)
                       (u : option datetime + string * string),
    (forall e', q = inr e' -> e'.1 = "quantity") ->
    (forall e', p = inr e' -> e'.1 = "price") ->
    (forall e', s = inr e' -> e'.1 = "status") ->
    (forall e', u = inr e' -> e'.1 = "updated_at") ->
    match q, p, s, u with
    | inl q0, inl p0, inl s0, inl u0 => Ok (ProductUpdate.mk q0 p0 s0 u0)
    | _, _, _, _ =>
        Raise (ValidationError
                 (errors_of q ++ errors_of p ++ errors_of s ++ errors_of u))
    end = Raise e ->
    exists errors,
      e = ValidationError errors
      /\ forall err, err ∈ errors -> err.1 ∈ ProductUpdate.model_fields).
  { intros q p s u Hq' Hp' Hs' Hu'.
    destruct q, p, s, u; intros [= <-]; eexists; (split; [reflexivity|]);
      intros err Herr; error_fields Herr. }
  destruct (data !! "price") as [v|] eqn:Hv; simpl.
  2:{ intros H. left. apply (Hok _ (inl None) _ _ Hq ltac:(done) Hs Hu H). }
  destruct (decide (v = VNone)) as [->|Hne]; simpl.
  { intros H. left. apply (Hok _ (inl None) _ _ Hq ltac:(done) Hs Hu H). }
  assert (Hb : forall r : result (Decimal128 + string),
    (r = Decimal__validator v) ->
    (r ≫= (fun r => match r with
                    | inl x => Ok (inl (Some x))
                    | inr type => Ok (inr ("price", type))
                    end)) ≫=
      (fun price =>
         match optional int_validator "quantity" data, price,
               optional bool_validator "status" data,
               optional datetime_validator "updated_at" data with
         | inl q0, inl p0, inl s0, inl u0 => Ok (ProductUpdate.mk q0 p0 s0 u0)
         | _, _, _, _ =>
             Raise (ValidationError
                      (errors_of (optional int_validator "quantity" data)
                         ++ errors_of price
                         ++ errors_of (optional bool_validator "status" data)
                         ++ errors_of (optional datetime_validator "updated_at" data)))
         end) = Raise e ->
    (exists errors,
      e = ValidationError errors
      /\ forall err, err ∈ errors -> err.1 ∈ ProductUpdate.model_fields)
    \/ (exists v' d, Some v = Some v' /\ decimal_validator v' = inl d
                     /\ convert_decimal_128 d = Raise e)).
  { intros r Hr. destruct r as [[x|type]|e0]; simpl.
    - intros H. left. apply (Hok _ (inl (Some x)) _ _ Hq ltac:(done) Hs Hu H).
    - intros H. left.
      apply (Hok _ (inr ("price", type)) _ _ Hq ltac:(by intros ? [= <-]) Hs Hu H).
    - intros [= <-]. right. unfold Decimal__validator in Hr.
      destruct (decimal_validator v) as [d|] eqn:Hd; [|done].
      exists v, d. split; [done|]. split; [done|].
      destruct (convert_decimal_128 d) as [|[]]; congruence. }
  intros H. apply (Hb _ eq_refl). destruct v; try done.
Qed.

Lemma uuid_validator_UUID4 {conversions : Conversions} (u : UUID) :
  (u < 2 ^ 128)%N -> UUID_version u = Some 4%N ->
  uuid_validator (VUUID u) = inl u.
Proof.
  intros Hlt Hv. unfold uuid_validator.
  rewrite (proj2 (N.ltb_lt _ _) Hlt). cbn [negb]. by rewrite decide_True.
Qed.

(** C2, as amended. Building a view puts no constraint on the value of
    a name, a quantity or a price: every name (the empty one too), every
    quantity and every finite price (negative ones too) builds the
    Creation Input and the Output Form, which hold them as given (a price
    given as an integer is held as the decimal of that integer), and
    builds the Update Input when the Decimal128 format can hold the price,
    which is then held as the Decimal128 of the same sign and value; a
    required field that is missing makes the construction fail with a
    [ValidationError] that names it; and a [ValidationError] names fields
    of the view only. *)
Theorem views_check_presence_and_type_only {conversions : Conversions} :
  (forall data name quantity sign coefficient exponent status,
      data !! "name" = Some (VStr name) ->
      data !! "quantity" = Some (VInt quantity) ->
      data !! "price" = Some (VDecimal (Finite sign coefficient exponent)) ->
      data !! "status" = Some (VBool status) ->
      ProductIn_init data
      = Ok (ProductIn.mk name quantity (Finite sign coefficient exponent) status)
      /\ forall id created_at updated_at,
          data !! "id" = Some (VUUID id) ->
          (id < 2 ^ 128)%N -> UUID_version id = Some 4%N ->
          data !! "created_at" = Some (VDatetime created_at) ->
          data !! "updated_at" = Some (VDatetime updated_at) ->
          ProductOut_init data
          = Ok (ProductOut.mk id name quantity
                  (Finite sign coefficient exponent) status created_at
                  updated_at))
  /\ (forall data name quantity price status,
        data !! "name" = Some (VStr name) ->
        data !! "quantity" = Some (VInt quantity) ->
        data !! "price" = Some (VInt price) ->
        data !! "status" = Some (VBool status) ->
        ProductIn_init data
        = Ok (ProductIn.mk name quantity (Decimal_of_int price) status))
  /\ (forall data quantity sign coefficient exponent status,
        data !! "quantity" = Some (VInt quantity) ->
        data !! "price" = Some (VDecimal (Finite sign coefficient exponent)) ->
        representable coefficient exponent ->
        data !! "status" = Some (VBool status) ->
        data !! "updated_at" = None ->
        exists x c' e',
          ProductUpdate_init data
          = Ok (ProductUpdate.mk (Some quantity) (Some x) (Some status) None)
          /\ to_decimal x = Ok (Finite sign c' e')
          /\ same_value coefficient exponent c' e')
  /\ (forall data field,
        data !! field = None ->
        (field ∈ ProductIn.model_fields ->
         exists errors,
           ProductIn_init data = Raise (ValidationError errors)
           /\ (field, "missing") ∈ errors)
        /\ (field ∈ ProductOut.model_fields ->
            exists errors,
              ProductOut_init data = Raise (ValidationError errors)
              /\ (field, "missing") ∈ errors))
  /\ (forall data errors,
        (ProductIn_init data = Raise (ValidationError errors) ->
         forall err, err ∈ errors -> err.1 ∈ ProductIn.model_fields)
        /\ (ProductOut_init data = Raise (ValidationError errors) ->
            forall err, err ∈ errors -> err.1 ∈ ProductOut.model_fields)
        /\ (ProductUpdate_init data = Raise (ValidationError errors) ->
            forall err, err ∈ errors -> err.1 ∈ ProductUpdate.model_fields)).
Proof.
  split; [|split; [|split; [|split]]].
  - intros data n q sg c e st Hn Hq Hp Hs. split.
    + unfold ProductIn_init.
      by rewrite (required_present str_validator _ _ _ _ Hn eq_refl),
        (required_present int_validator _ _ _ _ Hq eq_refl),
        (required_present decimal_validator _ _ _ _ Hp eq_refl),
        (required_present bool_validator _ _ _ _ Hs eq_refl).
    + intros i ca ua Hi Hlt Hv4 Hca Hua. unfold ProductOut_init.
      by rewrite (required_present str_validator _ _ _ _ Hn eq_refl),
        (required_present int_validator _ _ _ _ Hq eq_refl),
        (required_present decimal_validator _ _ _ _ Hp eq_refl),
        (required_present bool_validator _ _ _ _ Hs eq_refl),
        (required_present uuid_validator _ _ _ _ Hi
           (uuid_validator_UUID4 i Hlt Hv4)),
        (required_present datetime_validator _ _ _ _ Hca eq_refl),
        (required_present datetime_validator _ _ _ _ Hua eq_refl).
  - intros data n q z st Hn Hq Hp Hs. unfold ProductIn_init.
    by rewrite (required_present str_validator _ _ _ _ Hn eq_refl),
      (required_present int_validator _ _ _ _ Hq eq_refl),
      (required_present decimal_validator _ _ _ _ Hp eq_refl),
      (required_present bool_validator _ _ _ _ Hs eq_refl).
  - intros data q sg c e st Hq Hp Hrep Hs Hu.
    apply (convert_decimal_128_succeeds_iff_representable sg) in Hrep
      as [x Hx].
    destruct (convert_decimal_128_Ok _ _ _ _ Hx) as (c' & e' & _ & Hval & Ht).
    exists x, c', e'. split; [|by split].
    unfold ProductUpdate_init, optional.
    rewrite Hq, Hp, Hs, Hu. cbn [int_validator bool_validator].
    unfold Decimal__validator. cbn [decimal_validator finite_number].
    by rewrite Hx.
  - intros data field Hnone. split; intros Hf.
    + unfold ProductIn.model_fields in Hf.
      repeat (apply elem_of_cons in Hf as [->|Hf]);
        [..|by apply elem_of_nil in Hf];
        unfold ProductIn_init;
        rewrite (required_missing _ _ _ Hnone);
        repeat match goal with
          | |- context [required ?v ?f data] => destruct (required v f data)
          end;
        eexists; (split; [reflexivity|]); simpl;
        repeat first [apply list_elem_of_here | apply list_elem_of_further].
    + unfold ProductOut.model_fields in Hf.
      repeat (apply elem_of_cons in Hf as [->|Hf]);
        [..|by apply elem_of_nil in Hf];
        unfold ProductOut_init;
        rewrite (required_missing _ _ _ Hnone);
        repeat match goal with
          | |- context [required ?v ?f data] => destruct (required v f data)
          end;
        eexists; (split; [reflexivity|]); simpl;
        repeat first [apply list_elem_of_here | apply list_elem_of_further].
  - intros data errors. split; [|split].
    + intros H. destruct (ProductIn_init_raises _ _ H) as (errs & [= <-] & He).
      done.
    + apply ProductOut_init_error_fields.
    + intros H. destruct (ProductUpdate_init_raises _ _ H)
        as [(errs & [= <-] & He)|(v & d & Hd & _ & Hc)]; [done|].
      exfalso. revert Hc. apply convert_decimal_128_not_ValidationError.
Qed.

Lemma update_delete_absent_id_not_found_witness :
  (forall doc, doc ∈ [widget] -> doc !! "id" ≠ Some (VUUID other_id))
  /\ (forall conversions : Conversions,
        usecases.update not_found_message other_id
          (ProductUpdate.mk (Some 5) None None None) [widget]
        = (Raise (NotFoundException (not_found_message other_id)), [widget])
        /\ delete_route (usecase not_found_message rejected_create) other_id
             [widget]
           = (status.HTTP_404_NOT_FOUND, [widget])).
Proof.
  assert (H : forall doc,
             doc ∈ [widget] -> doc !! "id" ≠ Some (VUUID other_id)).
  { intros doc Hdoc. apply list_elem_of_singleton in Hdoc. subst doc.
    vm_compute. discriminate. }
  split; [exact H|]. intros conversions.
  pose proof (update_delete_absent_id_not_found not_found_message
                rejected_create other_id
                (ProductUpdate.mk (Some 5) None None None)
                200 [widget] H) as (Hu & _ & _ & _ & _ & Hd).
  exact (conj Hu Hd).
Defined.

(** ** Claims on the precision adapter at the update boundary *)

Lemma finite_number_inl d d' :
  finite_number d = inl d' -> d' = d /\ exists s c e, d = Finite s c e.
Proof. destruct d; [|done|done]. intros [= <-]. eauto. Qed.

Lemma decimal_validator_finite {conversions : Conversions} v d :
  decimal_validator v = inl d -> exists s c e, d = Finite s c e.
Proof.
  unfold decimal_validator. destruct v as [|b|z|s|x|d0|d0|t|u]; try discriminate.
  - intros [-> ?]%finite_number_inl. done.
  - destruct (Decimal_new s) as [d0|]; [|discriminate].
    intros [-> ?]%finite_number_inl. done.
  - destruct (Decimal_new (float_repr x)) as [d0|]; [|discriminate].
    intros [-> ?]%finite_number_inl. done.
  - intros [-> ?]%finite_number_inl. done.
Qed.

(** C9. When an Update Input was built and holds a price, the payload
    gave a value there that the [Decimal] validator read as a finite
    decimal, and the price held is the Decimal128 that
    [convert_decimal_128] made of that decimal: it reads back as a
    decimal of the same sign and the same numeric value. A payload with a
    price builds no Update Input without that conversion having
    succeeded, and the handler hands the price to the use case as it
    holds it, a Decimal128. *)
Theorem update_input_price_is_converted_decimal128
    {conversions : Conversions}
    (data : gmap string value) (body : ProductUpdate.t) :
  ProductUpdate_init data = Ok body ->
  (forall x,
      ProductUpdate.price body = Some x ->
      exists v sign c e c' e',
        data !! "price" = Some v
        /\ decimal_validator v = inl (Finite sign c e)
        /\ convert_decimal_128 (Finite sign c e) = Ok x
        /\ to_decimal x = Ok (Finite sign c' e')
        /\ canonical c' e'
        /\ same_value c e c' e')
  /\ (forall v,
        data !! "price" = Some v -> v ≠ VNone ->
        exists sign c e x,
          decimal_validator v = inl (Finite sign c e)
          /\ convert_decimal_128 (Finite sign c e) = Ok x
          /\ ProductUpdate.price body = Some x)
  /\ (forall S (usecase : ProductUsecase.t S) id utcnow s,
        patch usecase id body utcnow s
        = try_except
            (ProductUsecase.update usecase id
               (ProductUpdate.mk (ProductUpdate.quantity body)
                  (ProductUpdate.price body) (ProductUpdate.status body)
                  (Some utcnow)))
            except_NotFoundException s).
Proof.
  intros Hinit. pose proof (ProductUpdate_init_price _ _ Hinit) as Hp.
  assert (Hset : forall v,
    data !! "price" = Some v -> v ≠ VNone ->
    exists sign c e x,
      decimal_validator v = inl (Finite sign c e)
      /\ convert_decimal_128 (Finite sign c e) = Ok x
      /\ ProductUpdate.price body = Some x).
  { intros v Hv Hne. rewrite Hv in Hp.
    assert (exists d x, decimal_validator v = inl d
                        /\ convert_decimal_128 d = Ok x
                        /\ ProductUpdate.price body = Some x)
      as (d & x & Hd & Hc & Hb) by (by destruct v).
    destruct (decimal_validator_finite _ _ Hd) as (sign & c & e & ->).
    by exists sign, c, e, x. }
  split; [|split; [exact Hset|reflexivity]].
  intros x Hx. destruct (data !! "price") as [v|] eqn:Hv; [|congruence].
  destruct (decide (v = VNone)) as [->|Hne]; [congruence|].
  destruct (Hset v eq_refl Hne) as (sign & c & e & x' & Hd & Hc & Hb).
  assert (x' = x) as -> by congruence.
  destruct (convert_decimal_128_Ok _ _ _ _ Hc) as (c' & e' & Hcan & Hval & Ht).
  by exists v, sign, c, e, c', e'.
Qed.

Lemma update_input_price_is_converted_decimal128_witness :
  (forall conversions : Conversions,
      ProductUpdate_init {[ "price" := VStr "19.99" ]}
      = Ok (ProductUpdate.mk None
              (Some {| high := 0x303C000000000000; low := 1999 |}) None None))
  /\ (forall conversions : Conversions,
        exists v sign c e c' e',
          ({[ "price" := VStr "19.99" ]} : gmap string value) !! "price"
          = Some v
          /\ decimal_validator v = inl (Finite sign c e)
          /\ convert_decimal_128 (Finite sign c e)
             = Ok {| high := 0x303C000000000000; low := 1999 |}
          /\ to_decimal {| high := 0x303C000000000000; low := 1999 |}
             = Ok (Finite sign c' e')
          /\ canonical c' e'
          /\ same_value c e c' e').
Proof.
  assert (H : forall conversions : Conversions,
             ProductUpdate_init {[ "price" := VStr "19.99" ]}
             = Ok (ProductUpdate.mk None
                     (Some {| high := 0x303C000000000000; low := 1999 |})
                     None None))
    by (intros conversions; reflexivity).
  split; [exact H|]. intros conversions.
  exact (proj1 (update_input_price_is_converted_decimal128 _ _ (H conversions))
           _ eq_refl).
Defined.

Lemma ProductUpdate_init_price_raises {conversions : Conversions}
    data v s c e x :
  data !! "price" = Some v ->
  decimal_validator v = inl (Finite s c e) ->
  convert_decimal_128 (Finite s c e) = Raise x ->
  ProductUpdate_init data = Raise x.
Proof.
  intros Hp Hd Hc. unfold ProductUpdate_init. rewrite Hp.
  assert (Hv : Decimal__validator v = Raise x).
  { unfold Decimal__validator. rewrite Hd, Hc.
    by destruct (convert_decimal_128_finite_raises _ _ _ _ Hc) as [-> | ->]. }
  destruct v; try discriminate; by rewrite Hv.
Qed.

(** A finite decimal that no Decimal128 has the value of makes
    [convert_decimal_128] raise the [decimal] module's [Inexact] or
    [Overflow]; building the Update Input from a payload whose price is
    read as that decimal raises the same exception, not a validation
    error, and the route answers 500. *)
Lemma unrepresentable_price_raises_decimal_signal {conversions : Conversions}
    (sign : bool) (c : N) (e : Z) :
  ~ representable c e ->
  exists x,
    (x = Inexact \/ x = Overflow)
    /\ convert_decimal_128 (Finite sign c e) = Raise x
    /\ forall data v,
        data !! "price" = Some v ->
        decimal_validator v = inl (Finite sign c e) ->
        ProductUpdate_init data = Raise x
        /\ forall S (usecase : ProductUsecase.t S) id utcnow s,
            patch_route usecase id data utcnow s
            = (status.HTTP_500_INTERNAL_SERVER_ERROR, s).
Proof.
  intros Hrep.
  destruct (convert_decimal_128 (Finite sign c e)) as [x|x] eqn:Hc.
  { exfalso. apply Hrep.
    destruct (convert_decimal_128_Ok _ _ _ _ Hc) as (c' & e' & ? & ? & _).
    by exists c', e'. }
  exists x. destruct (convert_decimal_128_finite_raises _ _ _ _ Hc) as [Hx|Hx].
  all: split; [auto|]; split; [done|]; intros data v Hp Hd;
    pose proof (ProductUpdate_init_price_raises _ _ _ _ _ _ Hp Hd Hc) as Hi;
    (split; [done|]); intros S usecase id utcnow st;
    unfold patch_route; rewrite Hi; by subst x.
Qed.

Lemma not_representable_35_digits : ~ representable (10 ^ 34 + 1) (-34).
Proof.
  intros (c' & e' & [Hc [He1 He2]] & Hv).
  destruct context_bounds as (Hd & Hi & Ht & _). rewrite Hd in Hc.
  unfold same_value in Hv.
  assert (Hn : Z.of_N (10 ^ 34 + 1) = 10 ^ 34 + 1) by (vm_compute; reflexivity).
  rewrite Hn in Hv. clear Hn.
  assert (Hbig : 10 ^ 34 = 10 * 10 ^ 33) by (vm_compute; reflexivity).
  rewrite Hbig in *. clear Hbig.
  assert (Hw : 0 < 10 ^ 33) by (apply pow10_pos; lia).
  set (w := 10 ^ 33) in *. clearbody w.
  destruct (Z.le_gt_cases e' (-34)) as [Hle|Hgt].
  - rewrite Z.min_r in Hv by lia.
    replace (e' - e') with 0 in Hv by lia. rewrite Z.pow_0_r in Hv.
    assert (0 < 10 ^ (-34 - e')) by (apply pow10_pos; lia).
    set (p := 10 ^ (-34 - e')) in *. clearbody p.
    nia.
  - rewrite Z.min_l in Hv by lia.
    replace (-34 - -34) with 0 in Hv by lia. rewrite Z.pow_0_r in Hv.
    replace (e' - -34) with (Z.succ (e' + 33)) in Hv by lia.
    rewrite Z.pow_succ_r in Hv by lia.
    set (y := 10 ^ (e' + 33)) in *. clearbody y.
    assert (Hy : Z.of_N c' * (10 * y) = 10 * (Z.of_N c' * y)) by ring.
    rewrite Hy in Hv. set (z := Z.of_N c' * y) in *. clearbody z.
    lia.
Qed.

(** C8. The conversion runs inside the validation of the Update Input,
    where a price that is an infinity is answered 422; a price of 35
    significant digits, which no Decimal128 holds, is not: the conversion
    raises [Inexact], the Update Input is not built, the exception leaves
    the validation as it is and the route answers 500. So it is for
    every price the payload gives that is read as a finite decimal no
    Decimal128 has the value of: the conversion raises [Inexact] or
    [Overflow], and the route answers 500 without calling the use
    case. *)
Lemma unrepresentable_price_is_a_server_error :
  convert_decimal_128 (Finite false (10 ^ 34 + 1) (-34)) = Raise Inexact
  /\ (forall conversions : Conversions,
        ProductUpdate_init
          {[ "price" := VStr "1.0000000000000000000000000000000001" ]}
        = Raise Inexact)
  /\ (forall conversions : Conversions,
        patch_route (usecase not_found_message rejected_create) widget_id
          {[ "price" := VStr "1.0000000000000000000000000000000001" ]}
          200 [widget]
        = (status.HTTP_500_INTERNAL_SERVER_ERROR, [widget]))
  /\ (forall conversions : Conversions,
        patch_route (usecase not_found_message rejected_create) widget_id
          {[ "price" := VStr "Infinity" ]} 200 [widget]
        = (status.HTTP_422_UNPROCESSABLE_ENTITY, [widget]))
  /\ ~ representable (10 ^ 34 + 1) (-34)
  /\ (forall (conversions : Conversions) sign c e data v
             S (u : ProductUsecase.t S) id utcnow s,
        ~ representable c e ->
        data !! "price" = Some v ->
        decimal_validator v = inl (Finite sign c e) ->
        exists x,
          (x = Inexact \/ x = Overflow)
          /\ convert_decimal_128 (Finite sign c e) = Raise x
          /\ ProductUpdate_init data = Raise x
          /\ patch_route u id data utcnow s
             = (status.HTTP_500_INTERNAL_SERVER_ERROR, s)).
Proof.
  split; [|split; [|split; [|split; [|split]]]].
  1-4: try intros conversions; vm_compute; reflexivity.
  - exact not_representable_35_digits.
  - intros conversions sign c e data v S u id utcnow s Hrep Hp Hd.
    destruct (unrepresentable_price_raises_decimal_signal sign c e Hrep)
      as (x & Hx & Hc & H).
    destruct (H data v Hp Hd) as [Hi Hr]. exists x. by rewrite Hr.
Qed.

(** * Further properties of the precision adapter *)

(** ** The text of a decimal *)

Lemma lower_digit a : is_digit a = true -> lower a = a.
Proof.
  destruct a as [[] [] [] [] [] [] [] []]; simpl; try discriminate; reflexivity.
Qed.

Lemma lower_str_digits s : digits_only s -> lower_str s = s.
Proof.
  induction s as [|a s IH]; simpl; [done|].
  intros [Ha Hs]. by rewrite lower_digit, IH.
Qed.

Lemma span_digits_empty_or_str_N p :
  span_digits (if (p =? 0)%N then "" else str_N p)
  = (if (p =? 0)%N then "" else str_N p, "").
Proof.
  destruct (p =? 0)%N; [done|]. apply span_digits_all, digits_only_str_N.
Qed.

Lemma int_of_digits_empty_or_str_N p :
  int_of_digits (if (p =? 0)%N then "" else str_N p) = p.
Proof.
  destruct (N.eqb_spec p 0) as [->|]; [done|]. apply int_of_digits_str_N.
Qed.

Lemma Decimal_of_str_special sign r :
  (forall a r', r = String a r' -> is_digit a = false /\ a <> "."%char
                                   /\ a <> "-"%char /\ a <> "+"%char) ->
  r <> "" ->
  Decimal_of_str (sign_str sign +:+ r) = parse_special sign r.
Proof.
  intros Hhead Hne. destruct r as [|a r']; [done|].
  destruct (Hhead a r' eq_refl) as (Hd & Hdot & Hm & Hp).
  assert (Hpn : parse_number (String a r') = None).
  { unfold parse_number. cbn [span_digits]. rewrite Hd.
    destruct a as [[] [] [] [] [] [] [] []]; try done. }
  unfold Decimal_of_str. destruct sign; cbn [sign_str].
  - rewrite append_cons, append_nil_l. by rewrite Hpn.
  - rewrite append_nil_l.
    destruct a as [[] [] [] [] [] [] [] []]; try done; by rewrite Hpn.
Qed.

Lemma Decimal_of_str_Infinity sign :
  Decimal_of_str (Decimal_str (Infinity sign)) = Some (Infinity sign).
Proof. by destruct sign. Qed.

Lemma Decimal_of_str_NaN sign sig p :
  Decimal_of_str (Decimal_str (NaN sign sig p)) = Some (NaN sign sig p).
Proof.
  cbn [Decimal_str]. set (ds := if (p =? 0)%N then "" else str_N p).
  assert (Hds : digits_only ds).
  { unfold ds. destruct (p =? 0)%N; [done|apply digits_only_str_N]. }
  rewrite Decimal_of_str_special.
  - unfold parse_special.
    destruct sig; rewrite !append_cons, append_nil_l; cbn [lower_str];
      rewrite (lower_str_digits ds Hds);
      change (lower "s") with "s"%char; change (lower "N") with "n"%char;
      change (lower "a") with "a"%char; cbn -[span_digits int_of_digits];
      unfold ds; rewrite span_digits_empty_or_str_N;
      cbn [is_empty]; by rewrite int_of_digits_empty_or_str_N.
  - intros a r'. destruct sig; rewrite !append_cons; intros [= <- _]; done.
  - by destruct sig.
Qed.

(** X1. [str(v)] loses nothing: for every decimal, finite or not, the
    constructor reads the text back as the same sign, coefficient (or
    payload) and exponent; two decimals with the same text are the same
    decimal. *)
Theorem Decimal_str_determines_decimal :
  (forall d, Decimal_of_str (Decimal_str d) = Some d)
  /\ (forall d d', Decimal_str d = Decimal_str d' -> d = d').
Proof.
  assert (H : forall d, Decimal_of_str (Decimal_str d) = Some d).
  { intros [s c e|s|s sig p].
    - apply Decimal_of_str_Decimal_str.
    - apply Decimal_of_str_Infinity.
    - apply Decimal_of_str_NaN. }
  split; [exact H|].
  intros d d' Heq. apply (f_equal Decimal_of_str) in Heq.
  rewrite !H in Heq. by injection Heq.
Qed.

(** ** What [Decimal128(str(v))] holds *)

Lemma create_decimal_finite_canonical num s c e :
  create_decimal num = Ok (Finite s c e) -> canonical c e.
Proof.
  unfold create_decimal.
  destruct (Decimal_of_str num) as [[s0 c0 e0|s0|s0 sg p]|]; try discriminate.
  - intros H. destruct (_fix_Ok _ _ _ _ H) as (c' & e' & Heq & Hcan & _).
    by injection Heq as -> -> ->.
  - destruct (_ <? _); discriminate.
Qed.

(** The two words [_decimal_to_128] builds for a canonical decimal. *)
Lemma Decimal128_of_str_finite num s c e :
  create_decimal num = Ok (Finite s c e) ->
  Decimal128_of_str num
  = Ok {| high := Z.of_N c / 2 ^ 64 + (e + _EXPONENT_BIAS) * 2 ^ 49
                  + (if s then 2 ^ 63 else 0);
          low := Z.of_N c mod 2 ^ 64 |}.
Proof.
  intros H. destruct (create_decimal_finite_canonical _ _ _ _ H) as [Hc He].
  destruct context_bounds as (Hd & Hi & Ht & Hb).
  rewrite Hd in Hc. rewrite Hi, Ht in He.
  unfold Decimal128_of_str, _decimal_to_128.
  rewrite H. cbn [mbind result_bind fst snd].
  assert (Hhi : 0 <= Z.of_N c / 2 ^ 64 < 2 ^ 49).
  { split; [apply Z.div_pos; lia|]. apply Z.div_lt_upper_bound; lia. }
  rewrite copy_bits_low, copy_bits_high by lia.
  rewrite !Z.shiftr_div_pow2 by lia.
  rewrite (Z.div_small (Z.of_N c / 2 ^ 64) (2 ^ 49)) by done.
  change (0 =? 1) with false. cbv iota.
  rewrite high_word_sum by (rewrite ?Hb; lia).
  done.
Qed.

Lemma convert_decimal_128_Infinity s :
  convert_decimal_128 (Infinity s)
  = Ok {| high := _INF + (if s then _SIGN else 0); low := 0 |}.
Proof. by destruct s. Qed.

Lemma convert_decimal_128_NaN s sig p :
  convert_decimal_128 (NaN s sig p)
  = if _MAX_DIGITS - 1 <? (if (p =? 0)%N then 0 else ndigits p)
    then Raise InvalidOperation
    else if negb (p =? 0)%N
         then Raise (ValueError "NaN with debug payload is not supported")
         else Ok {| high := (if sig then _SNAN else _NAN)
                            + (if s then _SIGN else 0);
                    low := 0 |}.
Proof.
  unfold convert_decimal_128, Decimal128_of_str, _decimal_to_128, create_decimal.
  rewrite Decimal_of_str_NaN.
  destruct (_ <? _); [done|]. cbn [_fix mbind result_bind].
  destruct (negb _); [done|]. by destruct sig, s.
Qed.

Lemma to_decimal_special (s : bool) :
  to_decimal {| high := _INF + (if s then _SIGN else 0); low := 0 |}
  = Ok (Infinity s)
  /\ forall sig : bool,
      to_decimal {| high := (if sig then _SNAN else _NAN)
                            + (if s then _SIGN else 0);
                    low := 0 |}
      = Ok (NaN s sig 0).
Proof. split; [by destruct s|]. intros sig. by destruct s, sig. Qed.

(** X2. Both words of a stored decimal fit in 64 bits, whatever decimal
    was converted: a finite one, an infinity or a NaN. *)
Theorem convert_decimal_128_words_fit (v : Decimal) (x : Decimal128) :
  convert_decimal_128 v = Ok x ->
  0 <= high x < 2 ^ 64 /\ 0 <= low x < 2 ^ 64.
Proof.
  unfold convert_decimal_128. intros H.
  destruct (create_decimal (Decimal_str v)) as [[s c e|s|s sig p]|err] eqn:Hc.
  - rewrite (Decimal128_of_str_finite _ _ _ _ Hc) in H. injection H as <-.
    destruct (create_decimal_finite_canonical _ _ _ _ Hc) as [Hlt He].
    destruct context_bounds as (Hd & Hi & Ht & Hb).
    rewrite Hd in Hlt. rewrite Hi, Ht in He. rewrite Hb. cbn [high low].
    assert (0 <= Z.of_N c / 2 ^ 64 < 2 ^ 49).
    { split; [apply Z.div_pos; lia|]. apply Z.div_lt_upper_bound; lia. }
    pose proof (Z.mod_pos_bound (Z.of_N c) (2 ^ 64) ltac:(lia)).
    destruct s; lia.
  - unfold Decimal128_of_str, _decimal_to_128 in H. rewrite Hc in H.
    cbn [mbind result_bind] in H. destruct s; inversion H; by vm_compute.
  - unfold Decimal128_of_str, _decimal_to_128 in H. rewrite Hc in H.
    cbn [mbind result_bind] in H.
    destruct (negb _); [discriminate|].
    destruct s, sig; inversion H; by vm_compute.
  - unfold Decimal128_of_str, _decimal_to_128 in H. rewrite Hc in H.
    discriminate.
Qed.

Lemma convert_decimal_128_words_fit_witness :
  convert_decimal_128 (Finite true 1999 (-2))
  = Ok {| high := 0xB03C000000000000; low := 1999 |}
  /\ 0 <= 0xB03C000000000000 < 2 ^ 64 /\ 0 <= 1999 < 2 ^ 64.
Proof.
  assert (H : convert_decimal_128 (Finite true 1999 (-2))
              = Ok {| high := 0xB03C000000000000; low := 1999 |})
    by (vm_compute; reflexivity).
  split; [exact H|].
  exact (convert_decimal_128_words_fit _ _ H).
Defined.

(** X3. A conversion that succeeds never changes the number: the stored
    value reads back as a decimal of the same sign and the same numeric
    value, in the form the Decimal128 context keeps (at most 34 digits,
    exponent from -6176 to 6111), and prints as that decimal. Nothing is
    rounded silently. *)
Theorem convert_decimal_128_keeps_sign_and_value
    (sign : bool) (c : N) (e : Z) (x : Decimal128) :
  convert_decimal_128 (Finite sign c e) = Ok x ->
  exists c' e',
    to_decimal x = Ok (Finite sign c' e')
    /\ Decimal128_str x = Ok (Decimal_str (Finite sign c' e'))
    /\ canonical c' e'
    /\ same_value c e c' e'.
Proof.
  intros H.
  destruct (convert_decimal_128_Ok _ _ _ _ H) as (c' & e' & Hcan & Hval & Ht).
  exists c', e'. split; [exact Ht|].
  split; [by apply Decimal128_str_finite|]. by split.
Qed.

Lemma convert_decimal_128_keeps_sign_and_value_witness :
  convert_decimal_128 (Finite false 12 6112)
  = Ok {| high := 0x5FFE000000000000; low := 120 |}
  /\ exists c' e',
      to_decimal {| high := 0x5FFE000000000000; low := 120 |}
      = Ok (Finite false c' e')
      /\ Decimal128_str {| high := 0x5FFE000000000000; low := 120 |}
         = Ok (Decimal_str (Finite false c' e'))
      /\ canonical c' e'
      /\ same_value 12 6112 c' e'.
Proof.
  assert (H : convert_decimal_128 (Finite false 12 6112)
              = Ok {| high := 0x5FFE000000000000; low := 120 |})
    by (vm_compute; reflexivity).
  split; [exact H|].
  exact (convert_decimal_128_keeps_sign_and_value _ _ _ _ H).
Defined.

(** X4. A zero always converts, whatever its exponent: only the exponent
    is brought into the range the format has, and the sign of the zero
    is kept. *)
Theorem convert_decimal_128_zero (sign : bool) (e : Z) :
  exists x,
    convert_decimal_128 (Finite sign 0 e) = Ok x
    /\ to_decimal x = Ok (Finite sign 0 (Z.min (Z.max e Etiny) Etop))
    /\ low x = 0
    /\ (Etiny <= e <= Etop -> to_decimal x = Ok (Finite sign 0 e)).
Proof.
  set (e' := Z.min (Z.max e Etiny) Etop).
  assert (Hcan : canonical 0 e').
  { destruct context_bounds as (Hd & Hi & Ht & _).
    split; [by rewrite Hd|]. unfold e'. lia. }
  assert (Hfix : _fix (Finite sign 0 e) = Ok (Finite sign 0 e')) by done.
  eexists. split; [exact (convert_decimal_128_fix_Ok _ _ _ _ _ _ Hfix Hcan)|].
  pose proof (to_decimal_high_low sign 0 e' Hcan) as Ht.
  split; [exact Ht|]. split; [done|].
  intros He. rewrite Ht. do 2 f_equal. unfold e'. lia.
Qed.

Lemma _fix_sign s s' c e :
  _fix (Finite s' c e)
  = match _fix (Finite s c e) with
    | Ok (Finite _ c' e') => Ok (Finite s' c' e')
    | r => r
    end.
Proof.
  unfold _fix.
  repeat match goal with
    | |- context [if ?b then _ else _] => destruct b
    end; reflexivity.
Qed.

(** X5. Negating a decimal changes the sign bit of the stored value and
    nothing else: the negative of a decimal that converts is stored with
    [high] larger by [2 ^ 63] and the same [low], and a decimal is
    refused exactly when its negative is, with the same exception. *)
Theorem convert_decimal_128_negation (c : N) (e : Z) :
  (forall x,
      convert_decimal_128 (Finite false c e) = Ok x ->
      high x < 2 ^ 63
      /\ convert_decimal_128 (Finite true c e)
         = Ok {| high := high x + 2 ^ 63; low := low x |})
  /\ (forall x,
        convert_decimal_128 (Finite true c e) = Ok x ->
        2 ^ 63 <= high x
        /\ convert_decimal_128 (Finite false c e)
           = Ok {| high := high x - 2 ^ 63; low := low x |})
  /\ (forall err,
        convert_decimal_128 (Finite false c e) = Raise err
        <-> convert_decimal_128 (Finite true c e) = Raise err).
Proof.
  pose proof (_fix_sign false true c e) as Hs.
  destruct context_bounds as (Hd & Hi & Ht & Hb).
  destruct (_fix (Finite false c e)) as [d|err0] eqn:Hf.
  - destruct (_fix_Ok _ _ _ _ Hf) as (c' & e' & -> & Hcan & _).
    rewrite (convert_decimal_128_fix_Ok _ _ _ _ _ _ Hf Hcan).
    rewrite (convert_decimal_128_fix_Ok _ _ _ _ _ _ Hs Hcan).
    destruct Hcan as [Hc He]. rewrite Hd in Hc. rewrite Hi, Ht in He.
    assert (0 <= Z.of_N c' / 2 ^ 64 < 2 ^ 49).
    { split; [apply Z.div_pos; lia|]. apply Z.div_lt_upper_bound; lia. }
    rewrite Hb. split; [|split].
    + intros x [= <-]. cbn [high low]. split; [lia|]. do 2 f_equal; lia.
    + intros x [= <-]. cbn [high low]. split; [lia|]. do 2 f_equal; lia.
    + intros err. split; discriminate.
  - rewrite (convert_decimal_128_fix_raises _ _ _ _ Hf).
    rewrite (convert_decimal_128_fix_raises _ _ _ _ Hs).
    split; [|split]; try discriminate. done.
Qed.

(** X6. Reading a stored decimal back and converting it again gives the
    very same two words: a read-modify-write cycle does not change a
    price that was left alone. *)
Theorem convert_decimal_128_of_read_back
    (v : Decimal) (x : Decimal128) (d : Decimal) :
  convert_decimal_128 v = Ok x ->
  to_decimal x = Ok d ->
  convert_decimal_128 d = Ok x.
Proof.
  destruct v as [s c e|s|s sig p]; intros Hc Ht.
  - destruct (_fix (Finite s c e)) as [d0|err] eqn:Hf.
    + destruct (_fix_Ok _ _ _ _ Hf) as (c' & e' & -> & Hcan & _).
      rewrite (convert_decimal_128_fix_Ok _ _ _ _ _ _ Hf Hcan) in Hc.
      injection Hc as <-.
      rewrite (to_decimal_high_low s c' e' Hcan) in Ht. injection Ht as <-.
      by apply convert_decimal_128_canonical.
    + by rewrite (convert_decimal_128_fix_raises _ _ _ _ Hf) in Hc.
  - rewrite convert_decimal_128_Infinity in Hc. injection Hc as <-.
    rewrite (proj1 (to_decimal_special s)) in Ht. injection Ht as <-.
    apply convert_decimal_128_Infinity.
  - rewrite convert_decimal_128_NaN in Hc.
    destruct (_ <? _); [discriminate|].
    destruct (N.eqb_spec p 0) as [->|]; [|discriminate].
    cbn [negb] in Hc. injection Hc as <-.
    rewrite (proj2 (to_decimal_special s) sig) in Ht. injection Ht as <-.
    by rewrite convert_decimal_128_NaN.
Qed.

Lemma convert_decimal_128_of_read_back_witness :
  convert_decimal_128 (Finite false 12 6112)
  = Ok {| high := 0x5FFE000000000000; low := 120 |}
  /\ to_decimal {| high := 0x5FFE000000000000; low := 120 |}
     = Ok (Finite false 120 6111)
  /\ convert_decimal_128 (Finite false 120 6111)
     = Ok {| high := 0x5FFE000000000000; low := 120 |}.
Proof.
  assert (Hc : convert_decimal_128 (Finite false 12 6112)
               = Ok {| high := 0x5FFE000000000000; low := 120 |})
    by (vm_compute; reflexivity).
  assert (Ht : to_decimal {| high := 0x5FFE000000000000; low := 120 |}
               = Ok (Finite false 120 6111))
    by (vm_compute; reflexivity).
  split; [exact Hc|]. split; [exact Ht|].
  exact (convert_decimal_128_of_read_back _ _ _ Hc Ht).
Defined.

(** X7. On the decimals that are not finite the conversion raises
    nothing for an infinity or a NaN without payload, and the stored
    value reads back as the same infinity or NaN (sign and signalling
    flag kept); a NaN that carries a payload is never stored:
    [ValueError] when the payload has at most 33 digits,
    [InvalidOperation] when it has more. *)
Theorem convert_decimal_128_not_finite :
  (forall s,
      exists x, convert_decimal_128 (Infinity s) = Ok x
                /\ to_decimal x = Ok (Infinity s))
  /\ (forall s sig,
        exists x, convert_decimal_128 (NaN s sig 0) = Ok x
                  /\ to_decimal x = Ok (NaN s sig 0))
  /\ (forall s sig p,
        p <> 0%N ->
        (ndigits p <= 33 ->
         exists message,
           convert_decimal_128 (NaN s sig p) = Raise (ValueError message))
        /\ (33 < ndigits p ->
            convert_decimal_128 (NaN s sig p) = Raise InvalidOperation)).
Proof.
  split; [|split].
  - intros s. eexists. split; [apply convert_decimal_128_Infinity|].
    apply to_decimal_special.
  - intros s sig. eexists. split; [by rewrite convert_decimal_128_NaN|].
    apply to_decimal_special.
  - intros s sig p Hp. rewrite convert_decimal_128_NaN.
    destruct (N.eqb_spec p 0) as [|_]; [done|].
    change (_MAX_DIGITS - 1) with 33. cbn [negb].
    destruct (Z.ltb_spec 33 (ndigits p)); split; intros; eauto; lia.
Qed.

(** ** Decimals of the same value *)

Lemma same_value_scaled c e c' e' m :
  m <= e -> m <= e' ->
  same_value c e c' e'
  <-> Z.of_N c * 10 ^ (e - m) = Z.of_N c' * 10 ^ (e' - m).
Proof.
  intros He He'. unfold same_value.
  set (n := Z.min e e').
  assert (Hk : 0 <= n - m) by (unfold n; lia).
  assert (Hp : 0 < 10 ^ (n - m)) by (by apply pow10_pos).
  replace (e - m) with ((e - n) + (n - m)) by lia.
  replace (e' - m) with ((e' - n) + (n - m)) by lia.
  rewrite !Z.pow_add_r by (unfold n; lia).
  rewrite !Z.mul_assoc. split.
  - by intros ->.
  - intros H. by apply Z.mul_reg_r in H; [|lia].
Qed.

Lemma same_value_sym c e c' e' : same_value c e c' e' -> same_value c' e' c e.
Proof. unfold same_value. rewrite (Z.min_comm e' e). by intros ->. Qed.

Lemma same_value_trans c1 e1 c2 e2 c3 e3 :
  same_value c1 e1 c2 e2 -> same_value c2 e2 c3 e3 -> same_value c1 e1 c3 e3.
Proof.
  set (m := Z.min e1 (Z.min e2 e3)).
  rewrite (same_value_scaled c1 e1 c2 e2 m) by (unfold m; lia).
  rewrite (same_value_scaled c2 e2 c3 e3 m) by (unfold m; lia).
  rewrite (same_value_scaled c1 e1 c3 e3 m) by (unfold m; lia).
  congruence.
Qed.

(** X8. Two decimals stored as the same Decimal128 are the same number:
    either they are one decimal, or both are finite with the same sign
    and the same numeric value. Distinct prices never collide in the
    store. *)
Theorem convert_decimal_128_no_collision (v1 v2 : Decimal) (x : Decimal128) :
  convert_decimal_128 v1 = Ok x ->
  convert_decimal_128 v2 = Ok x ->
  v1 = v2
  \/ exists s c1 e1 c2 e2,
      v1 = Finite s c1 e1 /\ v2 = Finite s c2 e2 /\ same_value c1 e1 c2 e2.
Proof.
  assert (Hspecial : forall v,
    convert_decimal_128 v = Ok x ->
    match v with
    | Finite s c e =>
        exists c' e', same_value c e c' e' /\ to_decimal x = Ok (Finite s c' e')
    | _ => to_decimal x = Ok v
    end).
  { intros [s c e|s|s sig p] H.
    - destruct (convert_decimal_128_Ok _ _ _ _ H) as (c' & e' & _ & ? & ?).
      eauto.
    - rewrite convert_decimal_128_Infinity in H. injection H as <-.
      apply to_decimal_special.
    - rewrite convert_decimal_128_NaN in H.
      destruct (_ <? _); [discriminate|].
      destruct (N.eqb_spec p 0) as [Hp|]; [subst p|discriminate].
      cbn [negb] in H. injection H as <-. apply to_decimal_special. }
  intros H1 H2. apply Hspecial in H1, H2.
  destruct v1 as [s1 c1 e1|s1|s1 sig1 p1], v2 as [s2 c2 e2|s2|s2 sig2 p2];
    try (left; congruence);
    try (destruct H1 as (? & ? & _ & H1); congruence);
    try (destruct H2 as (? & ? & _ & H2); congruence).
  destruct H1 as (c & e & Hv1 & H1), H2 as (c' & e' & Hv2 & H2).
  rewrite H1 in H2. injection H2 as <- <- <-.
  right. exists s1, c1, e1, c2, e2. split; [done|]. split; [done|].
  eapply same_value_trans; [exact Hv1|]. by apply same_value_sym.
Qed.

Lemma convert_decimal_128_no_collision_witness :
  convert_decimal_128 (Finite false 12 6112)
  = Ok {| high := 0x5FFE000000000000; low := 120 |}
  /\ convert_decimal_128 (Finite false 120 6111)
     = Ok {| high := 0x5FFE000000000000; low := 120 |}
  /\ (Finite false 12 6112 = Finite false 120 6111
      \/ exists s c1 e1 c2 e2,
          Finite false 12 6112 = Finite s c1 e1
          /\ Finite false 120 6111 = Finite s c2 e2
          /\ same_value c1 e1 c2 e2).
Proof.
  assert (H1 : convert_decimal_128 (Finite false 12 6112)
               = Ok {| high := 0x5FFE000000000000; low := 120 |})
    by (vm_compute; reflexivity).
  assert (H2 : convert_decimal_128 (Finite false 120 6111)
               = Ok {| high := 0x5FFE000000000000; low := 120 |})
    by (vm_compute; reflexivity).
  split; [exact H1|]. split; [exact H2|].
  exact (convert_decimal_128_no_collision _ _ _ H1 H2).
Defined.

(** X9. The text of a finite decimal survives the conversion exactly
    when the decimal is one the Decimal128 context keeps as it is: at
    most 34 digits and an exponent from -6176 to 6111. A decimal outside
    this form that converts comes back with another text. *)
Theorem decimal128_text_kept_iff_canonical (sign : bool) (c : N) (e : Z) :
  (exists x,
      convert_decimal_128 (Finite sign c e) = Ok x
      /\ Decimal128_str x = Ok (Decimal_str (Finite sign c e)))
  <-> canonical c e.
Proof.
  split.
  - intros (x & Hc & Hs). by eapply decimal128_round_trip_only_canonical.
  - intros Hcan. eexists.
    split; [by apply convert_decimal_128_canonical|].
    apply Decimal128_str_finite. by apply to_decimal_high_low.
Qed.

(** X10. The two words of a stored finite decimal are the fields of the
    IEEE 754-2008 binary integer decimal format: bit 63 of [high] is the
    sign, the fourteen bits from bit 49 are the exponent plus 6176, the
    low 49 bits of [high] followed by the 64 bits of [low] are the
    coefficient, and bits 61 and 62 are never both set. *)
Theorem convert_decimal_128_fields
    (sign : bool) (c : N) (e : Z) (x : Decimal128) :
  convert_decimal_128 (Finite sign c e) = Ok x ->
  exists c' e',
    canonical c' e' /\ same_value c e c' e'
    /\ high x / 2 ^ 63 = (if sign then 1 else 0)
    /\ (high x / 2 ^ 49) mod 2 ^ 14 = e' + _EXPONENT_BIAS
    /\ high x mod 2 ^ 49 * 2 ^ 64 + low x = Z.of_N c'
    /\ (high x / 2 ^ 61) mod 4 <> 3.
Proof.
  intros H. destruct (_fix (Finite sign c e)) as [d|err] eqn:Hf.
  2:{ by rewrite (convert_decimal_128_fix_raises _ _ _ _ Hf) in H. }
  destruct (_fix_Ok _ _ _ _ Hf) as (c' & e' & -> & Hcan & Hval).
  rewrite (convert_decimal_128_fix_Ok _ _ _ _ _ _ Hf Hcan) in H.
  injection H as <-. exists c', e'. split; [done|]. split; [done|].
  destruct Hcan as [Hc He]. destruct context_bounds as (Hd & Hi & Ht & Hb).
  rewrite Hd in Hc. rewrite Hi, Ht in He. rewrite Hb. cbn [high low].
  set (C := Z.of_N c') in *.
  assert (HC : 0 <= C) by (unfold C; lia).
  assert (Hhi : 0 <= C / 2 ^ 64 < 2 ^ 49).
  { split; [apply Z.div_pos; lia|]. apply Z.div_lt_upper_bound; lia. }
  pose proof (Z.div_mod C (2 ^ 64) ltac:(lia)) as Hdm.
  pose proof (Z.mod_pos_bound C (2 ^ 64) ltac:(lia)) as Hlo.
  set (hi := C / 2 ^ 64) in *. set (lo := C mod 2 ^ 64) in *.
  clearbody hi lo C.
  split; [|split; [|split]]; destruct sign; Z.div_mod_to_equations; lia.
Qed.

Lemma convert_decimal_128_fields_witness :
  convert_decimal_128 (Finite true 1999 (-2))
  = Ok {| high := 0xB03C000000000000; low := 1999 |}
  /\ exists c' e',
      canonical c' e' /\ same_value 1999 (-2) c' e'
      /\ 0xB03C000000000000 / 2 ^ 63 = 1
      /\ (0xB03C000000000000 / 2 ^ 49) mod 2 ^ 14 = e' + _EXPONENT_BIAS
      /\ 0xB03C000000000000 mod 2 ^ 49 * 2 ^ 64 + 1999 = Z.of_N c'
      /\ (0xB03C000000000000 / 2 ^ 61) mod 4 <> 3.
Proof.
  assert (H : convert_decimal_128 (Finite true 1999 (-2))
              = Ok {| high := 0xB03C000000000000; low := 1999 |})
    by (vm_compute; reflexivity).
  split; [exact H|].
  exact (convert_decimal_128_fields _ _ _ _ H).
Defined.

(** ** Which exception a refused decimal raises *)

Lemma ndigits_gt c n : 1 <= n -> n < ndigits c -> 10 ^ n <= Z.of_N c.
Proof.
  intros Hn Hlt. destruct (N.eq_dec c 0%N) as [->|H0].
  - rewrite ndigits_0 in Hlt. lia.
  - destruct (ndigits_bounds c H0) as [Hlo _].
    etrans; [|exact Hlo]. apply pow10_le. lia.
Qed.

(** A coefficient [Q * P + D] below [10 * T * P] reaches
    [(10 * T - 1/2) * P] exactly when [Q] is all nines and the discarded
    part [D] is at least half of [P]. *)
Lemma round_up_overflows P Q D T :
  0 < P -> 0 <= D < P -> 0 < T -> Q * P + D < 10 * T * P ->
  (2 * (10 * T) - 1) * P <= 2 * (Q * P + D) <-> Q = 10 * T - 1 /\ P <= 2 * D.
Proof.
  intros HP HD HT Hlt.
  assert (HQ : Q < 10 * T).
  { apply (Z.mul_lt_mono_pos_r P); [done|]. lia. }
  split.
  - intros H. assert (Q = 10 * T - 1) as ->; [|split; [done|lia]].
    destruct (Z.eq_dec Q (10 * T - 1)) as [|Hne]; [done|exfalso].
    assert (Hle : Q * P <= (10 * T - 2) * P)
      by (apply Z.mul_le_mono_nonneg_r; lia).
    lia.
  - intros [-> H]. lia.
Qed.

Lemma scaled_below a b c : 0 < c -> a < b -> a * c < b * c.
Proof. intros. by apply Z.mul_lt_mono_pos_r. Qed.

Lemma _fix_Overflow_iff s c e :
  _fix (Finite s c e) = Raise Overflow <-> overflows c e.
Proof.
  destruct context_bounds as (Hd & Hi & Ht & _).
  unfold _fix, overflows. rewrite Hd, Ht in *. rewrite Hi.
  assert (H34 : 10 ^ 34 = 10 * 10 ^ 33) by (vm_compute; reflexivity).
  assert (H33 : 0 < 10 ^ 33) by (vm_compute; reflexivity).
  remember (10 ^ 33) as T eqn:HT. rewrite H34. clear Hd Hi Ht.
  destruct (N.eqb_spec c 0) as [->|H0].
  { split; [discriminate|]. intros H. exfalso.
    assert (0 < 10 ^ (6111 - Z.min e 6111)) by (apply pow10_pos; lia).
    change (Z.of_N 0) with 0 in H. nia. }
  destruct (ndigits_bounds c H0) as [Hlo Hup].
  pose proof (ndigits_pos c) as Hn1.
  remember (ndigits c) as n eqn:Hn. remember (Z.of_N c) as C eqn:HC.
  destruct (Z.ltb_spec 6111 (n + e - 34)) as [Hov|Hnov].
  { split; [intros _|done].
    destruct (Z.le_gt_cases e 6111) as [He|He].
    - rewrite Z.min_l by lia. replace (e - e) with 0 by lia.
      rewrite Z.pow_0_r.
      assert (H : 10 ^ (34 + (6111 - e)) <= 10 ^ (n - 1)) by (apply pow10_le; lia).
      rewrite Z.pow_add_r, H34 in H by lia.
      assert (0 < 10 ^ (6111 - e)) by (apply pow10_pos; lia).
      clear - H Hlo H33 H1. nia.
    - rewrite Z.min_r by lia. replace (6111 - 6111) with 0 by lia.
      rewrite Z.pow_0_r.
      assert (H : 10 ^ 34 <= 10 ^ ((n - 1) + (e - 6111))) by (apply pow10_le; lia).
      rewrite Z.pow_add_r, H34 in H by lia.
      assert (0 < 10 ^ (e - 6111)) by (apply pow10_pos; lia).
      clear - H Hlo H33 H1. nia. }
  remember (Z.max (n + e - 34) (-6176)) as exp_min eqn:Hexp.
  destruct (Z.ltb_spec e exp_min) as [Hround|Hkeep].
  2:{ (* nothing to round: the value fits *)
    assert (Hn34 : n <= 34) by lia.
    assert (Hres : forall r1 r2 : Decimal,
      (if 6111 <? e then Ok r1 else Ok r2) = Raise Overflow -> False)
      by (intros r1 r2; destruct (6111 <? e); discriminate).
    split; [intros H; by apply Hres in H|]. intros H. exfalso.
    destruct (Z.le_gt_cases e 6111) as [He|He].
    - rewrite Z.min_l in H by lia. replace (e - e) with 0 in H by lia.
      rewrite Z.pow_0_r in H.
      assert (H1 : 10 ^ n <= 10 ^ 34) by (apply pow10_le; lia).
      rewrite H34 in H1.
      assert (1 <= 10 ^ (6111 - e)) by (pose proof (pow10_pos (6111 - e)); lia).
      clear - H H1 Hup H33 H2. nia.
    - rewrite Z.min_r in H by lia. replace (6111 - 6111) with 0 in H by lia.
      rewrite Z.pow_0_r in H.
      assert (H1 : 10 ^ (n + (e - 6111)) <= 10 ^ 34) by (apply pow10_le; lia).
      rewrite Z.pow_add_r, H34 in H1 by lia.
      assert (H2 : 0 < 10 ^ (e - 6111)) by (apply pow10_pos; lia).
      pose proof (scaled_below _ _ _ H2 Hup) as H3.
      clear - H H1 H3 H33. lia. }
  (* digits are discarded *)
  assert (He : e < 6111) by lia.
  rewrite Z.min_l by lia. replace (e - e) with 0 by lia. rewrite Z.pow_0_r.
  remember (exp_min - e) as k eqn:Hkdef.
  assert (Hk : 0 < k) by lia.
  remember (10 ^ Z.to_N k)%N as pN eqn:HpNdef.
  assert (HpN : Z.of_N pN = 10 ^ k) by (subst pN; apply pow10_N; lia).
  assert (Hp : 0 < 10 ^ k) by (apply pow10_pos; lia).
  pose proof (Z.div_mod C (10 ^ k) ltac:(lia)) as Hdm.
  pose proof (Z.mod_pos_bound C (10 ^ k) Hp) as Hdb.
  assert (HQ : Z.of_N (c / pN) = C / 10 ^ k)
    by (by rewrite N2Z.inj_div, HpN, HC).
  assert (HD : Z.of_N (c mod pN) = C mod 10 ^ k)
    by (by rewrite N2Z.inj_mod, HpN, HC).
  remember (C / 10 ^ k) as Q eqn:HQdef. remember (C mod 10 ^ k) as D eqn:HDdef.
  assert (Hbelow : exp_min < 6111 ->
            2 * C * 1 < (2 * (10 * T) - 1) * 10 ^ (6111 - e)).
  { intros Hlt.
    assert (H : 10 ^ n <= 10 ^ (33 + (6111 - e))) by (apply pow10_le; lia).
    rewrite Z.pow_add_r, <- HT in H by lia.
    assert (0 < 10 ^ (6111 - e)) by (apply pow10_pos; lia).
    clear - H Hup H33 H1. nia. }
  destruct (Z.eq_dec exp_min 6111) as [Htop|Hne].
  2:{ (* the rounded exponent stays below the top: no overflow *)
    assert (Hlt : exp_min < 6111) by lia. specialize (Hbelow Hlt).
    split; [|lia].
    destruct (c mod pN =? 0)%N; [discriminate|].
    rewrite (proj2 (Z.ltb_ge 6111 (exp_min + 1))) by lia.
    rewrite andb_false_r. discriminate. }
  assert (Hk' : 6111 - e = k) by lia. rewrite Hk'.
  assert (HCn : Q * 10 ^ k + D < 10 * T * 10 ^ k).
  { replace n with (34 + k) in Hup by lia.
    rewrite Z.pow_add_r, H34 in Hup by lia. lia. }
  pose proof (round_up_overflows (10 ^ k) Q D T Hp Hdb H33 HCn) as Harith.
  replace (2 * C * 1) with (2 * (Q * 10 ^ k + D)) by lia.
  rewrite Harith. clear Harith Hbelow.
  rewrite (proj2 (Z.ltb_lt 6111 (exp_min + 1))) by lia. rewrite andb_true_r.
  destruct (N.eqb_spec (c mod pN) 0) as [Hexact|Hinexact].
  { split; [discriminate|]. intros [_ H]. lia. }
  split.
  - destruct (_ || _)%bool eqn:Hch; [|discriminate].
    destruct (Z.ltb_spec 34 (ndigits (c / pN + 1))) as [Hlen|]; [|discriminate].
    intros _.
    apply ndigits_gt in Hlen; [|lia].
    rewrite N2Z.inj_add, HQ, H34 in Hlen. change (Z.of_N 1) with 1 in Hlen.
    assert (HQlt : Q < 10 * T).
    { apply (Z.mul_lt_mono_pos_r (10 ^ k)); [done|]. lia. }
    split; [lia|].
    apply orb_true_iff in Hch as [Hch|Hch].
    + apply N.ltb_lt in Hch. lia.
    + apply andb_true_iff in Hch as [Hch _]. apply N.eqb_eq in Hch. lia.
  - intros [HQv H2D].
    assert (HcN : (c / pN)%N = (10 ^ 34 - 1)%N).
    { apply N2Z.inj. rewrite HQ, HQv, HT. by vm_compute. }
    rewrite HcN.
    replace (34 <? ndigits (10 ^ 34 - 1 + 1)) with true by (by vm_compute).
    rewrite andb_true_r.
    destruct (N.ltb_spec pN (2 * (c mod pN))) as [|Hge]; [done|].
    assert ((2 * (c mod pN))%N = pN) as -> by lia.
    rewrite N.eqb_refl. by vm_compute.
Qed.

Lemma overflows_not_representable c e : overflows c e -> ~ representable c e.
Proof.
  intros Hov Hrep. apply (_fix_Overflow_iff false) in Hov.
  destruct (_fix_representable false c e Hrep) as [d Hd]. congruence.
Qed.

(** X11. What the conversion of a finite decimal does is decided by its
    value alone. It succeeds exactly when some Decimal128 has the value;
    it raises [Overflow] exactly when the magnitude is at least
    [(10 ^ 34 - 1/2) * 10 ^ 6111], where rounding to 34 digits would need
    an exponent above 6111; and it raises [Inexact] in every other case,
    that is when digits other than zeros would have to be dropped. *)
Theorem convert_decimal_128_outcome (sign : bool) (c : N) (e : Z) :
  ((exists x, convert_decimal_128 (Finite sign c e) = Ok x)
   <-> representable c e)
  /\ (convert_decimal_128 (Finite sign c e) = Raise Overflow
      <-> overflows c e)
  /\ (convert_decimal_128 (Finite sign c e) = Raise Inexact
      <-> ~ representable c e /\ ~ overflows c e).
Proof.
  assert (Hok : (exists x, convert_decimal_128 (Finite sign c e) = Ok x)
                <-> representable c e).
  { split.
    - intros [x Hx]. destruct (convert_decimal_128_Ok _ _ _ _ Hx)
        as (c' & e' & ? & ? & _). by exists c', e'.
    - intros Hrep. destruct (_fix_representable sign c e Hrep) as [d Hd].
      destruct (_fix_Ok _ _ _ _ Hd) as (c' & e' & -> & Hcan & _).
      rewrite (convert_decimal_128_fix_Ok _ _ _ _ _ _ Hd Hcan). eauto. }
  assert (Hraise : forall err,
            convert_decimal_128 (Finite sign c e) = Raise err
            <-> _fix (Finite sign c e) = Raise err).
  { intros err. destruct (_fix (Finite sign c e)) as [d|err'] eqn:Hf.
    - destruct (_fix_Ok _ _ _ _ Hf) as (c' & e' & -> & Hcan & _).
      rewrite (convert_decimal_128_fix_Ok _ _ _ _ _ _ Hf Hcan).
      split; discriminate.
    - rewrite (convert_decimal_128_fix_raises _ _ _ _ Hf).
      split; intros [= ->]; reflexivity. }
  split; [exact Hok|]. split.
  - rewrite Hraise. apply _fix_Overflow_iff.
  - split.
    + intros H. split.
      * rewrite <- Hok. intros [x Hx]. congruence.
      * rewrite <- (_fix_Overflow_iff sign), <- Hraise. congruence.
    + intros [Hrep Hov].
      destruct (convert_decimal_128 (Finite sign c e)) as [x|err] eqn:Hc.
      * exfalso. apply Hrep, Hok. eauto.
      * destruct (convert_decimal_128_finite_raises _ _ _ _ Hc) as [->| ->];
          [|done].
        exfalso. apply Hov. by rewrite <- (_fix_Overflow_iff sign), <- Hraise.
Qed.

(** * Further properties of the views *)

Lemma required_missing_iff {A} (validator : value -> A + string) field
    (data : gmap string value) g :
  (forall v type, validator v = inr type -> type <> "missing") ->
  (g, "missing") ∈ errors_of (required validator field data)
  <-> g = field /\ data !! field = None.
Proof.
  intros Hval. unfold required.
  destruct (data !! field) as [v|]; cbn [errors_of].
  - destruct (validator v) as [a|type] eqn:Hv; cbn [errors_of].
    + rewrite elem_of_nil. split; [done|]. by intros [_ ?].
    + rewrite list_elem_of_singleton. split.
      * intros [= -> Htype]. symmetry in Htype. by apply Hval in Hv.
      * by intros [_ ?].
  - rewrite list_elem_of_singleton. split.
    + by intros [= ->].
    + by intros [-> _].
Qed.

Lemma optional_never_missing {A} (validator : value -> A + string) field
    (data : gmap string value) g :
  (forall v type, validator v = inr type -> type <> "missing") ->
  (g, "missing") ∉ errors_of (optional validator field data).
Proof.
  intros Hval. unfold optional.
  destruct (data !! field) as [v|]; cbn [errors_of]; [|apply not_elem_of_nil].
  assert (Hv : (g, "missing") ∉ errors_of
            match validator v with
            | inl a => inl (Some a)
            | inr type => inr (field, type)
            end).
  { destruct (validator v) as [a|type] eqn:Hv; cbn [errors_of];
      [apply not_elem_of_nil|].
    rewrite list_elem_of_singleton. intros [= -> Htype].
    symmetry in Htype. by apply Hval in Hv. }
  destruct v; try exact Hv. apply not_elem_of_nil.
Qed.

Lemma validators_never_missing {conversions : Conversions} :
  (forall v type, str_validator v = inr type -> type <> "missing")
  /\ (forall v type, int_validator v = inr type -> type <> "missing")
  /\ (forall v type, bool_validator v = inr type -> type <> "missing")
  /\ (forall v type, decimal_validator v = inr type -> type <> "missing")
  /\ (forall v type, datetime_validator v = inr type -> type <> "missing")
  /\ (forall v type, uuid_validator v = inr type -> type <> "missing").
Proof.
  assert (Hfin : forall d type, finite_number d = inr type -> type <> "missing")
    by (intros [] type; intros [= <-]; discriminate).
  split; [|split; [|split; [|split; [|split]]]]; intros v type.
  - destruct v; intros [= <-]; discriminate.
  - destruct v; try apply int_of_value_error. discriminate.
  - destruct v; try apply bool_of_value_error. discriminate.
  - unfold decimal_validator. destruct v as [|b|z|s|x|d|d|t|u];
      try (intros [= <-]; discriminate); try apply Hfin.
    + destruct (Decimal_new s); [apply Hfin|]. intros [= <-]; discriminate.
    + destruct (Decimal_new (float_repr x)); [apply Hfin|].
      intros [= <-]; discriminate.
  - destruct v; try apply datetime_of_value_error. discriminate.
  - unfold uuid_validator. destruct v as [|b|z|s|x|d|d|t|u];
      try apply uuid_of_value_error.
    destruct (negb _); [intros [= <-]; discriminate|].
    destruct (decide _); [discriminate|]. intros [= <-]; discriminate.
Qed.

Lemma Decimal__validator_inr {conversions : Conversions} v type :
  Decimal__validator v = Ok (inr type) -> type <> "missing".
Proof.
  unfold Decimal__validator.
  destruct (decimal_validator v) as [d|type'] eqn:Hd.
  - destruct (convert_decimal_128 d) as [x|[]]; try discriminate.
    by intros [= <-].
  - intros [= <-].
    by apply (proj1 (proj2 (proj2 (proj2 validators_never_missing))) v).
Qed.

Lemma Decimal__validator_raises {conversions : Conversions} v e :
  Decimal__validator v = Raise e ->
  exists d, decimal_validator v = inl d /\ convert_decimal_128 d = Raise e.
Proof.
  unfold Decimal__validator.
  destruct (decimal_validator v) as [d|type'] eqn:Hd; [|discriminate].
  destruct (convert_decimal_128 d) as [x|[]] eqn:Hc; try discriminate;
    intros [= <-]; eauto.
Qed.

Lemma ProductIn_init_errors {conversions : Conversions} data errors :
  ProductIn_init data = Raise (ValidationError errors) ->
  errors
  = (errors_of (required str_validator "name" data)
       ++ errors_of (required int_validator "quantity" data)
       ++ errors_of (required decimal_validator "price" data)
       ++ errors_of (required bool_validator "status" data))%list.
Proof.
  unfold ProductIn_init.
  destruct (required str_validator "name" data) as [n|en],
    (required int_validator "quantity" data) as [q|eq],
    (required decimal_validator "price" data) as [p|ep],
    (required bool_validator "status" data) as [st|est];
    intros [= <-]; reflexivity.
Qed.

Lemma ProductOut_init_errors {conversions : Conversions} data errors :
  ProductOut_init data = Raise (ValidationError errors) ->
  errors
  = (errors_of (required uuid_validator "id" data)
       ++ errors_of (required datetime_validator "created_at" data)
       ++ errors_of (required datetime_validator "updated_at" data)
       ++ errors_of (required str_validator "name" data)
       ++ errors_of (required int_validator "quantity" data)
       ++ errors_of (required decimal_validator "price" data)
       ++ errors_of (required bool_validator "status" data))%list.
Proof.
  unfold ProductOut_init.
  destruct (required uuid_validator "id" data) as [i|ei],
    (required datetime_validator "created_at" data) as [ca|eca],
    (required datetime_validator "updated_at" data) as [ua|eua],
    (required str_validator "name" data) as [n|en],
    (required int_validator "quantity" data) as [q|eq],
    (required decimal_validator "price" data) as [p|ep],
    (required bool_validator "status" data) as [st|est];
    intros [= <-]; reflexivity.
Qed.

(** X13. A [ValidationError] reports every required field that is
    missing, not the first one only: building a Creation Input or an
    Output Form reports a field as missing exactly when it is a field of
    the view that the keyword arguments do not hold. Building an Update
    Input never reports a missing field. *)
Theorem missing_fields_are_all_reported {conversions : Conversions} :
  (forall data errors field,
      ProductIn_init data = Raise (ValidationError errors) ->
      (field, "missing") ∈ errors
      <-> field ∈ ProductIn.model_fields /\ data !! field = None)
  /\ (forall data errors field,
        ProductOut_init data = Raise (ValidationError errors) ->
        (field, "missing") ∈ errors
        <-> field ∈ ProductOut.model_fields /\ data !! field = None)
  /\ (forall data errors field,
        ProductUpdate_init data = Raise (ValidationError errors) ->
        (field, "missing") ∉ errors).
Proof.
  destruct validators_never_missing as (Vs & Vi & Vb & Vd & Vt & Vu).
  split; [|split].
  - intros data errors field ->%ProductIn_init_errors.
    rewrite !elem_of_app, !required_missing_iff by done.
    unfold ProductIn.model_fields. rewrite !elem_of_cons, elem_of_nil.
    split.
    + intros [[-> ?]|[[-> ?]|[[-> ?]|[-> ?]]]]; auto 10.
    + intros [[->|[->|[->|[->|[]]]]] ?]; auto 10.
  - intros data errors field ->%ProductOut_init_errors.
    rewrite !elem_of_app, !required_missing_iff by done.
    unfold ProductOut.model_fields. rewrite !elem_of_cons, elem_of_nil.
    split.
    + intros [[-> ?]|[[-> ?]|[[-> ?]|[[-> ?]|[[-> ?]|[[-> ?]|[-> ?]]]]]]];
        auto 12.
    + intros [[->|[->|[->|[->|[->|[->|[->|[]]]]]]]] ?]; auto 12.
  - intros data errors field. unfold ProductUpdate_init.
    pose proof (optional_never_missing int_validator "quantity" data field Vi)
      as Hq.
    pose proof (optional_never_missing bool_validator "status" data field Vb)
      as Hs.
    pose proof (optional_never_missing datetime_validator "updated_at" data
                  field Vt) as Hu.
    set (price :=
           match data !! "price" with
           | Some VNone | None => Ok (inl None)
           | Some v =>
               r ← Decimal__validator v;
               match r with
               | inl x => Ok (inl (Some x))
               | inr type => Ok (inr ("price", type))
               end
           end).
    assert (Hinr : forall e0, price = Ok (inr e0) -> e0.2 <> "missing").
    { intros e0. unfold price. destruct (data !! "price") as [v|]; [|discriminate].
      assert (Hv : (r ← Decimal__validator v;
                    match r with
                    | inl x => Ok (inl (Some x))
                    | inr type => Ok (inr ("price", type))
                    end) = Ok (inr e0) -> e0.2 <> "missing").
      { destruct (Decimal__validator v) as [[x|type]|ex] eqn:Hv;
          cbn [mbind result_bind]; try discriminate.
        intros [= <-]. by apply Decimal__validator_inr in Hv. }
      destruct v; try exact Hv. discriminate. }
    assert (Hraise : forall errs, price <> Raise (ValidationError errs)).
    { intros errs. unfold price.
      destruct (data !! "price") as [v|]; [|discriminate].
      assert (Hv : (r ← Decimal__validator v;
                    match r with
                    | inl x => Ok (inl (Some x))
                    | inr type => Ok (inr ("price", type))
                    end) <> Raise (ValidationError errs)).
      { destruct (Decimal__validator v) as [[x|type]|ex] eqn:Hv;
          cbn [mbind result_bind]; try discriminate.
        intros [= ->]. apply Decimal__validator_raises in Hv as (d & _ & Hv).
        by apply convert_decimal_128_not_ValidationError in Hv. }
      destruct v; try exact Hv. discriminate. }
    clearbody price. destruct price as [[p|e0]|ex]; cbn [mbind result_bind].
    + destruct (optional int_validator "quantity" data) as [q|eq],
        (optional bool_validator "status" data) as [st|est],
        (optional datetime_validator "updated_at" data) as [ua|eua];
        intros [= <-]; cbn [errors_of] in *; intros Hin;
        repeat (apply elem_of_cons in Hin as [Hin|Hin];
                [first [by (apply Hq; rewrite Hin; apply list_elem_of_here)
                       |by (apply Hs; rewrite Hin; apply list_elem_of_here)
                       |by (apply Hu; rewrite Hin; apply list_elem_of_here)]|]);
        by apply elem_of_nil in Hin.
    + specialize (Hinr e0 eq_refl).
      destruct (optional int_validator "quantity" data) as [q|eq],
        (optional bool_validator "status" data) as [st|est],
        (optional datetime_validator "updated_at" data) as [ua|eua];
        intros [= <-]; cbn [errors_of] in *; intros Hin;
        repeat (apply elem_of_cons in Hin as [Hin|Hin];
                [first [by (apply Hq; rewrite Hin; apply list_elem_of_here)
                       |by (apply Hs; rewrite Hin; apply list_elem_of_here)
                       |by (apply Hu; rewrite Hin; apply list_elem_of_here)
                       |by (apply Hinr; rewrite <- Hin)]|]);
        by apply elem_of_nil in Hin.
    + intros [= ->]. exfalso. by apply (Hraise errors).
Qed.

Lemma required_not_finite_price {conversions : Conversions} (data : gmap string value) d :
  data !! "price" = Some (VDecimal d) ->
  (forall s c e, d <> Finite s c e) ->
  required decimal_validator "price" data = inr ("price", "finite_number").
Proof.
  intros Hp Hd. unfold required. rewrite Hp.
  destruct d as [s c e| |]; [by destruct (Hd s c e)|done|done].
Qed.

Lemma ProductUpdate_init_not_finite_price {conversions : Conversions} (data : gmap string value) d :
  data !! "price" = Some (VDecimal d) ->
  (forall s c e, d <> Finite s c e) ->
  exists errors,
    ProductUpdate_init data = Raise (ValidationError errors)
    /\ ("price", "finite_number") ∈ errors.
Proof.
  intros Hp Hd. unfold ProductUpdate_init. rewrite Hp.
  assert (Hv : Decimal__validator (VDecimal d) = Ok (inr "finite_number")).
  { destruct d as [s c e| |]; [by destruct (Hd s c e)|done|done]. }
  rewrite Hv. cbn [mbind result_bind].
  destruct (optional int_validator "quantity" data) as [q|eq],
    (optional bool_validator "status" data) as [st|est],
    (optional datetime_validator "updated_at" data) as [ua|eua];
    (eexists; split; [reflexivity|]); cbn [errors_of app];
    repeat first [apply list_elem_of_here | apply list_elem_of_further].
Qed.

(** X14. A price that is an infinity or a NaN is refused by validation
    in every view, with the error [finite_number] on [price]: building
    the Creation Input, the Output Form or the Update Input raises a
    [ValidationError]. For the Update Input this happens before
    [convert_decimal_128] runs, so no infinity or NaN reaches the store
    through an update; the [POST] and [PATCH] routes answer 422 and leave
    the store alone. *)
Theorem not_finite_price_is_refused {conversions : Conversions}
    (data : gmap string value) (d : Decimal) :
  data !! "price" = Some (VDecimal d) ->
  (forall s c e, d <> Finite s c e) ->
  (exists errors,
      ProductIn_init data = Raise (ValidationError errors)
      /\ ("price", "finite_number") ∈ errors)
  /\ (exists errors,
        ProductOut_init data = Raise (ValidationError errors)
        /\ ("price", "finite_number") ∈ errors)
  /\ (exists errors,
        ProductUpdate_init data = Raise (ValidationError errors)
        /\ ("price", "finite_number") ∈ errors)
  /\ forall S (usecase : ProductUsecase.t S) id utcnow (s : S),
      post_route usecase data s = (status.HTTP_422_UNPROCESSABLE_ENTITY, s)
      /\ patch_route usecase id data utcnow s
         = (status.HTTP_422_UNPROCESSABLE_ENTITY, s).
Proof.
  intros Hp Hd.
  pose proof (required_not_finite_price data d Hp Hd) as Hreq.
  assert (Hin : exists errors,
             ProductIn_init data = Raise (ValidationError errors)
             /\ ("price", "finite_number") ∈ errors).
  { unfold ProductIn_init. rewrite Hreq.
    destruct (required str_validator "name" data) as [n|en],
      (required int_validator "quantity" data) as [q|eq],
      (required bool_validator "status" data) as [st|est];
      (eexists; split; [reflexivity|]); cbn [errors_of app];
      repeat first [apply list_elem_of_here | apply list_elem_of_further]. }
  assert (Hout : exists errors,
             ProductOut_init data = Raise (ValidationError errors)
             /\ ("price", "finite_number") ∈ errors).
  { unfold ProductOut_init. rewrite Hreq.
    destruct (required uuid_validator "id" data) as [i|ei],
      (required datetime_validator "created_at" data) as [ca|eca],
      (required datetime_validator "updated_at" data) as [ua|eua],
      (required str_validator "name" data) as [n|en],
      (required int_validator "quantity" data) as [q|eq],
      (required bool_validator "status" data) as [st|est];
      (eexists; split; [reflexivity|]); cbn [errors_of app];
      repeat first [apply list_elem_of_here | apply list_elem_of_further]. }
  pose proof (ProductUpdate_init_not_finite_price data d Hp Hd) as Hup.
  split; [exact Hin|]. split; [exact Hout|]. split; [exact Hup|].
  intros S usecase id utcnow s.
  destruct Hin as (e1 & Hin & _), Hup as (e2 & Hup & _).
  unfold post_route, patch_route. by rewrite Hin, Hup.
Qed.

Lemma not_finite_price_is_refused_witness :
  ({[ "price" := VDecimal (Infinity false) ]} : gmap string value) !! "price"
  = Some (VDecimal (Infinity false))
  /\ forall conversions : Conversions,
      (exists errors,
          ProductIn_init {[ "price" := VDecimal (Infinity false) ]}
          = Raise (ValidationError errors)
          /\ ("price", "finite_number") ∈ errors)
      /\ (exists errors,
            ProductOut_init {[ "price" := VDecimal (Infinity false) ]}
            = Raise (ValidationError errors)
            /\ ("price", "finite_number") ∈ errors)
      /\ (exists errors,
            ProductUpdate_init {[ "price" := VDecimal (Infinity false) ]}
            = Raise (ValidationError errors)
            /\ ("price", "finite_number") ∈ errors)
      /\ forall S (usecase : ProductUsecase.t S) id utcnow (s : S),
          post_route usecase {[ "price" := VDecimal (Infinity false) ]} s
          = (status.HTTP_422_UNPROCESSABLE_ENTITY, s)
          /\ patch_route usecase id {[ "price" := VDecimal (Infinity false) ]}
               utcnow s
             = (status.HTTP_422_UNPROCESSABLE_ENTITY, s).
Proof.
  assert (H : ({[ "price" := VDecimal (Infinity false) ]} : gmap string value)
              !! "price" = Some (VDecimal (Infinity false)))
    by reflexivity.
  split; [exact H|]. intros conversions.
  apply (not_finite_price_is_refused _ _ H). intros s c e. discriminate.
Defined.

Lemma optional_insert_ne {A} (validator : value -> A + string) field field'
    (data : gmap string value) v :
  field <> field' ->
  optional validator field (<[field' := v]> data)
  = optional validator field data.
Proof. intros H. unfold optional. by rewrite lookup_insert_ne. Qed.

Lemma optional_insert_eq {A} (validator : value -> A + string) field
    (data : gmap string value) v a :
  validator v = inl a -> v <> VNone ->
  optional validator field (<[field := v]> data) = inl (Some a).
Proof.
  intros Hv Hne. unfold optional. rewrite lookup_insert_eq, Hv.
  by destruct v.
Qed.

(** X15. The fields of an update payload are validated independently of
    one another: setting a quantity, a status, an [updated_at] or a
    price that converts on a payload that builds an Update Input gives a
    payload that builds too, with that field set (the price as the
    Decimal128 the conversion gives) and the other three as before. *)
Theorem ProductUpdate_init_insert {conversions : Conversions}
    (data : gmap string value) (body : ProductUpdate.t) :
  ProductUpdate_init data = Ok body ->
  (forall q,
      ProductUpdate_init (<["quantity" := VInt q]> data)
      = Ok (ProductUpdate.mk (Some q) (ProductUpdate.price body)
              (ProductUpdate.status body) (ProductUpdate.updated_at body)))
  /\ (forall sign c e x,
        convert_decimal_128 (Finite sign c e) = Ok x ->
        ProductUpdate_init (<["price" := VDecimal (Finite sign c e)]> data)
        = Ok (ProductUpdate.mk (ProductUpdate.quantity body) (Some x)
                (ProductUpdate.status body) (ProductUpdate.updated_at body)))
  /\ (forall b,
        ProductUpdate_init (<["status" := VBool b]> data)
        = Ok (ProductUpdate.mk (ProductUpdate.quantity body)
                (ProductUpdate.price body) (Some b)
                (ProductUpdate.updated_at body)))
  /\ (forall t,
        ProductUpdate_init (<["updated_at" := VDatetime t]> data)
        = Ok (ProductUpdate.mk (ProductUpdate.quantity body)
                (ProductUpdate.price body) (ProductUpdate.status body)
                (Some t))).
Proof.
  unfold ProductUpdate_init. intros H.
  assert (Hprice : forall sign c e x,
    convert_decimal_128 (Finite sign c e) = Ok x ->
    (r ← Decimal__validator (VDecimal (Finite sign c e));
     match r with
     | inl x => Ok (inl (Some x))
     | inr type => Ok (inr ("price", type))
     end) = Ok (inl (Some x) : option Decimal128 + string * string)).
  { intros sign c e x Hc. unfold Decimal__validator.
    cbn [decimal_validator finite_number]. by rewrite Hc. }
  repeat split; intros.
  all: rewrite ?lookup_insert_eq; cbv beta iota;
    try match goal with
        | Hc : convert_decimal_128 _ = Ok _ |- _ =>
            rewrite (Hprice _ _ _ _ Hc)
        end.
  all: rewrite ?lookup_insert_ne by discriminate.
  all: rewrite ?(optional_insert_eq int_validator _ _ (VInt _) _ eq_refl)
    by discriminate.
  all: rewrite ?(optional_insert_eq bool_validator _ _ (VBool _) _ eq_refl)
    by discriminate.
  all: rewrite ?(optional_insert_eq datetime_validator _ _ (VDatetime _) _
                   eq_refl) by discriminate.
  all: rewrite ?optional_insert_ne by discriminate.
  all: match type of H with
       | ?P ≫= _ = _ => destruct P as [[p|e0]|ex]
       end;
    cbn [mbind result_bind] in H |- *; try discriminate.
  all: destruct (optional int_validator "quantity" data) as [q0|eq],
      (optional bool_validator "status" data) as [st|est],
      (optional datetime_validator "updated_at" data) as [ua|eua];
    try discriminate; injection H as <-; reflexivity.
Qed.

Lemma ProductUpdate_init_insert_witness :
  (forall conversions : Conversions,
      ProductUpdate_init {[ "quantity" := VInt 3 ]}
      = Ok (ProductUpdate.mk (Some 3) None None None))
  /\ forall conversions : Conversions,
      (forall q,
          ProductUpdate_init
            (<["quantity" := VInt q]> {[ "quantity" := VInt 3 ]})
          = Ok (ProductUpdate.mk (Some q) None None None))
      /\ (forall sign c e x,
            convert_decimal_128 (Finite sign c e) = Ok x ->
            ProductUpdate_init
              (<["price" := VDecimal (Finite sign c e)]>
                 {[ "quantity" := VInt 3 ]})
            = Ok (ProductUpdate.mk (Some 3) (Some x) None None))
      /\ (forall b,
            ProductUpdate_init
              (<["status" := VBool b]> {[ "quantity" := VInt 3 ]})
            = Ok (ProductUpdate.mk (Some 3) None (Some b) None))
      /\ (forall t,
            ProductUpdate_init
              (<["updated_at" := VDatetime t]> {[ "quantity" := VInt 3 ]})
            = Ok (ProductUpdate.mk (Some 3) None None (Some t))).
Proof.
  assert (H : forall conversions : Conversions,
             ProductUpdate_init {[ "quantity" := VInt 3 ]}
             = Ok (ProductUpdate.mk (Some 3) None None None))
    by (intros conversions; reflexivity).
  split; [exact H|]. intros conversions.
  exact (ProductUpdate_init_insert _ _ (H conversions)).
Defined.

(** * Further properties of the routes *)

(** What a [try] with one [except] clause makes of the outcome of its
    body. *)
Lemma try_except_outcome {S A} (body : action S A) (handler : exn -> option exn)
    (s : S) :
  try_except body handler s
  = (match (body s).1 with
     | Raise exc => Raise (default exc (handler exc))
     | r => r
     end, (body s).2).
Proof.
  unfold try_except. destruct (body s) as [[a|exc] s']; [done|].
  cbn [fst snd]. by destruct (handler exc).
Qed.

(** X16. [POST /]: a body that does not build a Creation Input is
    answered 422 without the use case being called; otherwise the store
    is what [create] leaves, the answer is 201 when [create] returns,
    400 when it raises [InsertionException] (whose message becomes the
    detail), and [InsertionException] never leaves the handler. Every
    other exception passes through unchanged, [NotFoundException]
    included, which is then a 500. *)
Theorem post_route_status {conversions : Conversions} {S : Type} (usecase : ProductUsecase.t S)
    (data : gmap string value) (s : S) :
  (forall e, ProductIn_init data = Raise e ->
     post_route usecase data s = (status.HTTP_422_UNPROCESSABLE_ENTITY, s))
  /\ (forall body,
        ProductIn_init data = Ok body ->
        post_route usecase data s
        = (match (ProductUsecase.create usecase body s).1 with
           | Ok _ => status.HTTP_201_CREATED
           | Raise (InsertionException _) => status.HTTP_400_BAD_REQUEST
           | Raise (HTTPException status_code _) => status_code
           | Raise _ => status.HTTP_500_INTERNAL_SERVER_ERROR
           end, (ProductUsecase.create usecase body s).2))
  /\ (forall body,
        post usecase body s
        = (match (ProductUsecase.create usecase body s).1 with
           | Raise (InsertionException message) =>
               Raise (HTTPException status.HTTP_400_BAD_REQUEST message)
           | r => r
           end, (ProductUsecase.create usecase body s).2))
  /\ (forall body message,
        (post usecase body s).1 <> Raise (InsertionException message)).
Proof.
  assert (Hpost : forall body,
    post usecase body s
    = (match (ProductUsecase.create usecase body s).1 with
       | Raise (InsertionException message) =>
           Raise (HTTPException status.HTTP_400_BAD_REQUEST message)
       | r => r
       end, (ProductUsecase.create usecase body s).2)).
  { intros body. unfold post. rewrite try_except_outcome.
    by destruct (ProductUsecase.create usecase body s) as [[out|[]] s']. }
  split; [|split; [|split]].
  - intros e He. unfold post_route. rewrite He.
    by destruct (ProductIn_init_raises _ _ He) as (errors & -> & _).
  - intros body Hb. unfold post_route. rewrite Hb, Hpost.
    by destruct (ProductUsecase.create usecase body s) as [[out|[]] s'].
  - exact Hpost.
  - intros body message. rewrite Hpost.
    by destruct (ProductUsecase.create usecase body s) as [[out|[]] s'].
Qed.

(** X17. [GET /{id}]: the store is what the use case leaves; the answer
    is 200 when [usecase.get] returns, 404 when it raises
    [NotFoundException] (whose message becomes the detail), and
    [NotFoundException] never leaves the handler. Every other exception
    passes through unchanged. *)
Theorem get_route_status {S : Type} (usecase : ProductUsecase.t S)
    (id : UUID) (s : S) :
  get_route usecase id s
  = (match (ProductUsecase.get usecase id s).1 with
     | Ok _ => status.HTTP_200_OK
     | Raise (NotFoundException _) => status.HTTP_404_NOT_FOUND
     | Raise (HTTPException status_code _) => status_code
     | Raise _ => status.HTTP_500_INTERNAL_SERVER_ERROR
     end, (ProductUsecase.get usecase id s).2)
  /\ get usecase id s
     = (match (ProductUsecase.get usecase id s).1 with
        | Raise (NotFoundException message) =>
            Raise (HTTPException status.HTTP_404_NOT_FOUND message)
        | r => r
        end, (ProductUsecase.get usecase id s).2)
  /\ (forall message, (get usecase id s).1 <> Raise (NotFoundException message)).
Proof.
  assert (Hget : get usecase id s
    = (match (ProductUsecase.get usecase id s).1 with
       | Raise (NotFoundException message) =>
           Raise (HTTPException status.HTTP_404_NOT_FOUND message)
       | r => r
       end, (ProductUsecase.get usecase id s).2)).
  { unfold get. rewrite try_except_outcome.
    by destruct (ProductUsecase.get usecase id s) as [[out|[]] s']. }
  split; [|split].
  - unfold get_route. rewrite Hget.
    by destruct (ProductUsecase.get usecase id s) as [[out|[]] s'].
  - exact Hget.
  - intros message. rewrite Hget.
    by destruct (ProductUsecase.get usecase id s) as [[out|[]] s'].
Qed.

(** X18. [DELETE /{id}]: the store is what the use case leaves; the
    answer is 204 whenever [usecase.delete] returns, whatever it
    returns (the handler drops the result), 404 when it raises
    [NotFoundException], and [NotFoundException] never leaves the
    handler. Every other exception passes through unchanged. *)
Theorem delete_route_status {S : Type} (usecase : ProductUsecase.t S)
    (id : UUID) (s : S) :
  delete_route usecase id s
  = (match (ProductUsecase.delete usecase id s).1 with
     | Ok _ => status.HTTP_204_NO_CONTENT
     | Raise (NotFoundException _) => status.HTTP_404_NOT_FOUND
     | Raise (HTTPException status_code _) => status_code
     | Raise _ => status.HTTP_500_INTERNAL_SERVER_ERROR
     end, (ProductUsecase.delete usecase id s).2)
  /\ delete usecase id s
     = (match (ProductUsecase.delete usecase id s).1 with
        | Ok _ => Ok tt
        | Raise (NotFoundException message) =>
            Raise (HTTPException status.HTTP_404_NOT_FOUND message)
        | Raise exc => Raise exc
        end, (ProductUsecase.delete usecase id s).2)
  /\ (forall message,
        (delete usecase id s).1 <> Raise (NotFoundException message)).
Proof.
  assert (Hdelete : delete usecase id s
    = (match (ProductUsecase.delete usecase id s).1 with
       | Ok _ => Ok tt
       | Raise (NotFoundException message) =>
           Raise (HTTPException status.HTTP_404_NOT_FOUND message)
       | Raise exc => Raise exc
       end, (ProductUsecase.delete usecase id s).2)).
  { unfold delete. rewrite try_except_outcome.
    by destruct (ProductUsecase.delete usecase id s) as [[b|[]] s']. }
  split; [|split].
  - unfold delete_route. rewrite Hdelete.
    by destruct (ProductUsecase.delete usecase id s) as [[b|[]] s'].
  - exact Hdelete.
  - intros message. rewrite Hdelete.
    by destruct (ProductUsecase.delete usecase id s) as [[b|[]] s'].
Qed.

Lemma ProductUpdate_init_raises_signal {conversions : Conversions} data e :
  ProductUpdate_init data = Raise e ->
  (exists errors, e = ValidationError errors)
  \/ (exists v sign c x,
        data !! "price" = Some v
        /\ decimal_validator v = inl (Finite sign c x)
        /\ convert_decimal_128 (Finite sign c x) = Raise e
        /\ (e = Overflow \/ e = Inexact)
        /\ ~ representable c x).
Proof.
  intros H. destruct (ProductUpdate_init_raises _ _ H)
    as [(errors & -> & _)|(v & d & Hv & Hd & Hc)]; [eauto|].
  destruct (decimal_validator_finite _ _ Hd) as (sign & c & x & ->).
  right. exists v, sign, c, x. split; [done|]. split; [done|]. split; [done|].
  split; [by apply convert_decimal_128_finite_raises in Hc|].
  intros [y Hy]%(convert_decimal_128_succeeds_iff_representable sign).
  congruence.
Qed.

(** X19. [PATCH /{id}]: a body that fails validation is answered 422
    and a body whose price does not convert is answered 500, both
    without the use case being called; the only exceptions building the
    body lets through are [Overflow] and [Inexact], for a price, in
    whatever type the payload gives it, that the [Decimal] validator
    reads as a finite decimal no Decimal128 has the value of. Otherwise
    the store is what [usecase.update] leaves and the answer is 200 when
    it returns and 404 when it raises [NotFoundException], which never
    leaves the handler. *)
Theorem patch_route_status {conversions : Conversions} {S : Type}
    (usecase : ProductUsecase.t S)
    (id : UUID) (data : gmap string value) (utcnow : datetime) (s : S) :
  (forall errors,
      ProductUpdate_init data = Raise (ValidationError errors) ->
      patch_route usecase id data utcnow s
      = (status.HTTP_422_UNPROCESSABLE_ENTITY, s))
  /\ (forall e,
        ProductUpdate_init data = Raise e ->
        (forall errors, e <> ValidationError errors) ->
        patch_route usecase id data utcnow s
        = (status.HTTP_500_INTERNAL_SERVER_ERROR, s)
        /\ (e = Overflow \/ e = Inexact)
        /\ exists v sign c x,
            data !! "price" = Some v
            /\ decimal_validator v = inl (Finite sign c x)
            /\ ~ representable c x)
  /\ (forall body,
        ProductUpdate_init data = Ok body ->
        let r :=
          ProductUsecase.update usecase id (set_updated_at body (Some utcnow)) s
        in
        patch_route usecase id data utcnow s
        = (match r.1 with
           | Ok _ => status.HTTP_200_OK
           | Raise (NotFoundException _) => status.HTTP_404_NOT_FOUND
           | Raise (HTTPException status_code _) => status_code
           | Raise _ => status.HTTP_500_INTERNAL_SERVER_ERROR
           end, r.2)
        /\ forall message,
            (patch usecase id body utcnow s).1
            <> Raise (NotFoundException message)).
Proof.
  split; [|split].
  - intros errors He. unfold patch_route. by rewrite He.
  - intros e He Hne.
    destruct (ProductUpdate_init_raises_signal _ _ He)
      as [(errors & ->)|(v & sign & c & x & Hp & Hd & _ & Hsig & Hrep)];
      [by destruct (Hne errors)|].
    split; [|split; [done|by exists v, sign, c, x]].
    unfold patch_route. rewrite He. by destruct Hsig as [-> | ->].
  - intros body Hb r.
    assert (Hpatch : patch usecase id body utcnow s
      = (match r.1 with
         | Raise (NotFoundException message) =>
             Raise (HTTPException status.HTTP_404_NOT_FOUND message)
         | x => x
         end, r.2)).
    { unfold patch. rewrite try_except_outcome. fold r.
      by destruct r as [[out|[]] s']. }
    split.
    + unfold patch_route. rewrite Hb, Hpatch. by destruct r as [[out|[]] s'].
    + intros message. rewrite Hpatch. by destruct r as [[out|[]] s'].
Qed.
